(** * LifeSOSpy_MQTT: the translator between the LifeSOS base unit and MQTT

    A shallow embedding of [lifesospy_mqtt/translator.py] (class [Translator])
    and of the part of [lifesospy_mqtt/config.py] it reads, followed by the
    properties of the translation and event-routing engine.

    Conventions of the embedding.
    - A method of [Translator] is a computation in the monad [M]: it threads
      the [World] (the attributes of [self], the adapter, the asyncio loop and
      the calls made so far into the broker client, the logger and the task
      scheduler) and either returns or raises a Python exception.
    - A Python [str] is a Rocq [string] holding its UTF-8 encoding; [bytes] is
      a list of [byte].
    - A Python [dict] whose iteration order is observed is an insertion-ordered
      association list ([PyDict]); the table of auto-reset handles, which is
      only looked up, inserted into, popped from and emptied, is a [gmap].
    - What lives in the external packages [lifesospy], [paho] and [dateutil]
      (enumeration values, flag tables, parsers) is taken as a parameter,
      gathered in the record [Lifesospy.lib]. *)

From Stdlib Require Import ZArith String Ascii List Lia HexString DecimalString.
From Stdlib.Strings Require Import Byte.
From stdpp Require Import base option list gmap strings.
Import ListNotations.

Local Open Scope Z_scope.

(** ** Python values and helpers *)

(** Insertion-ordered dictionaries: [dict.get], [d[k] = v], iteration. *)
Module PyDict.

Definition t (K V : Type) := list (K * V).

Fixpoint get {V} (d : t Z V) (k : Z) : option V :=
  match d with
  | [] => None
  | (k', v) :: d' => if Z.eqb k' k then Some v else get d' k
  end.

(** [d[k] = v]: an existing key keeps its position, a new key goes last. *)
Fixpoint set {V} (d : t Z V) (k : Z) (v : V) : t Z V :=
  match d with
  | [] => [(k, v)]
  | (k', v') :: d' => if Z.eqb k' k then (k', v) :: d' else (k', v') :: set d' k v
  end.

Definition keys {K V} (d : t K V) : list K := map fst d.

(** The same three operations for string keys (JSON objects). *)
Fixpoint sget {V} (d : t string V) (k : string) : option V :=
  match d with
  | [] => None
  | (k', v) :: d' => if String.eqb k' k then Some v else sget d' k
  end.

Fixpoint sset {V} (d : t string V) (k : string) (v : V) : t string V :=
  match d with
  | [] => [(k, v)]
  | (k', v') :: d' =>
      if String.eqb k' k then (k', v) :: d' else (k', v') :: sset d' k v
  end.

(** [{**a, **b}]: the items of [b] are assigned into [a] in order. *)
Definition merge {V} (a b : t string V) : t string V :=
  fold_left (fun acc kv => sset acc (fst kv) (snd kv)) b a.

End PyDict.

(** ['{}/{}'.format(a, b)] and ['{}/{}/{}'.format(a, b, c)]. *)
Definition fmt2 (a b : string) : string := a +:+ "/" +:+ b.
Definition fmt3 (a b c : string) : string := a +:+ "/" +:+ b +:+ "/" +:+ c.

(** Truth value of a [str]: the empty string is false. *)
Definition str_truthy (s : string) : bool := negb (String.eqb s EmptyString).

(** Truth value of an optional [str] ([None] or a string). *)
Definition opt_str_truthy (o : option string) : bool :=
  match o with
  | Some s => str_truthy s
  | None => false
  end.

(** ['{:06x}'.format(z)]: lower-case hexadecimal, zero-filled to width six,
    the sign counted in the width. *)
Definition hex_of_N (n : N) : string :=
  match n with
  | N0 => "0"
  | Npos p => HexString.Raw.of_pos p ""
  end.

Fixpoint zeros (n : nat) : string :=
  match n with
  | O => ""
  | S n' => String "0" (zeros n')
  end.

Definition zfill (width : nat) (s : string) : string :=
  zeros (width - String.length s)%nat +:+ s.

Definition format_06x (z : Z) : string :=
  if z <? 0 then "-" +:+ zfill 5 (hex_of_N (Z.abs_N z))
  else zfill 6 (hex_of_N (Z.abs_N z)).

(** [bytes.decode()]: strict UTF-8.  A well-formed sequence decodes to the
    string with the same encoding; anything else raises [UnicodeDecodeError]
    (here: [None]). *)
Definition bytes := list byte.

Definition in_range (lo hi : N) (b : byte) : bool :=
  (N.leb lo (Byte.to_N b) && N.leb (Byte.to_N b) hi)%bool.

Definition is_cont (b : byte) : bool := in_range 128 191 b.

Fixpoint utf8_valid (l : bytes) : bool :=
  match l with
  | [] => true
  | b0 :: r0 =>
      if in_range 0 127 b0 then utf8_valid r0
      else if in_range 194 223 b0 then
        match r0 with
        | b1 :: r1 => is_cont b1 && utf8_valid r1
        | _ => false
        end
      else if in_range 224 239 b0 then
        match r0 with
        | b1 :: b2 :: r2 =>
            (if in_range 224 224 b0 then in_range 160 191 b1
             else if in_range 237 237 b0 then in_range 128 159 b1
             else is_cont b1)
            && is_cont b2 && utf8_valid r2
        | _ => false
        end
      else if in_range 240 244 b0 then
        match r0 with
        | b1 :: b2 :: b3 :: r3 =>
            (if in_range 240 240 b0 then in_range 144 191 b1
             else if in_range 244 244 b0 then in_range 128 143 b1
             else is_cont b1)
            && is_cont b2 && is_cont b3 && utf8_valid r3
        | _ => false
        end
      else false
  end%bool.

Definition decode (b : bytes) : option string :=
  if utf8_valid b then Some (string_of_list_byte b) else None.

(** [str.encode()] of a literal, to write payloads in examples. *)
Definition encode (s : string) : bytes := list_byte_of_string s.

(** JSON documents ([json.dumps] of a dict), kept as the dict: a value is
    [None], a string or a dict of strings. *)
Inductive jvalue :=
| JNull
| JStr (s : string)
| JDict (d : PyDict.t string string).

Definition json := PyDict.t string jvalue.

(** ** The external package [lifesospy] *)

(** The members of [lifesospy.enums.BaseUnitState] that the translator names. *)
Module BaseUnitState.
Inductive t := Disarm | Home | Away | Monitor | AwayExitDelay | AwayEntryDelay.
End BaseUnitState.

(** [lifesospy.enums.OperationMode]: the members the translator names, and
    the others. *)
Module OperationMode.
Inductive t := Disarm | Home | Away | Other (member : string).

Definition eqb (a b : t) : bool :=
  match a, b with
  | Disarm, Disarm | Home, Home | Away, Away => true
  | Other x, Other y => String.eqb x y
  | _, _ => false
  end.
End OperationMode.

(** [ContactIDEventQualifier]; [Other] stands for any other member and for
    an absent qualifier. *)
Module EventQualifier.
Inductive t := Event | Restore | Other.
End EventQualifier.

(** What reading [contact_id.event_category] gives: a
    [ContactIDEventCategory] member, [Other] standing for every member but
    [Alarm]; for an event code that belongs to no category the property
    raises [ValueError], and so does [as_dict()], which reads it: [Raises]. *)
Module EventCategory.
Inductive t := Alarm | Other | Raises.
End EventCategory.

(** [dateutil.parser.parse(text)]: the date, or one of the two exceptions the
    parser raises on a string: [ParserError], a [ValueError], for a text that
    is no date, and [OverflowError] for a date out of range. *)
Module Dateutil.
Inductive parse_result := Parsed (d : Z) | ParserError | Overflow.
End Dateutil.

(** [DeviceEventCode] and [DeviceType]: the members the translator names,
    and the others by their code. *)
Module DeviceEventCode.
Inductive t := BatteryLow | PowerOnReset | Tamper | Trigger | Other (code : Z).
End DeviceEventCode.

Module DeviceType.
Inductive t := SmokeDetector | DoorMagnet | PIRSensor | Other (code : Z).
End DeviceType.

(** Values the adapter hands over as property values (Python's [Any]):
    [None], [bool], [int], [str], a [BaseUnitState] member, a member of any
    other [IntEnum] or [IntFlag] (class name, member name, integer value), and
    a [DeviceCategory] object (given by its [as_dict()]). *)
Inductive pyval :=
| VNone
| VBool (b : bool)
| VInt (z : Z)
| VStr (s : string)
| VBaseUnitState (s : BaseUnitState.t)
| VIntEnum (cls member : string) (value : Z)
| VCategory (as_dict : list (string * string)).

Module OnOff.
(** Modelled from the spec: [lifesospy_mqtt/enums.py] is not under src/.  The
    main topic of a trigger device carries "On" or "Off"; [parse_value(True)]
    is the "On" published on a trigger, [parse_value(False)] the "Off"
    published on auto-reset. *)
Inductive t := Off | On.

Definition parse_value (value : bool) : t := if value then On else Off.

Definition str (o : t) : string :=
  match o with
  | Off => "Off"
  | On => "On"
  end.
End OnOff.

Module OpenClosed.
(** Modelled from the spec: [lifesospy_mqtt/enums.py] is not under src/.  The
    main topic of a door magnet carries "Open" or "Closed".  How
    [parse_value] maps a value to a member is left as a parameter. *)
Inductive t := Open | Closed.

Definition str (o : t) : string :=
  match o with
  | Open => "Open"
  | Closed => "Closed"
  end.
End OpenClosed.

(** What the translator hands to [publish] as payload. *)
Inductive payload :=
| PValue (v : pyval)
| POnOff (o : OnOff.t)
| POpenClosed (o : option OpenClosed.t)
| PDeviceEventCode (c : DeviceEventCode.t)
| PContactIDEventCode (code : Z)
| PJson (j : json).

Definition PStr (s : string) : payload := PValue (VStr s).
Definition PBool (b : bool) : payload := PValue (VBool b).

Module Lifesospy.

(** What the translator takes from code that is not under src/: the
    packages [lifesospy] and [dateutil], and [OpenClosed.parse_value] of
    [lifesospy_mqtt/enums.py]. *)
Record lib := {
  (** the integer value of each [BaseUnitState] member *)
  BaseUnitState_value : BaseUnitState.t -> Z;
  (** [OperationMode.parse_name(name)]; [None] when no member has that name *)
  OperationMode_parse_name : option string -> option OperationMode.t;
  (** [iter(DCFlags)] and the like: member name and value, in definition order *)
  DCFlags : list (string * Z);
  ESFlags : list (string * Z);
  SwitchFlags : list (string * Z);
  SSFlags : list (string * Z);
  (** [OpenClosed.parse_value(value)] *)
  OpenClosed_parse_value : pyval -> option OpenClosed.t;
  (** [dateutil.parser.parse(value)] *)
  dateutil_parse : string -> Dateutil.parse_result;
  (** [str(member)] of an [OperationMode] and of a [DeviceEventCode] member *)
  str_OperationMode : OperationMode.t -> string;
  str_DeviceEventCode : DeviceEventCode.t -> string;
  (** [str(device.type)] *)
  str_DeviceType : DeviceType.t -> string
}.

End Lifesospy.

Module Device.
Record t := {
  device_id : Z;
  type : DeviceType.t;
  (** [isinstance(device, SpecialDevice)] *)
  is_special : bool
}.

(** [lifesospy.device.Device]: the names of its properties. *)
Definition PROP_CATEGORY := "category".
Definition PROP_CHARACTERISTICS := "characteristics".
Definition PROP_DEVICE_ID := "device_id".
Definition PROP_ENABLE_STATUS := "enable_status".
Definition PROP_IS_CLOSED := "is_closed".
Definition PROP_RSSI_BARS := "rssi_bars".
Definition PROP_RSSI_DB := "rssi_db".
Definition PROP_SWITCHES := "switches".
Definition PROP_TYPE := "type".
Definition PROP_ZONE := "zone".
End Device.

Module SpecialDevice.
(** [lifesospy.device.SpecialDevice]: the names of its properties. *)
Definition PROP_CONTROL_HIGH_LIMIT := "control_high_limit".
Definition PROP_CONTROL_LIMIT_FIELDS_EXIST := "control_limit_fields_exist".
Definition PROP_CONTROL_LOW_LIMIT := "control_low_limit".
Definition PROP_CURRENT_READING := "current_reading".
Definition PROP_HIGH_LIMIT := "high_limit".
Definition PROP_LOW_LIMIT := "low_limit".
Definition PROP_SPECIAL_STATUS := "special_status".
End SpecialDevice.

Module ContactID.
Record t := {
  event_code : option Z;
  event_qualifier : EventQualifier.t;
  event_category : EventCategory.t;
  as_dict : json
}.
End ContactID.

Module PropertyChangedInfo.
Record t := { name : string; new_value : pyval }.
End PropertyChangedInfo.

(** The adapter as the translator sees it: its connectivity flag and the
    devices it knows. *)
Module BaseUnit.
Record t := {
  is_connected : bool;
  devices : PyDict.t Z Device.t
}.

(** [lifesospy.baseunit.BaseUnit]: the names of its properties. *)
Definition PROP_ENTRY_DELAY := "entry_delay".
Definition PROP_EXIT_DELAY := "exit_delay".
Definition PROP_IS_CONNECTED := "is_connected".
Definition PROP_OPERATION_MODE := "operation_mode".
Definition PROP_ROM_VERSION := "rom_version".
Definition PROP_STATE := "state".
End BaseUnit.

(** The integer behind a value, when it is an [int] (a [bool], an [IntEnum]). *)
Definition py_int (L : Lifesospy.lib) (v : pyval) : option Z :=
  match v with
  | VBool b => Some (if b then 1 else 0)
  | VInt z => Some z
  | VBaseUnitState s => Some (Lifesospy.BaseUnitState_value L s)
  | VIntEnum _ _ z => Some z
  | VNone | VStr _ | VCategory _ => None
  end.

(** Truth value of a property value. *)
Definition truthy (L : Lifesospy.lib) (v : pyval) : bool :=
  match v with
  | VNone => false
  | VStr s => str_truthy s
  | VCategory _ => true
  | _ => match py_int L v with
         | Some z => negb (z =? 0)
         | None => false
         end
  end.

(** [value == BaseUnitState.<s>]: equality of [IntEnum] members is equality
    of integers. *)
Definition eq_state (L : Lifesospy.lib) (value : pyval) (s : BaseUnitState.t) : bool :=
  match py_int L value with
  | Some z => z =? Lifesospy.BaseUnitState_value L s
  | None => false
  end.

(** [value in {s1, s2, ...}] for a set of [BaseUnitState] members. *)
Definition in_states (L : Lifesospy.lib) (value : pyval)
    (set : list BaseUnitState.t) : bool :=
  existsb (eq_state L value) set.

(** ** [lifesospy_mqtt/config.py] *)

Module TranslatorBaseUnitConfig.
Record t := {
  topic : string;
  device_info : option (PyDict.t string string)
}.
End TranslatorBaseUnitConfig.

Module TranslatorDeviceConfig.
Record t := {
  topic : string;
  auto_reset_interval : option Z;
  device_info : option (PyDict.t string string)
}.
End TranslatorDeviceConfig.

Module TranslatorConfig.
Record t := {
  birth_payload : option string;
  birth_topic : option string;
  discovery_prefix : option string;
  baseunit : TranslatorBaseUnitConfig.t;
  devices : PyDict.t Z TranslatorDeviceConfig.t
}.

(** The loop of [TranslatorConfig.__init__] filling [self._devices]. *)
Definition make_devices (devices_settings : list (Z * TranslatorDeviceConfig.t))
    : PyDict.t Z TranslatorDeviceConfig.t :=
  fold_left (fun d s => PyDict.set d (fst s) (snd s)) devices_settings [].
End TranslatorConfig.

Module Config.
Record t := { translator : TranslatorConfig.t }.
End Config.

(** ** The world the translator runs in *)

(** Modelled from the spec: [lifesospy_mqtt/const.py] is not under src/.
    Every publish and subscription is made at QoS "at least once". *)
Definition QOS_1 : Z := 1.

(** [paho.mqtt.client]: return codes. *)
Definition CONNACK_ACCEPTED : Z := 0.
Definition MQTT_ERR_SUCCESS : Z := 0.

Module MQTTMessage.
Record t := { topic : string; payload : bytes }.
End MQTTMessage.

(** Modelled from the spec: [lifesospy_mqtt/subscribetopic.py] is not under
    src/.  A subscribe topic is a topic string, a handler reference, an
    optional argument and a QoS. *)
Module SubscribeTopic.
Inductive handler :=
| _on_message_clear_status
| _on_message_set_datetime
| _on_message_baseunit
| _on_message.

Record t := {
  topic : string;
  on_message : handler;
  args : option string;
  qos : Z
}.

Definition make (topic : string) (on_message : handler) (args : option string) : t :=
  {| topic := topic; on_message := on_message; args := args; qos := QOS_1 |}.
End SubscribeTopic.

Inductive exn :=
| TypeError
| ValueError
| KeyError
| AttributeError
| NotImplementedError
| UnicodeDecodeError
| OverflowError.

Inductive result (A : Type) :=
| Ok (a : A)
| Raise (e : exn).
Arguments Ok {A} a.
Arguments Raise {A} e.

(** Commands handed to the adapter through [loop.create_task]. *)
Inductive command :=
| async_set_operation_mode (operation_mode : OperationMode.t)
| async_clear_status
| async_set_datetime (value : option Z).

Inductive level := DEBUG | INFO | WARNING | ERROR.

Inductive logmsg :=
| msg_connack (result_code : Z)
| msg_connected
| msg_reconnected_outage (outage : Z)
| msg_reconnected
| msg_lost_connection (result_code : Z)
| msg_ignoring_device (device : Device.t)
| msg_device_type_skipped (type : string)
| msg_cannot_set_operation_mode (name : option string)
| msg_resetting_triggered
| msg_exception_processing (topic : string) (e : exn).

(** Calls the translator makes into its collaborators, in call order. *)
Inductive effect :=
| Publish (topic : string) (payload : payload) (qos : Z) (retain : bool)
| Subscribe (topic : string) (qos : Z)
| Log (lvl : level) (msg : logmsg)
| CreateTask (c : command)
| BaseUnitStart
| BaseUnitStop
| MqttConnectAsync
| MqttLoopStart
| MqttLoopStop
| MqttDisconnect.

(** The asyncio loop: its clock and every timer handle [call_later] made.
    A handle is identified by its position; it is live while it is scheduled
    and not cancelled. *)
Module TimerHandle.
Record t := {
  when : Z;
  args : Z;
  cancelled : bool;
  scheduled : bool
}.

Definition live (h : t) : bool := scheduled h && negb (cancelled h).

Definition cancel (h : t) : t :=
  {| when := when h; args := args h; cancelled := true; scheduled := scheduled h |}.

Definition unschedule (h : t) : t :=
  {| when := when h; args := args h; cancelled := cancelled h; scheduled := false |}.
End TimerHandle.

Module Loop.
Record t := {
  time : Z;
  handles : list TimerHandle.t
}.
End Loop.

(** The attributes of a [Translator] instance. *)
Module Translator.
Record t := {
  _config : Config.t;
  _shutdown : bool;
  _auto_reset_handles : gmap Z nat;
  _state : pyval;
  _ha_state : option string;
  _mqtt_was_connected : bool;
  _mqtt_last_connection : option Z;
  _mqtt_last_disconnection : option Z;
  _subscribetopics : list SubscribeTopic.t;
  _pending_messages : list (option MQTTMessage.t)
}.

Definition with_shutdown (v : bool) (s : t) : t :=
  {| _config := _config s; _shutdown := v;
     _auto_reset_handles := _auto_reset_handles s; _state := _state s;
     _ha_state := _ha_state s; _mqtt_was_connected := _mqtt_was_connected s;
     _mqtt_last_connection := _mqtt_last_connection s;
     _mqtt_last_disconnection := _mqtt_last_disconnection s;
     _subscribetopics := _subscribetopics s;
     _pending_messages := _pending_messages s |}.

Definition with_auto_reset_handles (v : gmap Z nat) (s : t) : t :=
  {| _config := _config s; _shutdown := _shutdown s;
     _auto_reset_handles := v; _state := _state s;
     _ha_state := _ha_state s; _mqtt_was_connected := _mqtt_was_connected s;
     _mqtt_last_connection := _mqtt_last_connection s;
     _mqtt_last_disconnection := _mqtt_last_disconnection s;
     _subscribetopics := _subscribetopics s;
     _pending_messages := _pending_messages s |}.

Definition with_state (v : pyval) (s : t) : t :=
  {| _config := _config s; _shutdown := _shutdown s;
     _auto_reset_handles := _auto_reset_handles s; _state := v;
     _ha_state := _ha_state s; _mqtt_was_connected := _mqtt_was_connected s;
     _mqtt_last_connection := _mqtt_last_connection s;
     _mqtt_last_disconnection := _mqtt_last_disconnection s;
     _subscribetopics := _subscribetopics s;
     _pending_messages := _pending_messages s |}.

Definition with_ha_state (v : option string) (s : t) : t :=
  {| _config := _config s; _shutdown := _shutdown s;
     _auto_reset_handles := _auto_reset_handles s; _state := _state s;
     _ha_state := v; _mqtt_was_connected := _mqtt_was_connected s;
     _mqtt_last_connection := _mqtt_last_connection s;
     _mqtt_last_disconnection := _mqtt_last_disconnection s;
     _subscribetopics := _subscribetopics s;
     _pending_messages := _pending_messages s |}.

Definition with_mqtt_was_connected (v : bool) (s : t) : t :=
  {| _config := _config s; _shutdown := _shutdown s;
     _auto_reset_handles := _auto_reset_handles s; _state := _state s;
     _ha_state := _ha_state s; _mqtt_was_connected := v;
     _mqtt_last_connection := _mqtt_last_connection s;
     _mqtt_last_disconnection := _mqtt_last_disconnection s;
     _subscribetopics := _subscribetopics s;
     _pending_messages := _pending_messages s |}.

Definition with_mqtt_last_connection (v : option Z) (s : t) : t :=
  {| _config := _config s; _shutdown := _shutdown s;
     _auto_reset_handles := _auto_reset_handles s; _state := _state s;
     _ha_state := _ha_state s; _mqtt_was_connected := _mqtt_was_connected s;
     _mqtt_last_connection := v;
     _mqtt_last_disconnection := _mqtt_last_disconnection s;
     _subscribetopics := _subscribetopics s;
     _pending_messages := _pending_messages s |}.

Definition with_mqtt_last_disconnection (v : option Z) (s : t) : t :=
  {| _config := _config s; _shutdown := _shutdown s;
     _auto_reset_handles := _auto_reset_handles s; _state := _state s;
     _ha_state := _ha_state s; _mqtt_was_connected := _mqtt_was_connected s;
     _mqtt_last_connection := _mqtt_last_connection s;
     _mqtt_last_disconnection := v;
     _subscribetopics := _subscribetopics s;
     _pending_messages := _pending_messages s |}.

Definition with_pending_messages (v : list (option MQTTMessage.t)) (s : t) : t :=
  {| _config := _config s; _shutdown := _shutdown s;
     _auto_reset_handles := _auto_reset_handles s; _state := _state s;
     _ha_state := _ha_state s; _mqtt_was_connected := _mqtt_was_connected s;
     _mqtt_last_connection := _mqtt_last_connection s;
     _mqtt_last_disconnection := _mqtt_last_disconnection s;
     _subscribetopics := _subscribetopics s;
     _pending_messages := v |}.
End Translator.

Record World := {
  self : Translator.t;
  baseunit : BaseUnit.t;
  loop : Loop.t;
  out : list effect
}.

Definition with_self (s : Translator.t) (w : World) : World :=
  {| self := s; baseunit := baseunit w; loop := loop w; out := out w |}.

Definition with_loop (l : Loop.t) (w : World) : World :=
  {| self := self w; baseunit := baseunit w; loop := l; out := out w |}.

Definition with_out (o : list effect) (w : World) : World :=
  {| self := self w; baseunit := baseunit w; loop := loop w; out := o |}.

(** ** The monad of methods: state and exceptions *)

Definition M (A : Type) : Type := World -> result A * World.

#[export] Instance M_ret : MRet M := fun A a w => (Ok a, w).

#[export] Instance M_bind : MBind M := fun A B f m w =>
  match m w with
  | (Ok a, w') => f a w'
  | (Raise e, w') => (Raise e, w')
  end.

Definition raise {A} (e : exn) : M A := fun w => (Raise e, w).

(** [try: m except Exception: handler]. *)
Definition try_except {A} (m : M A) (handler : exn -> M A) : M A := fun w =>
  match m w with
  | (Ok a, w') => (Ok a, w')
  | (Raise e, w') => handler e w'
  end.

Definition get_self : M Translator.t := fun w => (Ok (self w), w).

Definition modify_self (f : Translator.t -> Translator.t) : M unit :=
  fun w => (Ok tt, with_self (f (self w)) w).

Definition get_baseunit : M BaseUnit.t := fun w => (Ok (baseunit w), w).

Definition emit (e : effect) : M unit :=
  fun w => (Ok tt, with_out (out w ++ [e]) w).

Definition pass : M unit := mret tt.

(** [for x in l: body(x)]. *)
Fixpoint for_ {A} (l : list A) (body : A -> M unit) : M unit :=
  match l with
  | [] => pass
  | x :: l' => body x ;; for_ l' body
  end.

(** The world a method leaves, and whether it returned or raised. *)
Definition run {A} (m : M A) (w : World) : World := snd (m w).
Definition outcome {A} (m : M A) (w : World) : result A := fst (m w).

(** [loop.call_later(delay, callback, arg)]: a new handle, due [delay] after
    the loop's current time. *)
Definition call_later (delay : Z) (arg : Z) : M nat := fun w =>
  let l := loop w in
  let h := {| TimerHandle.when := Loop.time l + delay; TimerHandle.args := arg;
              TimerHandle.cancelled := false; TimerHandle.scheduled := true |} in
  (Ok (length (Loop.handles l)),
   with_loop {| Loop.time := Loop.time l; Loop.handles := Loop.handles l ++ [h] |} w).

(** [handle.cancel()]. *)
Definition handle_cancel (handle : nat) : M unit := fun w =>
  let l := loop w in
  (Ok tt,
   with_loop {| Loop.time := Loop.time l;
                Loop.handles := alter TimerHandle.cancel handle (Loop.handles l) |} w).

(** ** [lifesospy_mqtt/translator.py]: class [Translator] *)

Definition AUTO_RESET_INTERVAL : Z := 30.

Definition AVAILABILITY_TOPIC := "availability_topic".
Definition COMMAND_TOPIC := "command_topic".
Definition DEVICE := "device".
Definition DEVICE_CLASS := "device_class".
Definition ENTITY_CATEGORY := "entity_category".
Definition ICON := "icon".
Definition IDENTIFIERS := "identifiers".
Definition NAME := "name".
Definition OBJECT_ID := "object_id".
Definition PAYLOAD_ARM_AWAY := "payload_arm_away".
Definition PAYLOAD_ARM_HOME := "payload_arm_home".
Definition PAYLOAD_AVAILABLE := "payload_available".
Definition PAYLOAD_DISARM := "payload_disarm".
Definition PAYLOAD_NOT_AVAILABLE := "payload_not_available".
Definition PAYLOAD_OFF := "payload_off".
Definition PAYLOAD_ON := "payload_on".
Definition STATE_TOPIC := "state_topic".
Definition UNIQUE_ID := "unique_id".
Definition UNIT_OF_MEASUREMENT := "unit_of_measurement".

Definition DC_BATTERY := "battery".
Definition DC_DOOR := "door".
Definition DC_MOTION := "motion".
Definition DC_SMOKE := "smoke".
Definition ICON_RSSI := "mdi:wifi".
Definition DIAGNOSTIC := "diagnostic".

Definition PLATFORM_ALARM_CONTROL_PANEL := "alarm_control_panel".
Definition PLATFORM_BINARY_SENSOR := "binary_sensor".
Definition PLATFORM_SENSOR := "sensor".

Definition STATE_ARMED_AWAY := "armed_away".
Definition STATE_ARMED_HOME := "armed_home".
Definition STATE_DISARMED := "disarmed".
Definition STATE_PENDING := "pending".
Definition STATE_TRIGGERED := "triggered".

Definition UOM_RSSI := "dB".

Definition TOPIC_CLEAR_STATUS := "clear_status".
Definition TOPIC_DATETIME := "datetime".
Definition TOPIC_STATE := "ha_state".
Definition TOPIC_SET := "set".

(** [str(x)] of an optional string inside [format]. *)
Definition str_of_opt (o : option string) : string :=
  match o with
  | Some s => s
  | None => "None"
  end.

(** ['{}/{}/{}/config'.format(a, b, c)]. *)
Definition fmt_config (a b c : string) : string :=
  a +:+ "/" +:+ b +:+ "/" +:+ c +:+ "/config".

(** [x or y] on the auto-reset interval. *)
Definition or_default (x : option Z) (y : Z) : Z :=
  match x with
  | Some i => if i =? 0 then y else i
  | None => y
  end.

(** [Translator.__init__]: the attributes, and the list of topics to
    subscribe to. *)
Definition __init__ (config : Config.t) : Translator.t :=
  let tc := Config.translator config in
  let B := TranslatorBaseUnitConfig.topic (TranslatorConfig.baseunit tc) in
  let names := [BaseUnit.PROP_OPERATION_MODE] in
  {| Translator._config := config;
     Translator._shutdown := false;
     Translator._auto_reset_handles := ∅;
     Translator._state := VNone;
     Translator._ha_state := None;
     Translator._mqtt_was_connected := false;
     Translator._mqtt_last_connection := None;
     Translator._mqtt_last_disconnection := None;
     Translator._subscribetopics :=
       [SubscribeTopic.make (fmt2 B TOPIC_CLEAR_STATUS)
          SubscribeTopic._on_message_clear_status None;
        SubscribeTopic.make (fmt3 B TOPIC_DATETIME TOPIC_SET)
          SubscribeTopic._on_message_set_datetime None]
       ++ map (fun name =>
                 SubscribeTopic.make (fmt3 B name TOPIC_SET)
                   SubscribeTopic._on_message_baseunit (Some name)) names
       ++ (if opt_str_truthy (TranslatorConfig.birth_topic tc)
           then [SubscribeTopic.make (str_of_opt (TranslatorConfig.birth_topic tc))
                   SubscribeTopic._on_message None]
           else []);
     Translator._pending_messages := [] |}.

(** [self._subscribetopics_lookup[topic]]: a dict built from the list, so the
    last entry with a topic wins. *)
Definition _subscribetopics_lookup (s : Translator.t) (topic : string)
    : option SubscribeTopic.t :=
  last
    (List.filter (fun st => String.eqb (SubscribeTopic.topic st) topic)
       (Translator._subscribetopics s)).

Section translator.

Variable L : Lifesospy.lib.

Definition translator_config : M TranslatorConfig.t :=
  s ← get_self; mret (Config.translator (Translator._config s)).

Definition log (lvl : level) (msg : logmsg) : M unit := emit (Log lvl msg).

Definition _publish (topic : string) (payload : payload) (retain : bool) : M unit :=
  emit (Publish topic payload QOS_1 retain).

(** [{**ha_device_info, **identifiers}]; unpacking [None], the value of an
    absent [device_info] setting, raises [TypeError]. *)
Definition _add_device_identifiers (device_id : Z)
    (ha_device_info : option (PyDict.t string string)) : M jvalue :=
  let identifiers := [(IDENTIFIERS, "LifeSOS_" +:+ format_06x device_id)] in
  match ha_device_info with
  | Some info => mret (JDict (PyDict.merge info identifiers))
  | None => raise TypeError
  end.

(** The document is built before it is published; [**device_info] raises
    [TypeError] when the setting is absent. *)
Definition _publish_baseunit_config (baseunit_config : TranslatorBaseUnitConfig.t)
    : M unit :=
  cfg ← translator_config;
  let topic := TranslatorBaseUnitConfig.topic baseunit_config in
  match TranslatorBaseUnitConfig.device_info baseunit_config with
  | None => raise TypeError
  | Some info =>
      let message : json :=
        [(NAME, JNull);
         (OBJECT_ID, JStr "lifesos_baseunit");
         (UNIQUE_ID, JStr "lifesos_baseunit");
         (STATE_TOPIC, JStr (fmt2 topic TOPIC_STATE));
         (COMMAND_TOPIC, JStr (fmt3 topic BaseUnit.PROP_OPERATION_MODE TOPIC_SET));
         (PAYLOAD_DISARM,
           JStr (Lifesospy.str_OperationMode L OperationMode.Disarm));
         (PAYLOAD_ARM_HOME,
           JStr (Lifesospy.str_OperationMode L OperationMode.Home));
         (PAYLOAD_ARM_AWAY,
           JStr (Lifesospy.str_OperationMode L OperationMode.Away));
         (AVAILABILITY_TOPIC, JStr (fmt2 topic BaseUnit.PROP_IS_CONNECTED));
         (PAYLOAD_AVAILABLE, JStr "True");
         (PAYLOAD_NOT_AVAILABLE, JStr "False");
         (DEVICE, JDict (PyDict.merge [(IDENTIFIERS, "lifesos_baseunit")] info))] in
      _publish
        (fmt_config (str_of_opt (TranslatorConfig.discovery_prefix cfg))
           PLATFORM_ALARM_CONTROL_PANEL "lifesos_baseunit")
        (PJson message) false
  end.

Definition _publish_device_config (device : Device.t)
    (device_config : TranslatorDeviceConfig.t) : M unit :=
  cfg ← translator_config;
  dev ← _add_device_identifiers (Device.device_id device)
          (TranslatorDeviceConfig.device_info device_config);
  let unique_id := "lifesos_" +:+ format_06x (Device.device_id device) in
  let message : json :=
    [(NAME, JNull);
     (OBJECT_ID, JStr unique_id);
     (UNIQUE_ID, JStr unique_id);
     (STATE_TOPIC, JStr (TranslatorDeviceConfig.topic device_config));
     (AVAILABILITY_TOPIC,
       JStr (fmt2 (TranslatorBaseUnitConfig.topic (TranslatorConfig.baseunit cfg))
               BaseUnit.PROP_IS_CONNECTED));
     (PAYLOAD_AVAILABLE, JStr "True");
     (PAYLOAD_NOT_AVAILABLE, JStr "False");
     (DEVICE, dev)] in
  let send (ha_platform device_class payload_on payload_off : string) :=
    let message := PyDict.sset message DEVICE_CLASS (JStr device_class) in
    let message := PyDict.sset message PAYLOAD_ON (JStr payload_on) in
    let message := PyDict.sset message PAYLOAD_OFF (JStr payload_off) in
    _publish
      (fmt_config (str_of_opt (TranslatorConfig.discovery_prefix cfg))
         ha_platform unique_id)
      (PJson message) false in
  match Device.type device with
  | DeviceType.SmokeDetector =>
      send PLATFORM_BINARY_SENSOR DC_SMOKE (OnOff.str OnOff.On) (OnOff.str OnOff.Off)
  | DeviceType.DoorMagnet =>
      send PLATFORM_BINARY_SENSOR DC_DOOR
        (OpenClosed.str OpenClosed.Open) (OpenClosed.str OpenClosed.Closed)
  | DeviceType.PIRSensor =>
      send PLATFORM_BINARY_SENSOR DC_MOTION (OnOff.str OnOff.On) (OnOff.str OnOff.Off)
  | DeviceType.Other _ =>
      log WARNING (msg_device_type_skipped
                     (Lifesospy.str_DeviceType L (Device.type device)))
  end.

Definition _publish_device_rssi_config (device : Device.t)
    (device_config : TranslatorDeviceConfig.t) : M unit :=
  cfg ← translator_config;
  let unique_id := "lifesos_" +:+ format_06x (Device.device_id device) +:+ "_rssi" in
  dev ← _add_device_identifiers (Device.device_id device)
          (TranslatorDeviceConfig.device_info device_config);
  let message : json :=
    [(NAME, JStr "RSSI");
     (OBJECT_ID, JStr unique_id);
     (UNIQUE_ID, JStr unique_id);
     (ICON, JStr ICON_RSSI);
     (STATE_TOPIC,
       JStr (fmt2 (TranslatorDeviceConfig.topic device_config) Device.PROP_RSSI_DB));
     (UNIT_OF_MEASUREMENT, JStr UOM_RSSI);
     (AVAILABILITY_TOPIC,
       JStr (fmt2 (TranslatorBaseUnitConfig.topic (TranslatorConfig.baseunit cfg))
               BaseUnit.PROP_IS_CONNECTED));
     (PAYLOAD_AVAILABLE, JStr "True");
     (PAYLOAD_NOT_AVAILABLE, JStr "False");
     (ENTITY_CATEGORY, JStr DIAGNOSTIC);
     (DEVICE, dev)] in
  _publish
    (fmt_config (str_of_opt (TranslatorConfig.discovery_prefix cfg))
       PLATFORM_SENSOR unique_id)
    (PJson message) false.

Definition _publish_device_battery_config (device : Device.t)
    (device_config : TranslatorDeviceConfig.t) : M unit :=
  cfg ← translator_config;
  let unique_id :=
    "lifesos_" +:+ format_06x (Device.device_id device) +:+ "_battery" in
  dev ← _add_device_identifiers (Device.device_id device)
          (TranslatorDeviceConfig.device_info device_config);
  let message : json :=
    [(NAME, JStr "Battery");
     (OBJECT_ID, JStr unique_id);
     (UNIQUE_ID, JStr unique_id);
     (DEVICE_CLASS, JStr DC_BATTERY);
     (PAYLOAD_ON, JStr (Lifesospy.str_DeviceEventCode L DeviceEventCode.BatteryLow));
     (PAYLOAD_OFF, JStr (Lifesospy.str_DeviceEventCode L DeviceEventCode.PowerOnReset));
     (STATE_TOPIC, JStr (TranslatorDeviceConfig.topic device_config +:+ "/battery"));
     (AVAILABILITY_TOPIC,
       JStr (fmt2 (TranslatorBaseUnitConfig.topic (TranslatorConfig.baseunit cfg))
               BaseUnit.PROP_IS_CONNECTED));
     (PAYLOAD_AVAILABLE, JStr "True");
     (PAYLOAD_NOT_AVAILABLE, JStr "False");
     (ENTITY_CATEGORY, JStr DIAGNOSTIC);
     (DEVICE, dev)] in
  _publish
    (fmt_config (str_of_opt (TranslatorConfig.discovery_prefix cfg))
       PLATFORM_BINARY_SENSOR unique_id)
    (PJson message) false.

(** The three discovery documents of a device, as both callers publish them. *)
Definition publish_device_configs (device : Device.t)
    (device_config : TranslatorDeviceConfig.t) : M unit :=
  _publish_device_config device device_config ;;
  _publish_device_rssi_config device device_config ;;
  _publish_device_battery_config device device_config.

(** The loop of [_publish_ha_config] over [devices.keys()], which returns as
    soon as shutdown is flagged. *)
Fixpoint publish_ha_config_loop (keys : list Z) : M unit :=
  match keys with
  | [] => pass
  | device_id :: keys' =>
      s ← get_self;
      if Translator._shutdown s then pass
      else
        cfg ← translator_config;
        match PyDict.get (TranslatorConfig.devices cfg) device_id with
        | None => raise KeyError
        | Some device_config =>
            bu ← get_baseunit;
            match PyDict.get (BaseUnit.devices bu) device_id with
            | Some device =>
                if str_truthy (TranslatorDeviceConfig.topic device_config)
                then publish_device_configs device device_config
                else pass
            | None => pass
            end ;;
            publish_ha_config_loop keys'
        end
  end.

Definition _publish_ha_config : M unit :=
  cfg ← translator_config;
  if negb (opt_str_truthy (TranslatorConfig.discovery_prefix cfg)) then pass
  else
    (if str_truthy (TranslatorBaseUnitConfig.topic (TranslatorConfig.baseunit cfg))
     then _publish_baseunit_config (TranslatorConfig.baseunit cfg)
     else pass) ;;
    publish_ha_config_loop (PyDict.keys (TranslatorConfig.devices cfg)).

Definition set_ha_state (v : string) : M unit :=
  modify_self (Translator.with_ha_state (Some v)).

Definition _publish_baseunit_property (name : string) (value : pyval) : M unit :=
  cfg ← translator_config;
  let topic_parent := TranslatorBaseUnitConfig.topic (TranslatorConfig.baseunit cfg) in
  if String.eqb name BaseUnit.PROP_STATE then
    modify_self (Translator.with_state value) ;;
    _publish topic_parent (PValue value) true ;;
    let topic := fmt2 topic_parent TOPIC_STATE in
    if in_states L value [BaseUnitState.Disarm; BaseUnitState.Monitor] then
      set_ha_state STATE_DISARMED ;;
      _publish topic (PStr STATE_DISARMED) true
    else if eq_state L value BaseUnitState.Home then
      set_ha_state STATE_ARMED_HOME ;;
      _publish topic (PStr STATE_ARMED_HOME) true
    else if eq_state L value BaseUnitState.Away then
      set_ha_state STATE_ARMED_AWAY ;;
      _publish topic (PStr STATE_ARMED_AWAY) true
    else if in_states L value
              [BaseUnitState.AwayExitDelay; BaseUnitState.AwayEntryDelay] then
      set_ha_state STATE_PENDING ;;
      _publish topic (PStr STATE_PENDING) true
    else pass
  else if existsb (String.eqb name)
            [BaseUnit.PROP_IS_CONNECTED; BaseUnit.PROP_ROM_VERSION;
             BaseUnit.PROP_EXIT_DELAY; BaseUnit.PROP_ENTRY_DELAY;
             BaseUnit.PROP_OPERATION_MODE] then
    _publish (fmt2 topic_parent name) (PValue value) true
  else pass.

(** One flag enumeration: a boolean sub-topic per member. *)
Definition publish_flags (topic_parent name : string) (value : pyval)
    (flags : list (string * Z)) : M unit :=
  for_ flags (fun item =>
    match py_int L value with
    | Some v =>
        _publish (fmt3 topic_parent name (fst item))
          (PBool (negb (Z.land v (snd item) =? 0))) true
    | None => raise TypeError
    end).

Definition _publish_device_property (topic_parent : string) (device : Device.t)
    (name : string) (value : pyval) : M unit :=
  if negb (Device.is_special device) && String.eqb name Device.PROP_IS_CLOSED then
    match Device.type device with
    | DeviceType.DoorMagnet =>
        _publish topic_parent
          (POpenClosed (Lifesospy.OpenClosed_parse_value L value)) true
    | _ => _publish topic_parent (POnOff OnOff.Off) true
    end
  else if Device.is_special device
          && String.eqb name SpecialDevice.PROP_CURRENT_READING then
    _publish topic_parent (PValue value) true
  else if String.eqb name Device.PROP_CATEGORY then
    match value with
    | VCategory as_dict =>
        for_ as_dict (fun prop =>
          if existsb (String.eqb (fst prop)) ["code"; "description"]
          then _publish (fmt3 topic_parent name (fst prop)) (PStr (snd prop)) true
          else pass)
    | _ => raise AttributeError
    end
  else if String.eqb name Device.PROP_CHARACTERISTICS then
    publish_flags topic_parent name value (Lifesospy.DCFlags L)
  else if String.eqb name Device.PROP_ENABLE_STATUS then
    publish_flags topic_parent name value (Lifesospy.ESFlags L)
  else if String.eqb name Device.PROP_SWITCHES then
    publish_flags topic_parent name value (Lifesospy.SwitchFlags L)
  else if String.eqb name SpecialDevice.PROP_SPECIAL_STATUS then
    publish_flags topic_parent name value (Lifesospy.SSFlags L)
  else if String.eqb name Device.PROP_DEVICE_ID then
    match py_int L value with
    | Some z => _publish (fmt2 topic_parent name) (PStr (format_06x z)) true
    | None =>
        match value with
        | VStr _ => raise ValueError
        | _ => raise TypeError
        end
    end
  else if existsb (String.eqb name)
            [Device.PROP_DEVICE_ID; Device.PROP_ZONE; Device.PROP_TYPE;
             Device.PROP_RSSI_DB; Device.PROP_RSSI_BARS;
             SpecialDevice.PROP_HIGH_LIMIT; SpecialDevice.PROP_LOW_LIMIT;
             SpecialDevice.PROP_CONTROL_LIMIT_FIELDS_EXIST;
             SpecialDevice.PROP_CONTROL_HIGH_LIMIT;
             SpecialDevice.PROP_CONTROL_LOW_LIMIT] then
    _publish (fmt2 topic_parent name) (PValue value) true
  else pass.

(** [datetime.now()] is read by the caller and passed as [now]. *)
Definition _mqtt_on_connect (result_code : Z) (now : Z) : M unit :=
  if negb (result_code =? CONNACK_ACCEPTED) then
    log WARNING (msg_connack result_code)
  else
    modify_self (Translator.with_mqtt_last_connection (Some now)) ;;
    s ← get_self;
    (if negb (Translator._mqtt_was_connected s) then
       log DEBUG msg_connected ;;
       modify_self (Translator.with_mqtt_was_connected true)
     else
       try_except
         (match Translator._mqtt_last_connection s,
                Translator._mqtt_last_disconnection s with
          | Some connection, Some disconnection =>
              let outage := connection - disconnection in
              log WARNING (msg_reconnected_outage outage)
          | _, _ => raise TypeError
          end)
         (fun _ => log WARNING msg_reconnected)) ;;
    cfg ← translator_config;
    bu ← get_baseunit;
    _publish
      (fmt2 (TranslatorBaseUnitConfig.topic (TranslatorConfig.baseunit cfg))
         BaseUnit.PROP_IS_CONNECTED)
      (PBool (BaseUnit.is_connected bu)) true ;;
    for_ (Translator._subscribetopics s) (fun subscribetopic =>
      emit (Subscribe (SubscribeTopic.topic subscribetopic)
              (SubscribeTopic.qos subscribetopic))).

Definition _mqtt_on_disconnect (result_code : Z) (now : Z) : M unit :=
  if negb (result_code =? MQTT_ERR_SUCCESS) then
    log WARNING (msg_lost_connection result_code) ;;
    modify_self (Translator.with_mqtt_last_disconnection (Some now))
  else pass.

Definition _mqtt_on_message (message : MQTTMessage.t) : M unit :=
  modify_self (fun s =>
    Translator.with_pending_messages
      (Translator._pending_messages s ++ [Some message]) s).

Definition _baseunit_device_added (device : Device.t) : M unit :=
  cfg ← translator_config;
  match PyDict.get (TranslatorConfig.devices cfg) (Device.device_id device) with
  | None => log INFO (msg_ignoring_device device)
  | Some device_config =>
      if opt_str_truthy (TranslatorConfig.discovery_prefix cfg) then
        if str_truthy (TranslatorDeviceConfig.topic device_config)
        then publish_device_configs device device_config
        else pass
      else pass
  end.

Definition _baseunit_event (contact_id : ContactID.t) : M unit :=
  cfg ← translator_config;
  let B := TranslatorBaseUnitConfig.topic (TranslatorConfig.baseunit cfg) in
  (* [json.dumps(contact_id.as_dict())] comes first: [as_dict()] raises for
     an event code of no category, before anything is published *)
  match ContactID.event_category contact_id with
  | EventCategory.Raises => raise ValueError
  | _ =>
      let event_data := PJson (ContactID.as_dict contact_id) in
      _publish (B +:+ "/event") event_data false ;;
      (* [if contact_id.event_code:] an absent or zero code is false *)
      match ContactID.event_code contact_id with
      | Some code =>
          if negb (code =? 0) then
            match ContactID.event_qualifier contact_id with
            | EventQualifier.Event =>
                _publish (B +:+ "/event_code") (PContactIDEventCode code) false
            | EventQualifier.Restore =>
                _publish (B +:+ "/restore_code") (PContactIDEventCode code) false
            | EventQualifier.Other => pass
            end
          else pass
      | None => pass
      end ;;
      match ContactID.event_qualifier contact_id,
            ContactID.event_category contact_id with
      | EventQualifier.Event, EventCategory.Alarm =>
          set_ha_state STATE_TRIGGERED ;;
          _publish (fmt2 B TOPIC_STATE) (PStr STATE_TRIGGERED) true
      | _, _ => pass
      end
  end.

(** The loop of [_baseunit_properties_changed], carrying [has_connected]. *)
Fixpoint baseunit_changes_loop (changes : list PropertyChangedInfo.t)
    (has_connected : bool) : M bool :=
  match changes with
  | [] => mret has_connected
  | change :: changes' =>
      _publish_baseunit_property (PropertyChangedInfo.name change)
        (PropertyChangedInfo.new_value change) ;;
      baseunit_changes_loop changes'
        (if String.eqb (PropertyChangedInfo.name change) BaseUnit.PROP_IS_CONNECTED
            && truthy L (PropertyChangedInfo.new_value change)
         then true else has_connected)
  end.

Definition _baseunit_properties_changed (changes : list PropertyChangedInfo.t)
    : M unit :=
  has_connected ← baseunit_changes_loop changes false;
  if has_connected : bool then _publish_ha_config else pass.

Definition get_auto_reset_handle (device_id : Z) : M (option nat) :=
  s ← get_self; mret (Translator._auto_reset_handles s !! device_id).

Definition set_auto_reset_handle (device_id : Z) (handle : nat) : M unit :=
  modify_self (fun s =>
    Translator.with_auto_reset_handles
      (<[device_id := handle]> (Translator._auto_reset_handles s)) s).

(** [self._auto_reset_handles.pop(device_id)]. *)
Definition pop_auto_reset_handle (device_id : Z) : M unit :=
  s ← get_self;
  match Translator._auto_reset_handles s !! device_id with
  | Some _ =>
      modify_self
        (Translator.with_auto_reset_handles
           (delete device_id (Translator._auto_reset_handles s)))
  | None => raise KeyError
  end.

Definition _device_on_event (device : Device.t) (event_code : DeviceEventCode.t)
    : M unit :=
  cfg ← translator_config;
  match PyDict.get (TranslatorConfig.devices cfg) (Device.device_id device) with
  | Some device_config =>
      let topic := TranslatorDeviceConfig.topic device_config in
      if str_truthy topic then
        _publish (topic +:+ "/event_code") (PDeviceEventCode event_code) false ;;
        match event_code with
        | DeviceEventCode.BatteryLow | DeviceEventCode.PowerOnReset =>
            _publish (topic +:+ "/battery") (PDeviceEventCode event_code) true
        | _ => pass
        end ;;
        match event_code with
        | DeviceEventCode.Tamper => _publish (topic +:+ "/tamper") (PBool true) false
        | _ => pass
        end ;;
        match event_code with
        | DeviceEventCode.Trigger =>
            _publish topic (POnOff (OnOff.parse_value true)) true ;;
            handle ← get_auto_reset_handle (Device.device_id device);
            match handle with
            | Some h => handle_cancel h
            | None => pass
            end ;;
            handle ← call_later
                       (or_default
                          (TranslatorDeviceConfig.auto_reset_interval device_config)
                          AUTO_RESET_INTERVAL)
                       (Device.device_id device);
            set_auto_reset_handle (Device.device_id device) handle
        | _ => pass
        end
      else pass
  | None => pass
  end.

Definition _auto_reset (device_id : Z) : M unit :=
  cfg ← translator_config;
  match PyDict.get (TranslatorConfig.devices cfg) device_id with
  | Some device_config =>
      if str_truthy (TranslatorDeviceConfig.topic device_config)
      then _publish (TranslatorDeviceConfig.topic device_config)
             (POnOff (OnOff.parse_value false)) true
      else pass
  | None => pass
  end ;;
  pop_auto_reset_handle device_id.

Definition _device_on_properties_changed (device : Device.t)
    (changes : list PropertyChangedInfo.t) : M unit :=
  cfg ← translator_config;
  match PyDict.get (TranslatorConfig.devices cfg) (Device.device_id device) with
  | Some device_config =>
      if str_truthy (TranslatorDeviceConfig.topic device_config) then
        for_ changes (fun change =>
          _publish_device_property (TranslatorDeviceConfig.topic device_config)
            device (PropertyChangedInfo.name change)
            (PropertyChangedInfo.new_value change))
      else pass
  | None => pass
  end.

(** [None if not payload else payload.decode()]. *)
Definition decode_payload (payload : bytes) : result (option string) :=
  match payload with
  | [] => Ok None
  | _ =>
      match decode payload with
      | Some s => Ok (Some s)
      | None => Raise UnicodeDecodeError
      end
  end.

Definition payload_text (message : MQTTMessage.t) : M (option string) :=
  fun w => (decode_payload (MQTTMessage.payload message), w).

Definition create_task (c : command) : M unit := emit (CreateTask c).

Definition _on_message_baseunit (subscribetopic : SubscribeTopic.t)
    (message : MQTTMessage.t) : M unit :=
  match SubscribeTopic.args subscribetopic with
  | Some args =>
      if String.eqb args BaseUnit.PROP_OPERATION_MODE then
        name ← payload_text message;
        match Lifesospy.OperationMode_parse_name L name with
        | None => log WARNING (msg_cannot_set_operation_mode name)
        | Some operation_mode =>
            s ← get_self;
            (if OperationMode.eqb operation_mode OperationMode.Disarm
                && eq_state L (Translator._state s) BaseUnitState.Disarm
                && match Translator._ha_state s with
                   | Some h => String.eqb h STATE_TRIGGERED
                   | None => false
                   end
             then
               cfg ← translator_config;
               log DEBUG msg_resetting_triggered ;;
               set_ha_state STATE_DISARMED ;;
               _publish
                 (fmt2 (TranslatorBaseUnitConfig.topic (TranslatorConfig.baseunit cfg))
                    TOPIC_STATE)
                 (PStr STATE_DISARMED) true
             else pass) ;;
            create_task (async_set_operation_mode operation_mode)
        end
      else raise NotImplementedError
  | None => raise NotImplementedError
  end.

Definition _on_message_clear_status (subscribetopic : SubscribeTopic.t)
    (message : MQTTMessage.t) : M unit :=
  create_task async_clear_status.

Definition _on_message_set_datetime (subscribetopic : SubscribeTopic.t)
    (message : MQTTMessage.t) : M unit :=
  value ← payload_text message;
  match value with
  | Some text =>
      if str_truthy text then
        match Lifesospy.dateutil_parse L text with
        | Dateutil.Parsed d => create_task (async_set_datetime (Some d))
        | Dateutil.ParserError => raise ValueError
        | Dateutil.Overflow => raise OverflowError
        end
      else create_task (async_set_datetime None)
  | None => create_task (async_set_datetime None)
  end.

Definition _on_message (subscribetopic : SubscribeTopic.t)
    (message : MQTTMessage.t) : M unit :=
  payload ← payload_text message;
  if negb (opt_str_truthy payload) then pass
  else
    cfg ← translator_config;
    match payload, TranslatorConfig.birth_payload cfg with
    | Some p, Some b => if String.eqb p b then _publish_ha_config else pass
    | _, _ => pass
    end.

(** [topic.on_message(topic, message)]. *)
Definition call_handler (topic : SubscribeTopic.t) (message : MQTTMessage.t)
    : M unit :=
  match SubscribeTopic.on_message topic with
  | SubscribeTopic._on_message_clear_status => _on_message_clear_status topic message
  | SubscribeTopic._on_message_set_datetime => _on_message_set_datetime topic message
  | SubscribeTopic._on_message_baseunit => _on_message_baseunit topic message
  | SubscribeTopic._on_message => _on_message topic message
  end.

(** One turn of the loop of [async_loop] once a message was taken from the
    queue: the topic callback, any exception logged and swallowed.  For the
    [None] put on the queue at shutdown, [message.topic] raises in the lookup
    and again in the logging of that failure. *)
Definition async_loop_dispatch (message : option MQTTMessage.t) : M unit :=
  match message with
  | None => raise AttributeError
  | Some m =>
      try_except
        (s ← get_self;
         match _subscribetopics_lookup s (MQTTMessage.topic m) with
         | None => raise KeyError
         | Some topic => call_handler topic m
         end)
        (fun e => log ERROR (msg_exception_processing (MQTTMessage.topic m) e))
  end.

(** What [async_loop] does on leaving its loop. *)
Definition async_loop_exit : M unit :=
  _publish_baseunit_property BaseUnit.PROP_IS_CONNECTED (VBool false).

Definition async_start : M unit :=
  modify_self (Translator.with_shutdown false) ;;
  emit BaseUnitStart ;;
  modify_self (Translator.with_mqtt_was_connected false) ;;
  emit MqttConnectAsync ;;
  emit MqttLoopStart.

Definition async_stop : M unit :=
  emit BaseUnitStop ;;
  s ← get_self;
  for_ (map_to_list (Translator._auto_reset_handles s)) (fun item =>
    handle_cancel (snd item) ;;
    pop_auto_reset_handle (fst item)) ;;
  emit MqttLoopStop ;;
  emit MqttDisconnect.

Definition signal_shutdown : M unit :=
  modify_self (Translator.with_shutdown true) ;;
  modify_self (fun s =>
    Translator.with_pending_messages (Translator._pending_messages s ++ [None]) s).

(** ** The asyncio loop running timers *)

(** The loop runs the callback of a handle: it leaves the schedule, and
    unless it was cancelled [_auto_reset] is called with its argument. *)
Definition fire (handle : nat) : M unit := fun w =>
  let l := loop w in
  match Loop.handles l !! handle with
  | Some h =>
      let w' :=
        with_loop {| Loop.time := Loop.time l;
                     Loop.handles :=
                       alter TimerHandle.unschedule handle (Loop.handles l) |} w in
      if TimerHandle.live h then _auto_reset (TimerHandle.args h) w'
      else (Ok tt, w')
  | None => (Ok tt, w)
  end.

(** A handle is due at time [T] when it is live and its time has come. *)
Definition due (T : Z) (h : TimerHandle.t) : bool :=
  TimerHandle.live h && (TimerHandle.when h <=? T).

(** The handle the loop runs next on its way to time [T]: the handle due by
    [T] with the least due time (the earliest made among equals), with that
    time. *)
Fixpoint next_due_from (T : Z) (hs : list TimerHandle.t) (i : nat)
    (best : option (nat * Z)) : option (nat * Z) :=
  match hs with
  | [] => best
  | h :: hs' =>
      let best' :=
        if due T h then
          match best with
          | Some (_, when) =>
              if TimerHandle.when h <? when then Some (i, TimerHandle.when h)
              else best
          | None => Some (i, TimerHandle.when h)
          end
        else best in
      next_due_from T hs' (S i) best'
  end.

Definition next_due (T : Z) (l : Loop.t) : option (nat * Z) :=
  next_due_from T (Loop.handles l) O None.

(** The clock of the loop moves forward to [T]. *)
Definition set_time (T : Z) : M unit := fun w =>
  (Ok tt, with_loop {| Loop.time := Z.max (Loop.time (loop w)) T;
                       Loop.handles := Loop.handles (loop w) |} w).

(** Let time pass until [T]: every handle that falls due is run at its due
    time, in order; an exception of a callback is swallowed by the loop.
    Each turn takes one due handle out of the schedule and no callback makes
    a handle, so one unit of fuel per handle is enough. *)
Fixpoint run_until_fuel (fuel : nat) (T : Z) : M unit :=
  match fuel with
  | O => set_time T
  | S fuel' => fun w =>
      match next_due T (loop w) with
      | Some (handle, when) =>
          (set_time when ;;
           try_except (fire handle) (fun _ => pass) ;;
           run_until_fuel fuel' T) w
      | None => set_time T w
      end
  end.

Definition run_until (T : Z) : M unit := fun w =>
  run_until_fuel (length (Loop.handles (loop w))) T w.

(** ** The translator as a reactive system *)

(** What can happen to a running translator. *)
Inductive input :=
| InConnect (result_code now : Z)
| InDisconnect (result_code now : Z)
| InMessage (message : MQTTMessage.t)
| InDeliver
| InAdapter (bu : BaseUnit.t)
| InDeviceAdded (device : Device.t)
| InBaseUnitEvent (contact_id : ContactID.t)
| InBaseUnitPropertiesChanged (changes : list PropertyChangedInfo.t)
| InDeviceEvent (device : Device.t) (event_code : DeviceEventCode.t)
| InDevicePropertiesChanged (device : Device.t) (changes : list PropertyChangedInfo.t)
| InTimer (handle : nat)
| InTime (T : Z)
| InStart
| InStop
| InSignal.

Definition set_baseunit (bu : BaseUnit.t) : M unit := fun w =>
  (Ok tt, {| self := self w; baseunit := bu; loop := loop w; out := out w |}).

(** The router takes the message at the head of the queue. *)
Definition deliver : M unit :=
  s ← get_self;
  match Translator._pending_messages s with
  | [] => pass
  | message :: rest =>
      modify_self (Translator.with_pending_messages rest) ;;
      async_loop_dispatch message
  end.

(** A timer callback runs only once its handle is due. *)
Definition timer (handle : nat) : M unit := fun w =>
  match Loop.handles (loop w) !! handle with
  | Some h => if due (Loop.time (loop w)) h then fire handle w else (Ok tt, w)
  | None => (Ok tt, w)
  end.

Definition react (i : input) : M unit :=
  match i with
  | InConnect result_code now => _mqtt_on_connect result_code now
  | InDisconnect result_code now => _mqtt_on_disconnect result_code now
  | InMessage message => _mqtt_on_message message
  | InDeliver => deliver
  | InAdapter bu => set_baseunit bu
  | InDeviceAdded device => _baseunit_device_added device
  | InBaseUnitEvent contact_id => _baseunit_event contact_id
  | InBaseUnitPropertiesChanged changes => _baseunit_properties_changed changes
  | InDeviceEvent device event_code => _device_on_event device event_code
  | InDevicePropertiesChanged device changes =>
      _device_on_properties_changed device changes
  | InTimer handle => timer handle
  | InTime T => set_time T
  | InStart => async_start
  | InStop => async_stop
  | InSignal => signal_shutdown
  end.

(** A callback that raises leaves the world as it was when it raised. *)
Definition step (w : World) (i : input) : World := run (react i) w.

Definition steps (w : World) (inputs : list input) : World :=
  fold_left step inputs w.

Definition initial (config : Config.t) (bu : BaseUnit.t) : World :=
  {| self := __init__ config;
     baseunit := bu;
     loop := {| Loop.time := 0; Loop.handles := [] |};
     out := [] |}.

(** ** Observations on a trace *)

Definition is_publish_to (topic : string) (e : effect) : bool :=
  match e with
  | Publish t _ _ _ => String.eqb t topic
  | _ => false
  end.

Definition is_publish (e : effect) : bool :=
  match e with
  | Publish _ _ _ _ => true
  | _ => false
  end.

Definition is_create_task (e : effect) : bool :=
  match e with
  | CreateTask _ => true
  | _ => false
  end.

(** The publishes of a trace made to [topic], in order. *)
Definition publishes_to (topic : string) (trace : list effect) : list effect :=
  List.filter (is_publish_to topic) trace.

(** The invariant of the auto-reset table: its entries are exactly the live
    timer handles, each filed under the device it will reset. *)
Definition live_at (l : Loop.t) (handle : nat) (device_id : Z) : Prop :=
  exists h, Loop.handles l !! handle = Some h
            /\ TimerHandle.live h = true
            /\ TimerHandle.args h = device_id.

Definition auto_reset_inv (w : World) : Prop :=
  forall (handle : nat) (device_id : Z),
    Translator._auto_reset_handles (self w) !! device_id = Some handle
    <-> live_at (loop w) handle device_id.

End translator.

(** ** A concrete instance, to run the model on examples *)

Module Sample.

Definition lower_ascii (c : ascii) : ascii :=
  let n := N_of_ascii c in
  if (N.leb 65 n && N.leb n 90)%bool then ascii_of_N (n + 32) else c.

Fixpoint lower (s : string) : string :=
  match s with
  | EmptyString => EmptyString
  | String c s' => String (lower_ascii c) (lower s')
  end.

Definition parse_name (name : option string) : option OperationMode.t :=
  match name with
  | None => None
  | Some n =>
      let n := lower n in
      if String.eqb n "disarm" then Some OperationMode.Disarm
      else if String.eqb n "home" then Some OperationMode.Home
      else if String.eqb n "away" then Some OperationMode.Away
      else if String.eqb n "monitor" then Some (OperationMode.Other "Monitor")
      else None
  end.

Definition state_value (s : BaseUnitState.t) : Z :=
  match s with
  | BaseUnitState.Disarm => 0
  | BaseUnitState.Home => 1
  | BaseUnitState.Away => 2
  | BaseUnitState.Monitor => 8
  | BaseUnitState.AwayExitDelay => 16
  | BaseUnitState.AwayEntryDelay => 17
  end.

Definition lifesospy : Lifesospy.lib :=
  {| Lifesospy.BaseUnitState_value := state_value;
     Lifesospy.OperationMode_parse_name := parse_name;
     Lifesospy.DCFlags :=
       [("Repeater", 128); ("BaseUnit", 64); ("TwoWay", 32); ("Supervisory", 16);
        ("RFVoice", 8); ("Reserved_b2", 4); ("Reserved_b1", 2); ("Reserved_b0", 1)];
     Lifesospy.ESFlags :=
       [("Bypass", 32768); ("Delay", 16384); ("Hour24", 8192); ("HomeGuard", 4096);
        ("WarningBeepDelay", 2048); ("AlarmSiren", 1024); ("Bell", 512);
        ("Latchkey", 256)];
     Lifesospy.SwitchFlags := [("SW01", 1); ("SW02", 2); ("SW03", 4)];
     Lifesospy.SSFlags := [("ControlAlarm", 128); ("HighLowOperation", 64)];
     Lifesospy.OpenClosed_parse_value := fun v =>
       match v with
       | VBool true => Some OpenClosed.Closed
       | VBool false => Some OpenClosed.Open
       | _ => None
       end;
     Lifesospy.dateutil_parse := fun text =>
       if String.eqb text "2019-03-01 12:00:00" then Dateutil.Parsed 1551441600
       else if String.eqb text "99999999999999999999" then Dateutil.Overflow
       else Dateutil.ParserError;
     Lifesospy.str_OperationMode := fun m =>
       match m with
       | OperationMode.Disarm => "Disarm"
       | OperationMode.Home => "Home"
       | OperationMode.Away => "Away"
       | OperationMode.Other n => n
       end;
     Lifesospy.str_DeviceEventCode := fun c =>
       match c with
       | DeviceEventCode.BatteryLow => "BatteryLow"
       | DeviceEventCode.PowerOnReset => "PowerOnReset"
       | DeviceEventCode.Tamper => "Tamper"
       | DeviceEventCode.Trigger => "Trigger"
       | DeviceEventCode.Other _ => "Other"
       end;
     Lifesospy.str_DeviceType := fun t =>
       match t with
       | DeviceType.SmokeDetector => "SmokeDetector"
       | DeviceType.DoorMagnet => "DoorMagnet"
       | DeviceType.PIRSensor => "PIRSensor"
       | DeviceType.Other _ => "Other"
       end |}.

(** Device [012cba], a PIR sensor reset 180 seconds after a trigger. *)
Definition pir_id : Z := 0x012cba.

Definition pir : Device.t :=
  {| Device.device_id := pir_id; Device.type := DeviceType.PIRSensor;
     Device.is_special := false |}.

Definition pir_config : TranslatorDeviceConfig.t :=
  {| TranslatorDeviceConfig.topic := "home/lounge/motion";
     TranslatorDeviceConfig.auto_reset_interval := Some 180;
     TranslatorDeviceConfig.device_info := Some [("manufacturer", "LifeSOS")] |}.

(** Device [999999] is enrolled on the base unit but not configured. *)
Definition stranger : Device.t :=
  {| Device.device_id := 0x999999; Device.type := DeviceType.DoorMagnet;
     Device.is_special := false |}.

Definition config : Config.t :=
  {| Config.translator :=
       {| TranslatorConfig.birth_payload := Some "online";
          TranslatorConfig.birth_topic := Some "homeassistant/status";
          TranslatorConfig.discovery_prefix := Some "homeassistant";
          TranslatorConfig.baseunit :=
            {| TranslatorBaseUnitConfig.topic := "home/alarm";
               TranslatorBaseUnitConfig.device_info := Some [] |};
          TranslatorConfig.devices :=
            TranslatorConfig.make_devices [(pir_id, pir_config)] |} |}.

(** The same with an empty birth payload. *)
Definition config_empty_birth : Config.t :=
  {| Config.translator :=
       {| TranslatorConfig.birth_payload := Some "";
          TranslatorConfig.birth_topic := Some "homeassistant/status";
          TranslatorConfig.discovery_prefix := Some "homeassistant";
          TranslatorConfig.baseunit :=
            {| TranslatorBaseUnitConfig.topic := "home/alarm";
               TranslatorBaseUnitConfig.device_info := Some [] |};
          TranslatorConfig.devices :=
            TranslatorConfig.make_devices [(pir_id, pir_config)] |} |}.

Definition adapter : BaseUnit.t :=
  {| BaseUnit.is_connected := true;
     BaseUnit.devices := [(pir_id, pir); (Device.device_id stranger, stranger)] |}.

Definition world : World := initial config adapter.

Definition message (topic payload : string) : MQTTMessage.t :=
  {| MQTTMessage.topic := topic; MQTTMessage.payload := encode payload |}.

Definition operation_mode_set : SubscribeTopic.t :=
  SubscribeTopic.make "home/alarm/operation_mode/set"
    SubscribeTopic._on_message_baseunit (Some BaseUnit.PROP_OPERATION_MODE).

Definition birth : SubscribeTopic.t :=
  SubscribeTopic.make "homeassistant/status" SubscribeTopic._on_message None.

Definition state_change (s : BaseUnitState.t) : PropertyChangedInfo.t :=
  {| PropertyChangedInfo.name := BaseUnit.PROP_STATE;
     PropertyChangedInfo.new_value := VBaseUnitState s |}.

(** A panic alarm reported by the base unit. *)
Definition alarm : ContactID.t :=
  {| ContactID.event_code := Some 120;
     ContactID.event_qualifier := EventQualifier.Event;
     ContactID.event_category := EventCategory.Alarm;
     ContactID.as_dict := [("event_code", JStr "120")] |}.

(** The base unit is disarmed and an alarm has been reported. *)
Definition triggered_world : World :=
  steps lifesospy world
    [InBaseUnitPropertiesChanged [state_change BaseUnitState.Disarm];
     InBaseUnitEvent alarm].

(** The broker connection was made at time 5 and lost at time 10. *)
Definition disconnected_world : World :=
  steps lifesospy world [InConnect CONNACK_ACCEPTED 5; InDisconnect 1 10].

Definition world_empty_birth : World := initial config_empty_birth adapter.

(** A payload that is not UTF-8. *)
Definition garbled : MQTTMessage.t :=
  {| MQTTMessage.topic := "home/alarm/operation_mode/set";
     MQTTMessage.payload := [Byte.xff] |}.

End Sample.

(** ** Vocabulary of the properties *)

(** The base topic prefix [B] of a running translator. *)
Definition base_topic (w : World) : string :=
  TranslatorBaseUnitConfig.topic
    (TranslatorConfig.baseunit (Config.translator (Translator._config (self w)))).

(** The device configuration table of a running translator. *)
Definition device_configs (w : World) : PyDict.t Z TranslatorDeviceConfig.t :=
  TranslatorConfig.devices (Config.translator (Translator._config (self w))).


(** The flag-set properties of the specification and their enumerations. *)
Definition spec_flag_sets (L : Lifesospy.lib) : list (string * list (string * Z)) :=
  [("characteristics", Lifesospy.DCFlags L);
   ("enable_status", Lifesospy.ESFlags L);
   ("switches", Lifesospy.SwitchFlags L);
   ("special_status", Lifesospy.SSFlags L)].

(** The publish the specification asks for a flag: topic [D/<property>/<flag>],
    boolean payload [(v & b) != 0], retained. *)
Definition spec_flag_publish (D property : string) (v : Z) (flag : string * Z)
    : effect :=
  Publish (D +:+ "/" +:+ property +:+ "/" +:+ fst flag)
    (PBool (negb (Z.land v (snd flag) =? 0))) QOS_1 true.

(** The allow-list of base-unit properties published under their own name. *)
Definition spec_named_properties : list string :=
  ["is_connected"; "rom_version"; "exit_delay"; "entry_delay"; "operation_mode"].

(** A device is configured with a topic. *)
Definition configured (w : World) (device_id : Z) (dc : TranslatorDeviceConfig.t)
    : Prop :=
  PyDict.get (device_configs w) device_id = Some dc
  /\ str_truthy (TranslatorDeviceConfig.topic dc) = true.

(** Every entry of the auto-reset table belongs to a configured device. *)
Definition auto_reset_configured (w : World) : Prop :=
  forall (device_id : Z) (handle : nat),
    Translator._auto_reset_handles (self w) !! device_id = Some handle ->
    exists dc, configured w device_id dc.

(** The number of [Off] publishes to [topic] in a trace. *)
Definition count_off (topic : string) (trace : list effect) : nat :=
  length
    (List.filter
       (fun e =>
          match e with
          | Publish t (POnOff OnOff.Off) _ true => String.eqb t topic
          | _ => false
          end)
       trace).

(** [w'] has the timer handles, the auto-reset table and the configuration
    of [w]. *)
Definition same_timers (w w' : World) : Prop :=
  Loop.handles (loop w') = Loop.handles (loop w)
  /\ Translator._auto_reset_handles (self w') = Translator._auto_reset_handles (self w)
  /\ Translator._config (self w') = Translator._config (self w).

(** A method that leaves the timers alone, whatever its outcome. *)
Definition frame {A} (m : M A) : Prop := forall w, same_timers w (snd (m w)).

(** The invariant of a running translator. *)
Definition timers_ok (w : World) : Prop :=
  auto_reset_inv w /\ auto_reset_configured w.

(** No handle of the list is live. *)
Definition all_dead (hs : list TimerHandle.t) : Prop :=
  forall h t, hs !! h = Some t -> TimerHandle.live t = false.

(** The number of handles due by [T]. *)
Definition count_due (T : Z) (hs : list TimerHandle.t) : nat :=
  length (List.filter (due T) hs).

(** ** Vocabulary of the frame and history properties *)

(** A method that only makes calls on its collaborators, each of them
    satisfying [P]: whatever its outcome, the translator, the adapter and the
    timers are as before and the trace has grown at its end. *)
Definition emits_only {A} (P : effect -> Prop) (m : M A) : Prop :=
  forall w, exists delta,
    snd (m w) = with_out (out w ++ delta) w /\ Forall P delta.

Definition only_emits {A} (m : M A) : Prop := emits_only (fun _ => True) m.

(** A method that leaves an observation of the world as it was, whatever its
    outcome. *)
Definition keeps {X A} (proj : World -> X) (m : M A) : Prop :=
  forall w, proj (snd (m w)) = proj w.

(** The queue of messages waiting for the router. *)
Definition pending (w : World) : list (option MQTTMessage.t) :=
  Translator._pending_messages (self w).

(** What never changes once [__init__] has run. *)
Definition fixed_part (w : World) : Config.t * list SubscribeTopic.t :=
  (Translator._config (self w), Translator._subscribetopics (self w)).

(** The connection bookkeeping: the flag, the time of the last accepted
    connect and the time of the last unexpected disconnect. *)
Definition connection_log (w : World) : bool * option Z * option Z :=
  (Translator._mqtt_was_connected (self w),
   Translator._mqtt_last_connection (self w),
   Translator._mqtt_last_disconnection (self w)).

(** The bookkeeping as a function of what happened: an accepted connect sets
    the flag and its time, an unexpected disconnect sets its time, a start
    clears the flag. *)
Definition connection_event (log : bool * option Z * option Z) (i : input)
    : bool * option Z * option Z :=
  let '(was_connected, connection, disconnection) := log in
  match i with
  | InConnect result_code now =>
      if result_code =? CONNACK_ACCEPTED then (true, Some now, disconnection)
      else log
  | InDisconnect result_code now =>
      if result_code =? MQTT_ERR_SUCCESS then log
      else (was_connected, connection, Some now)
  | InStart => (false, connection, disconnection)
  | _ => log
  end.

(** The inputs that report on the base unit. *)
Definition is_properties_changed (i : input) : bool :=
  match i with
  | InBaseUnitPropertiesChanged _ => true
  | _ => false
  end.

Definition is_baseunit_event (i : input) : bool :=
  match i with
  | InBaseUnitEvent _ => true
  | _ => false
  end.

Definition is_deliver (i : input) : bool :=
  match i with
  | InDeliver => true
  | _ => false
  end.

Definition is_device_event (i : input) : bool :=
  match i with
  | InDeviceEvent _ _ => true
  | _ => false
  end.

(** The queue as a function of what happened: a message from the broker and
    the shutdown sentinel go to the back, a delivery takes the head. *)
Definition queue_event (q : list (option MQTTMessage.t)) (i : input)
    : list (option MQTTMessage.t) :=
  match i with
  | InMessage message => q ++ [Some message]
  | InSignal => q ++ [None]
  | InDeliver => tail q
  | _ => q
  end.

(** A method that never raises the exception [e]. *)
Definition never_raises {A} (e : exn) (m : M A) : Prop :=
  forall w, outcome m w <> Raise e.

(** The raw base-unit state and the hub state derived from it. *)
Definition raw_state (w : World) : pyval := Translator._state (self w).
Definition ha_state (w : World) : option string := Translator._ha_state (self w).

(** The three command entries [__init__] puts in the registry for the base
    topic [B], in its order. *)
Definition command_routes (B : string) : list SubscribeTopic.t :=
  [SubscribeTopic.make (fmt2 B TOPIC_CLEAR_STATUS)
     SubscribeTopic._on_message_clear_status None;
   SubscribeTopic.make (fmt3 B TOPIC_DATETIME TOPIC_SET)
     SubscribeTopic._on_message_set_datetime None;
   SubscribeTopic.make (fmt3 B BaseUnit.PROP_OPERATION_MODE TOPIC_SET)
     SubscribeTopic._on_message_baseunit (Some BaseUnit.PROP_OPERATION_MODE)].

(** The router's treatment of an exception of a handler. *)
Definition log_exception (topic : string) (e : exn) : effect :=
  Log ERROR (msg_exception_processing topic e).

(** A retained publish on the device topic [D], on [D/<name>] or on a topic
    [D/<name>/<x>]. *)
Definition device_publish (D name : string) (e : effect) : Prop :=
  exists topic payload,
    e = Publish topic payload QOS_1 true
    /\ (topic = D \/ topic = fmt2 D name \/ exists x, topic = fmt3 D name x).

(** What a discovery document says about its entity: its ids, the topic of
    its state, the device it belongs to and the topic of its availability. *)
Definition describes (doc : json) (unique_id state_topic : string)
    (device availability : jvalue) : Prop :=
  PyDict.sget doc UNIQUE_ID = Some (JStr unique_id)
  /\ PyDict.sget doc OBJECT_ID = Some (JStr unique_id)
  /\ PyDict.sget doc STATE_TOPIC = Some (JStr state_topic)
  /\ PyDict.sget doc DEVICE = Some device
  /\ PyDict.sget doc AVAILABILITY_TOPIC = Some availability
  /\ PyDict.sget doc PAYLOAD_AVAILABLE = Some (JStr "True")
  /\ PyDict.sget doc PAYLOAD_NOT_AVAILABLE = Some (JStr "False").

(** The devices discovery is published for: those of the configuration, in
    its order, that are enrolled on the base unit and have a topic. *)
Definition discovered (w : World) : list (Device.t * TranslatorDeviceConfig.t) :=
  omap
    (fun device_id =>
       match PyDict.get (device_configs w) device_id,
             PyDict.get (BaseUnit.devices (baseunit w)) device_id with
       | Some dc, Some device =>
           if str_truthy (TranslatorDeviceConfig.topic dc)
           then Some (device, dc) else None
       | _, _ => None
       end)
    (PyDict.keys (device_configs w)).

(** A change that reports the base unit as connected. *)
Definition reports_connected (L : Lifesospy.lib) (change : PropertyChangedInfo.t)
    : bool :=
  String.eqb (PropertyChangedInfo.name change) BaseUnit.PROP_IS_CONNECTED
  && truthy L (PropertyChangedInfo.new_value change).

(** The loop [l'] continues [l]: the clock has not gone back, every handle
    of [l] is still there under its number with its due time and argument,
    and a handle that is live now was live then. *)
Definition continues (l l' : Loop.t) : Prop :=
  Loop.time l <= Loop.time l'
  /\ forall h t,
       Loop.handles l !! h = Some t ->
       exists t',
         Loop.handles l' !! h = Some t'
         /\ TimerHandle.when t' = TimerHandle.when t
         /\ TimerHandle.args t' = TimerHandle.args t
         /\ (TimerHandle.live t' = true -> TimerHandle.live t = true).

(** A method under which the loop only continues. *)
Definition ages {A} (m : M A) : Prop :=
  forall w, continues (loop w) (loop (snd (m w))).

(** The number of handles made so far. *)
Definition handle_count (w : World) : nat := length (Loop.handles (loop w)).

(** A Trigger event of a device, the one input that makes a timer. *)
Definition is_trigger (i : input) : bool :=
  match i with
  | InDeviceEvent _ DeviceEventCode.Trigger => true
  | _ => false
  end.

(** ** [lifesospy_mqtt/config.py]: class [LifeSOSConfig] *)

(** [str(n)] of an [int]. *)
Definition str_int (z : Z) : string := NilZero.string_of_int (Z.to_int z).

(** [len(s)]: the number of code points of a string, which is held here in
    UTF-8: the bytes that do not continue a character. *)
Definition py_len (s : string) : nat :=
  length (List.filter (fun b => negb (is_cont b)) (list_byte_of_string s)).

Fixpoint repeat_char (fill : ascii) (n : nat) : string :=
  match n with
  | O => ""
  | S n' => String fill (repeat_char fill n')
  end.

(** [s.ljust(width, fill)]. *)
Definition ljust (s : string) (width : nat) (fill : ascii) : string :=
  s +:+ repeat_char fill (width - py_len s).

Module LifeSOSConfig.
Record t := {
  host : option string;
  port : Z;
  password : option string
}.

(** The password is shown as [None] when it is absent or empty, and as one
    star per character otherwise. *)
Definition __repr__ (c : t) : string :=
  "<LifeSOSConfig: host=" +:+ str_of_opt (host c)
  +:+ ", port=" +:+ str_int (port c)
  +:+ ", password="
  +:+ match password c with
      | Some p => if negb (str_truthy p) then "None" else ljust "" (py_len p) "*"
      | None => "None"
      end
  +:+ ">".
End LifeSOSConfig.

(** ** Proof tools *)

Ltac unfold_M :=
  unfold mbind, M_bind, mret, M_ret, translator_config, get_self, get_baseunit,
    modify_self, set_ha_state, _publish, log, create_task, emit, pass, raise,
    try_except, payload_text, with_out, with_self, with_loop, run, outcome in *.

(** Run a method symbolically: unfold the monad and flatten the trace. *)
Ltac exec := repeat (progress unfold_M); cbn; rewrite <- ?app_assoc; cbn.

(** * Properties *)

Section properties.

Variable L : Lifesospy.lib.

(** The helpers on known values of Python. *)
Example format_06x_device_id : format_06x 0x012cba = "012cba".
Proof. reflexivity. Qed.

Example format_06x_negative : format_06x (-1) = "-00001".
Proof. reflexivity. Qed.

Example format_06x_wide : format_06x 0x1234567 = "1234567".
Proof. reflexivity. Qed.

Example decode_ascii : decode (encode "online") = Some "online".
Proof. reflexivity. Qed.

Example decode_two_bytes : decode [Byte.xc3; Byte.xa9] = Some "é".
Proof. reflexivity. Qed.

Example decode_invalid_start : decode [Byte.xff] = None.
Proof. reflexivity. Qed.

Example decode_overlong : decode [Byte.xc0; Byte.x80] = None.
Proof. reflexivity. Qed.

Example decode_surrogate : decode [Byte.xed; Byte.xa0; Byte.x80] = None.
Proof. reflexivity. Qed.

Example decode_truncated : decode [Byte.xe2; Byte.x82] = None.
Proof. reflexivity. Qed.

Example or_default_zero : or_default (Some 0) AUTO_RESET_INTERVAL = 30.
Proof. reflexivity. Qed.

Example or_default_none : or_default None AUTO_RESET_INTERVAL = 30.
Proof. reflexivity. Qed.

Example or_default_given : or_default (Some 180) AUTO_RESET_INTERVAL = 180.
Proof. reflexivity. Qed.

Example make_devices_last_wins :
  PyDict.get
    (TranslatorConfig.make_devices
       [(1, Sample.pir_config);
        (2, Sample.pir_config);
        (1, {| TranslatorDeviceConfig.topic := "again";
               TranslatorDeviceConfig.auto_reset_interval := None;
               TranslatorDeviceConfig.device_info := None |})]) 1
  = Some {| TranslatorDeviceConfig.topic := "again";
            TranslatorDeviceConfig.auto_reset_interval := None;
            TranslatorDeviceConfig.device_info := None |}.
Proof. reflexivity. Qed.

Lemma append_empty (s : string) : s +:+ "" = s.
Proof.
  induction s as [|c s IH]; [reflexivity|].
  change (String c (s +:+ "") = String c s). by rewrite IH.
Qed.

(** A topic is never equal to one of its own sub-topics. *)
Lemma subtopic_neq (B x : string) : String.eqb B (fmt2 B x) = false.
Proof.
  apply String.eqb_neq. unfold fmt2. intros Heq.
  rewrite <- (append_empty B) in Heq at 1.
  apply String.app_inj in Heq. discriminate.
Qed.







Lemma sibling_topic_neq (B x y : string) :
  x <> y -> String.eqb (B +:+ x) (B +:+ y) = false.
Proof.
  intros Hne. apply String.eqb_neq. intros Heq.
  by apply String.app_inj in Heq.
Qed.

(** C2. A base-unit event of qualifier Event and category Alarm sets the
    derived hub state to triggered and publishes it retained on [B/ha_state],
    whatever the raw base-unit state is and with no state-change notification
    involved; the raw state is not touched. *)
Theorem alarm_event_forces_triggered (w : World) (contact_id : ContactID.t) :
  ContactID.event_qualifier contact_id = EventQualifier.Event ->
  ContactID.event_category contact_id = EventCategory.Alarm ->
  let w' := run (_baseunit_event contact_id) w in
  outcome (_baseunit_event contact_id) w = Ok tt
  /\ Translator._ha_state (self w') = Some "triggered"
  /\ Translator._state (self w') = Translator._state (self w)
  /\ exists before,
       out w' =
         out w ++ before ++
         [Publish (fmt2 (base_topic w) "ha_state") (PStr "triggered") QOS_1 true]
       /\ publishes_to (fmt2 (base_topic w) "ha_state") before = [].
Proof.
  intros Hq Hc w'. subst w'. unfold _baseunit_event.
  rewrite Hq, Hc.
  destruct (ContactID.event_code contact_id) as [code|];
    [destruct (negb (code =? 0))|]; exec; repeat split.
  1: exists [Publish (base_topic w +:+ "/event")
               (PJson (ContactID.as_dict contact_id)) QOS_1 false;
             Publish (base_topic w +:+ "/event_code")
               (PContactIDEventCode code) QOS_1 false].
  2, 3: exists [Publish (base_topic w +:+ "/event")
                  (PJson (ContactID.as_dict contact_id)) QOS_1 false].
  all: split; [reflexivity|]; unfold publishes_to, fmt2; cbn;
    by rewrite !sibling_topic_neq.
Qed.

Lemma OperationMode_eqb_Disarm (mode : OperationMode.t) :
  OperationMode.eqb mode OperationMode.Disarm = true <-> mode = OperationMode.Disarm.
Proof. destruct mode; cbn; split; intros; congruence. Qed.

(** C3. An operation-mode set message whose payload parses to a mode: when
    the mode is Disarm, the last raw state equals Disarm and the last derived
    state is triggered, the handler first sets the derived state to disarmed
    and publishes it retained on [B/ha_state], then schedules the command; in
    every other case it only schedules the command. *)
Theorem disarm_while_triggered_resets_ha_state
    (w : World) (subscribetopic : SubscribeTopic.t) (message : MQTTMessage.t)
    (name : option string) (mode : OperationMode.t) :
  SubscribeTopic.args subscribetopic = Some "operation_mode" ->
  decode_payload (MQTTMessage.payload message) = Ok name ->
  Lifesospy.OperationMode_parse_name L name = Some mode ->
  let w' := run (_on_message_baseunit L subscribetopic message) w in
  outcome (_on_message_baseunit L subscribetopic message) w = Ok tt
  /\ (mode = OperationMode.Disarm ->
      eq_state L (Translator._state (self w)) BaseUnitState.Disarm = true ->
      Translator._ha_state (self w) = Some "triggered" ->
      Translator._ha_state (self w') = Some "disarmed"
      /\ out w' =
           out w ++
           [Log DEBUG msg_resetting_triggered;
            Publish (fmt2 (base_topic w) "ha_state") (PStr "disarmed") QOS_1 true;
            CreateTask (async_set_operation_mode OperationMode.Disarm)])
  /\ (~ (mode = OperationMode.Disarm
         /\ eq_state L (Translator._state (self w)) BaseUnitState.Disarm = true
         /\ Translator._ha_state (self w) = Some "triggered") ->
      self w' = self w
      /\ out w' = out w ++ [CreateTask (async_set_operation_mode mode)]).
Proof.
  intros Hargs Hdec Hparse w'. subst w'.
  unfold _on_message_baseunit. rewrite Hargs.
  cbn [String.eqb Ascii.eqb Bool.eqb BaseUnit.PROP_OPERATION_MODE].
  exec. rewrite Hdec, Hparse.
  destruct (OperationMode.eqb mode OperationMode.Disarm) eqn:Hmode.
  - apply OperationMode_eqb_Disarm in Hmode. subst mode.
    destruct (eq_state L (Translator._state (self w)) BaseUnitState.Disarm)
      eqn:Hstate.
    + destruct (Translator._ha_state (self w)) as [h|] eqn:Hha.
      * destruct (String.eqb h STATE_TRIGGERED) eqn:Hh.
        -- apply String.eqb_eq in Hh. subst h. cbn.
           rewrite <- !app_assoc. cbn.
           split; [reflexivity|]. split.
           ++ intros _ _ _. split; reflexivity.
           ++ intros Hnot. exfalso. by apply Hnot.
        -- apply String.eqb_neq in Hh. cbn.
           split; [reflexivity|]. split.
           ++ intros _ _ [= ->]. done.
           ++ intros _. split; reflexivity.
      * cbn. split; [reflexivity|]. split.
        -- intros _ _ [=].
        -- intros _. split; reflexivity.
    + cbn. split; [reflexivity|]. split.
      * intros _ [=].
      * intros _. split; reflexivity.
  - cbn. split; [reflexivity|]. split.
    + intros ->. discriminate.
    + intros _. split; reflexivity.
Qed.

(** One flag enumeration: one publish per member, in the order of the
    enumeration. *)
Lemma publish_flags_map (D name : string) (value : pyval) (v : Z)
    (flags : list (string * Z)) (w : World) :
  py_int L value = Some v ->
  publish_flags L D name value flags w =
    (Ok tt, with_out (out w ++ map (spec_flag_publish D name v) flags) w).
Proof.
  intros Hv. unfold publish_flags. rewrite Hv. revert w.
  induction flags as [|flag flags IH]; intros w.
  - exec. rewrite app_nil_r. by destruct w.
  - cbn [for_ map]. unfold mbind, M_bind.
    unfold _publish, emit. rewrite IH.
    unfold with_out. cbn. rewrite <- app_assoc. reflexivity.
Qed.

(** A loop over a list in two parts: the second part runs where the first
    ended, unless the first raised. *)
Lemma for_app {A} (l1 l2 : list A) (body : A -> M unit) (w : World) :
  for_ (l1 ++ l2) body w =
    match for_ l1 body w with
    | (Ok _, w') => for_ l2 body w'
    | (Raise e, w') => (Raise e, w')
    end.
Proof.
  revert w. induction l1 as [|x l1 IH]; intros w; [done|].
  cbn [app for_]. unfold mbind, M_bind.
  destruct (body x w) as [[[]|e] w1]; [apply IH | done].
Qed.

(** The callback of a device configured with a topic publishes the changes
    of a report one after the other. *)
Lemma device_on_properties_changed_for (w : World) (device : Device.t)
    (dc : TranslatorDeviceConfig.t) (changes : list PropertyChangedInfo.t) :
  configured w (Device.device_id device) dc ->
  _device_on_properties_changed L device changes w =
    for_ changes
      (fun change =>
         _publish_device_property L (TranslatorDeviceConfig.topic dc) device
           (PropertyChangedInfo.name change)
           (PropertyChangedInfo.new_value change)) w.
Proof.
  intros [Hget Htopic].
  unfold _device_on_properties_changed. repeat (progress unfold_M).
  cbn -[_publish_device_property for_].
  fold (device_configs w). by rewrite Hget, Htopic.
Qed.

(** C5. A change of a flag-set property (characteristics, enable_status,
    switches, special_status) with bitmask [v] publishes, for the device topic
    [D], exactly one retained boolean sub-topic [D/<property>/<flag name>] per
    member of the corresponding flag enumeration, with value [(v & b) != 0]
    for the member of bit [b], and nothing else.  This holds for the change
    wherever it stands in a report of the device: the callback publishes the
    changes of a report one after the other, so after the changes before it
    have been published the flags of this change follow, and then the changes
    after it. *)
Theorem flag_set_one_topic_per_flag
    (property : string) (flags : list (string * Z)) (w : World) (D : string)
    (device : Device.t) (value : pyval) (v : Z) :
  In (property, flags) (spec_flag_sets L) ->
  py_int L value = Some v ->
  let delta := map (spec_flag_publish D property v) flags in
  length delta = length flags
  /\ outcome (_publish_device_property L D device property value) w = Ok tt
  /\ out (run (_publish_device_property L D device property value) w) = out w ++ delta
  /\ (forall dc : TranslatorDeviceConfig.t,
        configured w (Device.device_id device) dc ->
        TranslatorDeviceConfig.topic dc = D ->
        let change := {| PropertyChangedInfo.name := property;
                         PropertyChangedInfo.new_value := value |} in
        let publish_change (c : PropertyChangedInfo.t) :=
          _publish_device_property L D device (PropertyChangedInfo.name c)
            (PropertyChangedInfo.new_value c) in
        outcome (_device_on_properties_changed L device [change]) w = Ok tt
        /\ out (run (_device_on_properties_changed L device [change]) w)
           = out w ++ delta
        /\ (forall changes : list PropertyChangedInfo.t,
              _device_on_properties_changed L device changes w =
                for_ changes publish_change w)
        /\ (forall before after : list PropertyChangedInfo.t,
              let w1 := run (_device_on_properties_changed L device before) w in
              outcome (_device_on_properties_changed L device before) w = Ok tt ->
              _device_on_properties_changed L device (before ++ change :: after) w
                = for_ after publish_change (with_out (out w1 ++ delta) w1)
              /\ _device_on_properties_changed L device (before ++ [change]) w
                 = (Ok tt, with_out (out w1 ++ delta) w1))).
Proof.
  intros Hin Hv delta. subst delta.
  split; [apply length_map|].
  assert (Hfun : forall w0,
             _publish_device_property L D device property value w0 =
               (Ok tt, with_out
                         (out w0 ++ map (spec_flag_publish D property v) flags)
                         w0)).
  { intros w0. cbn in Hin.
    destruct Hin as [[= <- <-]|[[= <- <-]|[[= <- <-]|[[= <- <-]|[]]]]];
      unfold _publish_device_property;
      destruct (Device.is_special device); cbn;
      by rewrite (publish_flags_map _ _ _ v). }
  split; [unfold outcome; by rewrite Hfun|].
  split; [unfold run; by rewrite Hfun|].
  intros dc Hcfg HD change publish_change. unfold run, outcome.
  assert (Hfor : forall changes,
             _device_on_properties_changed L device changes w =
               for_ changes publish_change w).
  { intros changes.
    rewrite (device_on_properties_changed_for w device dc changes Hcfg).
    by rewrite HD. }
  assert (Hreport : forall before after,
             fst (_device_on_properties_changed L device before w) = Ok tt ->
             _device_on_properties_changed L device (before ++ change :: after) w
             = for_ after publish_change
                 (with_out
                    (out (snd (_device_on_properties_changed L device before w))
                     ++ map (spec_flag_publish D property v) flags)
                    (snd (_device_on_properties_changed L device before w)))).
  { intros before after. rewrite !Hfor, for_app.
    destruct (for_ before publish_change w) as [[[]|e] w1]; [|done].
    intros _. cbn [snd for_]. unfold mbind, M_bind.
    unfold publish_change at 1. cbn [PropertyChangedInfo.name
      PropertyChangedInfo.new_value change].
    by rewrite Hfun. }
  assert (Hone : _device_on_properties_changed L device [change] w =
                   (Ok tt,
                    with_out
                      (out w ++ map (spec_flag_publish D property v) flags) w)).
  { pose proof (Hreport [] []) as H. cbn [app] in H.
    rewrite H by (by rewrite Hfor). by rewrite Hfor. }
  split; [|split; [|split]].
  - by rewrite Hone.
  - by rewrite Hone.
  - exact Hfor.
  - intros before after Hbefore.
    split; [by apply Hreport|].
    by rewrite (Hreport before [] Hbefore).
Qed.

(** C6. For a device whose id has no entry in the device configuration
    table, a device event and a device property change leave the world
    untouched (no publish at all), and the addition of the device only logs
    that it is ignored: no publish, hence no discovery document. *)
Theorem unconfigured_device_is_ignored (w : World) (device : Device.t) :
  PyDict.get (device_configs w) (Device.device_id device) = None ->
  (forall event_code : DeviceEventCode.t,
      _device_on_event device event_code w = (Ok tt, w))
  /\ (forall changes : list PropertyChangedInfo.t,
      _device_on_properties_changed L device changes w = (Ok tt, w))
  /\ outcome (_baseunit_device_added L device) w = Ok tt
  /\ exists delta,
       out (run (_baseunit_device_added L device) w) = out w ++ delta
       /\ delta = [Log INFO (msg_ignoring_device device)]
       /\ List.filter is_publish delta = [].
Proof.
  intros Hget. unfold device_configs in Hget.
  split; [|split; [|split]].
  - intros event_code. unfold _device_on_event. exec. by rewrite Hget.
  - intros changes. unfold _device_on_properties_changed. exec. by rewrite Hget.
  - unfold _baseunit_device_added. exec. by rewrite Hget.
  - unfold _baseunit_device_added. exec. rewrite Hget. cbn. eauto.
Qed.

Lemma existsb_eqb_In (name : string) (l : list string) :
  existsb (String.eqb name) l = true <-> In name l.
Proof.
  rewrite existsb_exists. split.
  - intros (x & Hin & Heq). apply String.eqb_eq in Heq. by subst.
  - intros Hin. exists name. split; [done | apply String.eqb_refl].
Qed.

Lemma existsb_eqb_not_In (name : string) (l : list string) :
  ~ In name l -> existsb (String.eqb name) l = false.
Proof.
  intros Hnot. destruct (existsb (String.eqb name) l) eqn:E; [|done].
  by apply existsb_eqb_In in E.
Qed.

(** C7, as the code has it.  A base-unit property named is_connected,
    rom_version, exit_delay, entry_delay or operation_mode is published
    retained on [B/<name>]; the property [state] is published retained on the
    base topic [B] itself (followed at most by the derived state on
    [B/ha_state]) and nothing is published on [B/state]; any other property
    is not published. *)
Theorem baseunit_property_topics (w : World) (name : string) (value : pyval) :
  (In name spec_named_properties ->
   _publish_baseunit_property L name value w =
     (Ok tt,
      with_out
        (out w ++ [Publish (fmt2 (base_topic w) name) (PValue value) QOS_1 true])
        w))
  /\ (name = "state" ->
      outcome (_publish_baseunit_property L name value) w = Ok tt
      /\ exists rest,
           out (run (_publish_baseunit_property L name value) w) =
             out w ++ Publish (base_topic w) (PValue value) QOS_1 true :: rest
           /\ (rest = []
               \/ exists h, rest = [Publish (fmt2 (base_topic w) "ha_state")
                                      (PStr h) QOS_1 true])
           /\ publishes_to (fmt2 (base_topic w) "state")
                (Publish (base_topic w) (PValue value) QOS_1 true :: rest) = [])
  /\ (name <> "state" -> ~ In name spec_named_properties ->
      _publish_baseunit_property L name value w = (Ok tt, w)).
Proof.
  split; [|split].
  - intros Hin. cbn in Hin.
    destruct Hin as [<-|[<-|[<-|[<-|[<-|[]]]]]]; by exec.
  - intros ->. unfold _publish_baseunit_property.
    cbn [String.eqb Ascii.eqb Bool.eqb BaseUnit.PROP_STATE].
    assert (Hsib : forall h,
               publishes_to (fmt2 (base_topic w) "state")
                 [Publish (base_topic w) (PValue value) QOS_1 true;
                  Publish (fmt2 (base_topic w) "ha_state") (PStr h) QOS_1 true]
               = []).
    { intros h. unfold publishes_to. cbn. rewrite subtopic_neq.
      unfold fmt2. by rewrite sibling_topic_neq. }
    assert (Hone : publishes_to (fmt2 (base_topic w) "state")
                     [Publish (base_topic w) (PValue value) QOS_1 true] = []).
    { unfold publishes_to. cbn. by rewrite subtopic_neq. }
    destruct (in_states L value [BaseUnitState.Disarm; BaseUnitState.Monitor]);
      [|destruct (eq_state L value BaseUnitState.Home);
        [|destruct (eq_state L value BaseUnitState.Away);
          [|destruct (in_states L value
                        [BaseUnitState.AwayExitDelay; BaseUnitState.AwayEntryDelay])]]];
      exec; (split; [reflexivity|]); eexists; (split; [reflexivity|]);
      (split; [eauto|]); first [apply Hsib | apply Hone].
  - intros Hstate Hnot. unfold _publish_baseunit_property.
    apply String.eqb_neq in Hstate.
    change BaseUnit.PROP_STATE with "state". rewrite Hstate.
    change [BaseUnit.PROP_IS_CONNECTED; BaseUnit.PROP_ROM_VERSION;
            BaseUnit.PROP_EXIT_DELAY; BaseUnit.PROP_ENTRY_DELAY;
            BaseUnit.PROP_OPERATION_MODE] with spec_named_properties.
    rewrite (existsb_eqb_not_In _ _ Hnot). by exec.
Qed.

(** A loop that only emits: the trace grows by the image of the list. *)
Lemma for_emit {A} (f : A -> effect) (l : list A) (w : World) :
  for_ l (fun x w => (Ok tt, {| self := self w; baseunit := baseunit w;
                                loop := loop w; out := out w ++ [f x] |})) w =
    (Ok tt, {| self := self w; baseunit := baseunit w; loop := loop w;
               out := out w ++ map f l |}).
Proof.
  revert w. induction l as [|x l IH]; intros w.
  - exec. rewrite app_nil_r. by destruct w.
  - cbn [for_ map]. unfold mbind, M_bind. rewrite IH.
    cbn. by rewrite <- app_assoc.
Qed.

(** C8. On an accepted connect, first or not, the time is recorded, one line
    is logged, the connectivity flag is republished retained on
    [B/is_connected] with the adapter's current value, and every entry of the
    subscribe-topic registry is subscribed, in this order.  On a reconnect (a
    connect after an earlier accepted one) with a recorded disconnect, the
    logged outage is the reconnect time minus the disconnect time. *)
Theorem connect_resynchronises (w : World) (now : Z) :
  let w' := run (_mqtt_on_connect CONNACK_ACCEPTED now) w in
  let resync :=
    Publish (fmt2 (base_topic w) "is_connected")
      (PBool (BaseUnit.is_connected (baseunit w))) QOS_1 true
    :: map (fun st => Subscribe (SubscribeTopic.topic st) (SubscribeTopic.qos st))
         (Translator._subscribetopics (self w)) in
  outcome (_mqtt_on_connect CONNACK_ACCEPTED now) w = Ok tt
  /\ Translator._mqtt_last_connection (self w') = Some now
  /\ Translator._mqtt_was_connected (self w') = true
  /\ (exists lvl msg, out w' = out w ++ Log lvl msg :: resync)
  /\ (forall disconnect_time : Z,
        Translator._mqtt_was_connected (self w) = true ->
        Translator._mqtt_last_disconnection (self w) = Some disconnect_time ->
        out w' =
          out w ++
          Log WARNING (msg_reconnected_outage (now - disconnect_time)) :: resync).
Proof.
  intros w' resync. subst w' resync.
  unfold _mqtt_on_connect. cbn [CONNACK_ACCEPTED Z.eqb negb].
  repeat (progress unfold_M). cbn -[for_].
  destruct (Translator._mqtt_was_connected (self w)) eqn:Hwas; cbn -[for_].
  - destruct (Translator._mqtt_last_disconnection (self w)) as [d|] eqn:Hdis;
      cbn -[for_]; rewrite for_emit; cbn; rewrite <- !app_assoc; cbn.
    + repeat split; eauto. intros ? _ [= <-]. reflexivity.
    + repeat split; eauto. intros ? _ [=].
  - rewrite for_emit. cbn. rewrite <- !app_assoc. cbn.
    repeat split; eauto. intros ? [=].
Qed.

(** A non-empty payload that decodes gives a non-empty text. *)
Lemma decode_nonempty (payload : bytes) (text : string) :
  payload <> [] -> decode payload = Some text -> str_truthy text = true.
Proof.
  unfold decode. destruct payload as [|b payload]; [done|]. intros _.
  destruct (utf8_valid (b :: payload)); [|done].
  intros [= <-]. reflexivity.
Qed.

Lemma decode_payload_cases (payload : bytes) :
  (payload = [] /\ decode_payload payload = Ok None)
  \/ (payload <> [] /\ exists text, decode payload = Some text
                                  /\ decode_payload payload = Ok (Some text))
  \/ (payload <> [] /\ decode payload = None
      /\ decode_payload payload = Raise UnicodeDecodeError).
Proof.
  destruct payload as [|b payload]; [by left | right].
  unfold decode_payload. destruct (decode (b :: payload)) as [text|].
  - left. split; [done|]. by exists text.
  - right. by repeat split.
Qed.

(** C9, as the code has it.  An operation-mode set message whose payload is
    empty or is valid UTF-8, and whose text names no operation mode, makes the
    handler log a warning and return: no command is scheduled, nothing is
    raised.  A non-empty payload that is not valid UTF-8 makes the handler
    raise [UnicodeDecodeError] before any parsing, with no command scheduled;
    the router loop catches it and logs it. *)
Theorem unparseable_operation_mode_is_ignored
    (w : World) (subscribetopic : SubscribeTopic.t) (message : MQTTMessage.t) :
  SubscribeTopic.args subscribetopic = Some "operation_mode" ->
  (forall name : option string,
      decode_payload (MQTTMessage.payload message) = Ok name ->
      Lifesospy.OperationMode_parse_name L name = None ->
      _on_message_baseunit L subscribetopic message w =
        (Ok tt,
         with_out (out w ++ [Log WARNING (msg_cannot_set_operation_mode name)]) w))
  /\ (MQTTMessage.payload message <> [] ->
      decode (MQTTMessage.payload message) = None ->
      _on_message_baseunit L subscribetopic message w = (Raise UnicodeDecodeError, w)
      /\ (_subscribetopics_lookup (self w) (MQTTMessage.topic message)
            = Some subscribetopic ->
          SubscribeTopic.on_message subscribetopic
            = SubscribeTopic._on_message_baseunit ->
          async_loop_dispatch L (Some message) w =
            (Ok tt,
             with_out
               (out w ++
                [Log ERROR (msg_exception_processing (MQTTMessage.topic message)
                              UnicodeDecodeError)]) w))).
Proof.
  intros Hargs.
  assert (Hraise : MQTTMessage.payload message <> [] ->
                   decode (MQTTMessage.payload message) = None ->
                   _on_message_baseunit L subscribetopic message w =
                     (Raise UnicodeDecodeError, w)).
  { intros Hne Hdec. unfold _on_message_baseunit. rewrite Hargs.
    cbn [String.eqb Ascii.eqb Bool.eqb BaseUnit.PROP_OPERATION_MODE].
    exec. unfold decode_payload. rewrite Hdec.
    by destruct (MQTTMessage.payload message). }
  split.
  - intros name Hdec Hparse. unfold _on_message_baseunit. rewrite Hargs.
    cbn [String.eqb Ascii.eqb Bool.eqb BaseUnit.PROP_OPERATION_MODE].
    exec. by rewrite Hdec, Hparse.
  - intros Hne Hdec. split; [by apply Hraise|].
    intros Hlookup Hhandler. unfold async_loop_dispatch, call_handler.
    repeat (progress unfold_M). cbn -[_on_message_baseunit].
    rewrite Hlookup, Hhandler. by rewrite (Hraise Hne Hdec).
Qed.

(** C10. A message on the birth topic with an empty payload makes the birth
    handler return with the world untouched, whatever the configured birth
    payload is, the empty one included.  The handler changes the trace only
    for a non-empty payload whose text equals the configured birth payload,
    and then it does what the discovery republish does. *)
Theorem birth_needs_nonempty_matching_payload
    (w : World) (subscribetopic : SubscribeTopic.t) (message : MQTTMessage.t) :
  let birth_payload :=
    TranslatorConfig.birth_payload (Config.translator (Translator._config (self w))) in
  (MQTTMessage.payload message = [] ->
   _on_message L subscribetopic message w = (Ok tt, w))
  /\ (out (run (_on_message L subscribetopic message) w) <> out w ->
      MQTTMessage.payload message <> []
      /\ exists text, decode (MQTTMessage.payload message) = Some text
                      /\ birth_payload = Some text)
  /\ (forall text : string,
        MQTTMessage.payload message <> [] ->
        decode (MQTTMessage.payload message) = Some text ->
        birth_payload = Some text ->
        _on_message L subscribetopic message w = _publish_ha_config L w).
Proof.
  intros birth_payload. subst birth_payload.
  unfold _on_message. repeat (progress unfold_M). cbn -[_publish_ha_config].
  destruct (decode_payload_cases (MQTTMessage.payload message))
    as [[Hnil Hdp]|[(Hne & text & Hdec & Hdp)|(Hne & Hdec & Hdp)]];
    rewrite Hdp; cbn -[_publish_ha_config].
  - split; [done|]. split; [done|].
    intros t Hne. by rewrite Hnil in Hne.
  - rewrite (decode_nonempty _ _ Hne Hdec). cbn -[_publish_ha_config].
    destruct (TranslatorConfig.birth_payload
                (Config.translator (Translator._config (self w)))) as [b|] eqn:Hb.
    + destruct (String.eqb text b) eqn:Heq.
      * apply String.eqb_eq in Heq. subst b.
        split; [intros Hnil; contradiction|]. split; [eauto|]. done.
      * apply String.eqb_neq in Heq.
        split; [intros Hnil; contradiction|]. split; [done|].
        intros t _. rewrite Hdec. intros [= <-] [= ->]. done.
    + split; [intros Hnil; contradiction|]. split; [done|]. intros t _ _ [=].
  - split; [intros Hnil; contradiction|]. split; [done|].
    intros t _. by rewrite Hdec.
Qed.

(** ** Methods that leave the timers alone *)

Lemma same_timers_refl (w : World) : same_timers w w.
Proof. by repeat split. Qed.

Lemma same_timers_trans (w1 w2 w3 : World) :
  same_timers w1 w2 -> same_timers w2 w3 -> same_timers w1 w3.
Proof.
  intros (H1 & H2 & H3) (H4 & H5 & H6). repeat split; congruence.
Qed.

Lemma frame_ret {A} (a : A) : frame (mret a : M A).
Proof. intros w. apply same_timers_refl. Qed.

Lemma frame_raise {A} (e : exn) : frame (raise e : M A).
Proof. intros w. apply same_timers_refl. Qed.

Lemma frame_bind {A B} (m : M A) (f : A -> M B) :
  frame m -> (forall a, frame (f a)) -> frame (m ≫= f).
Proof.
  intros Hm Hf w. unfold mbind, M_bind. specialize (Hm w).
  destruct (m w) as [[a|e] w1]; cbn in *; [|done].
  eapply same_timers_trans; [done | apply Hf].
Qed.

Lemma frame_try {A} (m : M A) (handler : exn -> M A) :
  frame m -> (forall e, frame (handler e)) -> frame (try_except m handler).
Proof.
  intros Hm Hh w. unfold try_except. specialize (Hm w).
  destruct (m w) as [[a|e] w1]; cbn in *; [done|].
  eapply same_timers_trans; [done | apply Hh].
Qed.

Lemma frame_emit (e : effect) : frame (emit e).
Proof. intros w. by repeat split. Qed.

Lemma frame_get_self : frame get_self.
Proof. intros w. apply same_timers_refl. Qed.

Lemma frame_get_baseunit : frame get_baseunit.
Proof. intros w. apply same_timers_refl. Qed.

Lemma frame_modify_self (f : Translator.t -> Translator.t) :
  (forall s, Translator._auto_reset_handles (f s) = Translator._auto_reset_handles s
             /\ Translator._config (f s) = Translator._config s) ->
  frame (modify_self f).
Proof. intros Hf w. destruct (Hf (self w)). by repeat split. Qed.

Lemma frame_for {A} (l : list A) (body : A -> M unit) :
  (forall x, frame (body x)) -> frame (for_ l body).
Proof.
  intros Hbody. induction l as [|x l IH]; cbn [for_].
  - apply frame_ret.
  - apply frame_bind; [apply Hbody | by intros _].
Qed.

Lemma frame_payload_text (message : MQTTMessage.t) : frame (payload_text message).
Proof. intros w. apply same_timers_refl. Qed.

Lemma frame_set_time (T : Z) : frame (set_time T).
Proof. intros w. by repeat split. Qed.

Lemma frame_set_baseunit (bu : BaseUnit.t) : frame (set_baseunit bu).
Proof. intros w. by repeat split. Qed.

(** Take a method apart down to the primitives above. *)
Ltac frame_step :=
  lazymatch goal with
  | |- frame (mbind _ _) => apply frame_bind; [|intros ?]
  | |- frame (mret _) => apply frame_ret
  | |- frame pass => apply frame_ret
  | |- frame (raise _) => apply frame_raise
  | |- frame (emit _) => apply frame_emit
  | |- frame (log _ _) => apply frame_emit
  | |- frame (create_task _) => apply frame_emit
  | |- frame (_publish _ _ _) => apply frame_emit
  | |- frame get_self => apply frame_get_self
  | |- frame get_baseunit => apply frame_get_baseunit
  | |- frame translator_config => unfold translator_config
  | |- frame (set_ha_state _) => unfold set_ha_state
  | |- frame (modify_self _) => apply frame_modify_self; intros ?; by split
  | |- frame (payload_text _) => apply frame_payload_text
  | |- frame (set_time _) => apply frame_set_time
  | |- frame (set_baseunit _) => apply frame_set_baseunit
  | |- frame (for_ _ _) => apply frame_for; intros ?
  | |- frame (try_except _ _) => apply frame_try; [|intros ?]
  | |- frame (match ?x with _ => _ end) => destruct x
  | |- frame (let _ := _ in _) => cbv zeta
  end.

Ltac frame_auto := repeat frame_step.

Lemma frame_publish_baseunit_property (name : string) (value : pyval) :
  frame (_publish_baseunit_property L name value).
Proof. unfold _publish_baseunit_property. frame_auto. Qed.

Lemma frame_publish_flags (D name : string) (value : pyval)
    (flags : list (string * Z)) :
  frame (publish_flags L D name value flags).
Proof. unfold publish_flags. frame_auto. Qed.

Lemma frame_publish_device_property (D : string) (device : Device.t)
    (name : string) (value : pyval) :
  frame (_publish_device_property L D device name value).
Proof.
  unfold _publish_device_property.
  repeat first [apply frame_publish_flags | frame_step].
Qed.

Lemma frame_add_device_identifiers (device_id : Z)
    (info : option (PyDict.t string string)) :
  frame (_add_device_identifiers device_id info).
Proof. unfold _add_device_identifiers. frame_auto. Qed.

Lemma frame_publish_device_configs (device : Device.t)
    (device_config : TranslatorDeviceConfig.t) :
  frame (publish_device_configs L device device_config).
Proof.
  unfold publish_device_configs, _publish_device_config,
    _publish_device_rssi_config, _publish_device_battery_config.
  repeat first [apply frame_add_device_identifiers | frame_step].
Qed.

Lemma frame_publish_ha_config_loop (keys : list Z) :
  frame (publish_ha_config_loop L keys).
Proof.
  induction keys as [|device_id keys IH]; cbn [publish_ha_config_loop].
  - apply frame_ret.
  - repeat first [apply IH | apply frame_publish_device_configs | frame_step].
Qed.

Lemma frame_publish_ha_config : frame (_publish_ha_config L).
Proof.
  unfold _publish_ha_config, _publish_baseunit_config.
  repeat first [apply frame_publish_ha_config_loop | frame_step].
Qed.

Lemma frame_baseunit_changes_loop (changes : list PropertyChangedInfo.t)
    (has_connected : bool) :
  frame (baseunit_changes_loop L changes has_connected).
Proof.
  revert has_connected.
  induction changes as [|change changes IH]; intros has_connected;
    cbn [baseunit_changes_loop].
  - apply frame_ret.
  - apply frame_bind; [apply frame_publish_baseunit_property | intros _; apply IH].
Qed.

Lemma frame_call_handler (topic : SubscribeTopic.t) (message : MQTTMessage.t) :
  frame (call_handler L topic message).
Proof.
  unfold call_handler, _on_message_clear_status, _on_message_set_datetime,
    _on_message_baseunit, _on_message.
  repeat first [apply frame_publish_ha_config | frame_step].
Qed.

Lemma frame_deliver : frame (deliver L).
Proof.
  unfold deliver, async_loop_dispatch.
  repeat first [apply frame_call_handler | frame_step].
Qed.

(** ** The invariant of the auto-reset table *)

Lemma timers_ok_same_timers (w w' : World) :
  same_timers w w' -> timers_ok w -> timers_ok w'.
Proof.
  intros (Hh & Ht & Hc) [Hinv Hcfg]. split.
  - intros handle device_id. unfold live_at. rewrite Ht, Hh. apply Hinv.
  - intros device_id handle. unfold configured, device_configs.
    rewrite Ht, Hc. apply Hcfg.
Qed.

Lemma timers_ok_frame {A} (m : M A) (w : World) :
  frame m -> timers_ok w -> timers_ok (run m w).
Proof. intros Hm. apply timers_ok_same_timers, Hm. Qed.

(** The table and the live handles determine each other. *)
Lemma live_unique (w : World) (h1 h2 : nat) (device_id : Z) :
  auto_reset_inv w ->
  live_at (loop w) h1 device_id -> live_at (loop w) h2 device_id -> h1 = h2.
Proof.
  intros Hinv H1 H2. apply Hinv in H1, H2. congruence.
Qed.

Lemma live_cancel (t : TimerHandle.t) : TimerHandle.live (TimerHandle.cancel t) = false.
Proof. unfold TimerHandle.live. cbn. apply andb_false_r. Qed.

Lemma live_unschedule (t : TimerHandle.t) :
  TimerHandle.live (TimerHandle.unschedule t) = false.
Proof. reflexivity. Qed.

(** Killing the handle of an entry and removing the entry. *)
Lemma timers_ok_disarm (w w' : World) (f : TimerHandle.t -> TimerHandle.t)
    (handle : nat) (device_id : Z) :
  timers_ok w ->
  (forall t, TimerHandle.live (f t) = false) ->
  Translator._auto_reset_handles (self w) !! device_id = Some handle ->
  Translator._config (self w') = Translator._config (self w) ->
  Translator._auto_reset_handles (self w') =
    delete device_id (Translator._auto_reset_handles (self w)) ->
  Loop.handles (loop w') = alter f handle (Loop.handles (loop w)) ->
  timers_ok w'.
Proof.
  intros [Hinv Hcfg] Hdead Hentry Hc Ht Hh. split.
  - intros h d. unfold live_at. rewrite Ht, Hh.
    destruct (decide (d = device_id)) as [->|Hd].
    + rewrite lookup_delete_eq. split; [done|].
      intros (t & Hlook & Hlive & Hargs).
      destruct (decide (h = handle)) as [->|Hne].
      * rewrite list_lookup_alter_eq in Hlook.
        destruct (Loop.handles (loop w) !! handle) as [t0|]; [|done].
        cbn in Hlook. injection Hlook as <-. by rewrite Hdead in Hlive.
      * rewrite list_lookup_alter_ne in Hlook by done.
        assert (Translator._auto_reset_handles (self w) !! device_id = Some h)
          by (apply Hinv; by exists t).
        congruence.
    + rewrite lookup_delete_ne by done. rewrite (Hinv h d). unfold live_at.
      destruct (decide (h = handle)) as [->|Hne].
      * split.
        -- intros (t & Hlook & Hlive & Hargs). exfalso. apply Hd.
           apply Hinv in Hentry as (t' & Hlook' & _ & Hargs'). congruence.
        -- intros (t & Hlook & Hlive & Hargs).
           rewrite list_lookup_alter_eq in Hlook.
           destruct (Loop.handles (loop w) !! handle) as [t0|]; [|done].
           cbn in Hlook. injection Hlook as <-. by rewrite Hdead in Hlive.
      * by rewrite list_lookup_alter_ne by done.
  - intros d h. unfold configured, device_configs. rewrite Ht, Hc.
    intros Hlook. apply lookup_delete_Some in Hlook as [_ Hlook].
    by apply (Hcfg d h).
Qed.

(** Touching a handle that is not live changes nothing. *)
Lemma timers_ok_dead (w w' : World) (f : TimerHandle.t -> TimerHandle.t)
    (handle : nat) :
  timers_ok w ->
  (forall t, TimerHandle.live (f t) = false) ->
  (forall t, Loop.handles (loop w) !! handle = Some t -> TimerHandle.live t = false) ->
  Translator._config (self w') = Translator._config (self w) ->
  Translator._auto_reset_handles (self w') = Translator._auto_reset_handles (self w) ->
  Loop.handles (loop w') = alter f handle (Loop.handles (loop w)) ->
  timers_ok w'.
Proof.
  intros [Hinv Hcfg] Hdead Hnot Hc Ht Hh. split.
  - intros h d. unfold live_at. rewrite Ht, Hh, (Hinv h d). unfold live_at.
    destruct (decide (h = handle)) as [->|Hne].
    + split.
      * intros (t & Hlook & Hlive & _). by rewrite (Hnot t Hlook) in Hlive.
      * intros (t & Hlook & Hlive & _).
        rewrite list_lookup_alter_eq in Hlook.
        destruct (Loop.handles (loop w) !! handle) as [t0|]; [|done].
        cbn in Hlook. injection Hlook as <-. by rewrite Hdead in Hlive.
    + by rewrite list_lookup_alter_ne by done.
  - intros d h. unfold configured, device_configs. rewrite Ht, Hc. apply Hcfg.
Qed.

(** Arming: the old handle of the device, if any, is cancelled, a new handle
    is made and recorded. *)
Lemma timers_ok_arm (w w' : World) (device_id : Z)
    (dc : TranslatorDeviceConfig.t) (when : Z) :
  timers_ok w ->
  configured w device_id dc ->
  Translator._config (self w') = Translator._config (self w) ->
  Translator._auto_reset_handles (self w') =
    <[device_id := length (Loop.handles (loop w))]>
      (Translator._auto_reset_handles (self w)) ->
  Loop.handles (loop w') =
    match Translator._auto_reset_handles (self w) !! device_id with
    | Some old => alter TimerHandle.cancel old (Loop.handles (loop w))
    | None => Loop.handles (loop w)
    end
    ++ [{| TimerHandle.when := when; TimerHandle.args := device_id;
           TimerHandle.cancelled := false; TimerHandle.scheduled := true |}] ->
  timers_ok w'.
Proof.
  intros [Hinv Hcfg] Hdc Hc Ht Hh.
  set (hs := Loop.handles (loop w)) in *.
  set (table := Translator._auto_reset_handles (self w)) in *.
  set (hs1 := match table !! device_id with
              | Some old => alter TimerHandle.cancel old hs
              | None => hs
              end) in *.
  assert (Hlen : length hs1 = length hs).
  { subst hs1. destruct (table !! device_id); [apply length_alter | done]. }
  (* what a live handle of the intermediate list was before *)
  assert (Hold : forall h t,
             hs1 !! h = Some t -> TimerHandle.live t = true ->
             hs !! h = Some t /\ table !! device_id <> Some h).
  { intros h t Hlook Hlive. subst hs1.
    destruct (table !! device_id) as [old|] eqn:Hentry; [|done].
    destruct (decide (h = old)) as [->|Hne].
    - rewrite list_lookup_alter_eq in Hlook.
      destruct (hs !! old) as [t0|]; [|done].
      cbn in Hlook. injection Hlook as <-. by rewrite live_cancel in Hlive.
    - rewrite list_lookup_alter_ne in Hlook by done. split; congruence. }
  assert (Hnew : forall h t,
             hs !! h = Some t -> table !! device_id <> Some h -> hs1 !! h = Some t).
  { intros h t Hlook Hne. subst hs1.
    destruct (table !! device_id) as [old|] eqn:Hentry; [|done].
    rewrite list_lookup_alter_ne; [done | congruence]. }
  split.
  - intros h d. unfold live_at. rewrite Ht, Hh.
    destruct (decide (d = device_id)) as [->|Hd].
    + rewrite lookup_insert_eq. split.
      * intros [= <-]. eexists.
        split; [rewrite lookup_app_r by lia; by rewrite Hlen, Nat.sub_diag
               | split; reflexivity].
      * intros (t & Hlook & Hlive & Hargs).
        destruct (decide (h < length hs)%nat) as [Hlt|Hge].
        -- rewrite lookup_app_l in Hlook by lia.
           destruct (Hold h t Hlook Hlive) as [Hlook' Hne].
           exfalso. apply Hne. apply Hinv. by exists t.
        -- destruct (decide (h = length hs)) as [->|Hne]; [done|].
           rewrite lookup_ge_None_2 in Hlook; [done|].
           rewrite length_app, Hlen. cbn. lia.
    + rewrite lookup_insert_ne by done. split.
      * intros Hentry. pose proof Hentry as Hentry'.
        apply Hinv in Hentry as (t & Hlook & Hlive & Hargs).
        exists t. split; [|done].
        rewrite lookup_app_l by (rewrite Hlen; by eapply lookup_lt_Some).
        apply Hnew; [done|]. intros Hid.
        apply Hinv in Hid as (t' & Hlook' & _ & Hargs'). congruence.
      * intros (t & Hlook & Hlive & Hargs). apply Hinv.
        destruct (decide (h < length hs)%nat) as [Hlt|Hge].
        -- rewrite lookup_app_l in Hlook by lia.
           destruct (Hold h t Hlook Hlive) as [Hlook' _]. by exists t.
        -- destruct (decide (h = length hs)) as [->|Hne].
           ++ rewrite lookup_app_r in Hlook by lia.
              rewrite Hlen, Nat.sub_diag in Hlook. simplify_eq/=.
           ++ rewrite lookup_ge_None_2 in Hlook; [done|].
              rewrite length_app, Hlen. cbn. lia.
  - intros d h. unfold configured, device_configs. rewrite Ht, Hc.
    destruct (decide (d = device_id)) as [->|Hd].
    + intros _. by exists dc.
    + rewrite lookup_insert_ne by done. apply Hcfg.
Qed.

Ltac unfold_timers :=
  unfold get_auto_reset_handle, set_auto_reset_handle, pop_auto_reset_handle,
    handle_cancel, call_later in *.

(** A Trigger event of a configured device: "On" is published retained on
    the device topic, the handle recorded for the device (if any) is
    cancelled, and a new handle, due after the interval, is made and
    recorded. *)
Lemma trigger_rearms (w : World) (device : Device.t)
    (dc : TranslatorDeviceConfig.t) :
  configured w (Device.device_id device) dc ->
  let id := Device.device_id device in
  let D := TranslatorDeviceConfig.topic dc in
  let table := Translator._auto_reset_handles (self w) in
  let hs := Loop.handles (loop w) in
  _device_on_event device DeviceEventCode.Trigger w =
    (Ok tt,
     {| self := Translator.with_auto_reset_handles
                  (<[id := length hs]> table) (self w);
        baseunit := baseunit w;
        loop :=
          {| Loop.time := Loop.time (loop w);
             Loop.handles :=
               match table !! id with
               | Some old => alter TimerHandle.cancel old hs
               | None => hs
               end
               ++ [{| TimerHandle.when :=
                        Loop.time (loop w)
                        + or_default (TranslatorDeviceConfig.auto_reset_interval dc)
                            AUTO_RESET_INTERVAL;
                      TimerHandle.args := id;
                      TimerHandle.cancelled := false;
                      TimerHandle.scheduled := true |}] |};
        out := out w ++
               [Publish (D +:+ "/event_code")
                  (PDeviceEventCode DeviceEventCode.Trigger) QOS_1 false;
                Publish D (POnOff OnOff.On) QOS_1 true] |}).
Proof.
  intros [Hget Htopic] id D table hs. subst id D table hs.
  unfold device_configs in Hget.
  unfold _device_on_event. unfold_timers. exec. rewrite Hget, Htopic. cbn.
  rewrite <- app_assoc. cbn.
  destruct (Translator._auto_reset_handles (self w) !! Device.device_id device);
    cbn; by rewrite ?length_alter.
Qed.

Lemma timers_ok_device_event (w : World) (device : Device.t)
    (event_code : DeviceEventCode.t) :
  timers_ok w -> timers_ok (run (_device_on_event device event_code) w).
Proof.
  intros Hok.
  destruct (PyDict.get (device_configs w) (Device.device_id device))
    as [dc|] eqn:Hget;
    [destruct (str_truthy (TranslatorDeviceConfig.topic dc)) eqn:Htopic|].
  - destruct event_code.
    5: { unfold _device_on_event. unfold device_configs in Hget.
         exec. rewrite Hget, Htopic. cbn.
         eapply timers_ok_same_timers; [|done]. by repeat split. }
    4: { unfold run.
         rewrite (trigger_rearms w device dc (conj Hget Htopic)). cbn [snd].
         by eapply timers_ok_arm. }
    all: unfold _device_on_event; unfold device_configs in Hget;
      exec; rewrite Hget, Htopic; cbn;
      (eapply timers_ok_same_timers; [|done]); by repeat split.
  - unfold _device_on_event. unfold device_configs in Hget.
    exec. rewrite Hget, Htopic. by destruct w.
  - unfold _device_on_event. unfold device_configs in Hget.
    exec. rewrite Hget. by destruct w.
Qed.

(** A live handle fires: "Off" is published retained on the topic of its
    device, the handle leaves the schedule and the entry of the device is
    removed from the table. *)
Lemma fire_resets (w : World) (handle : nat) (t : TimerHandle.t)
    (dc : TranslatorDeviceConfig.t) :
  Loop.handles (loop w) !! handle = Some t ->
  TimerHandle.live t = true ->
  Translator._auto_reset_handles (self w) !! TimerHandle.args t = Some handle ->
  configured w (TimerHandle.args t) dc ->
  fire handle w =
    (Ok tt,
     {| self := Translator.with_auto_reset_handles
                  (delete (TimerHandle.args t)
                     (Translator._auto_reset_handles (self w))) (self w);
        baseunit := baseunit w;
        loop := {| Loop.time := Loop.time (loop w);
                   Loop.handles :=
                     alter TimerHandle.unschedule handle (Loop.handles (loop w)) |};
        out := out w ++
               [Publish (TranslatorDeviceConfig.topic dc) (POnOff OnOff.Off)
                  QOS_1 true] |}).
Proof.
  intros Hlook Hlive Hentry [Hget Htopic]. unfold device_configs in Hget.
  unfold fire, _auto_reset. rewrite Hlook, Hlive. unfold_timers. exec.
  rewrite Hget, Htopic. cbn. by rewrite Hentry.
Qed.

Lemma timers_ok_fire (w : World) (handle : nat) :
  timers_ok w -> timers_ok (run (fire handle) w).
Proof.
  intros Hok.
  destruct (Loop.handles (loop w) !! handle) as [t|] eqn:Hlook.
  - destruct (TimerHandle.live t) eqn:Hlive.
    + assert (Hentry : Translator._auto_reset_handles (self w)
                         !! TimerHandle.args t = Some handle).
      { apply Hok. by exists t. }
      destruct (proj2 Hok _ _ Hentry) as [dc Hdc].
      unfold run. rewrite (fire_resets w handle t dc) by done. cbn [snd].
      by eapply (timers_ok_disarm w _ TimerHandle.unschedule handle
                   (TimerHandle.args t)).
    + unfold run, fire. rewrite Hlook, Hlive. cbn [snd].
      eapply (timers_ok_dead w _ TimerHandle.unschedule handle); try done.
      intros t' Ht'. congruence.
  - unfold run, fire. by rewrite Hlook.
Qed.

Lemma timers_ok_timer (w : World) (handle : nat) :
  timers_ok w -> timers_ok (run (timer handle) w).
Proof.
  intros Hok. unfold run, timer.
  destruct (Loop.handles (loop w) !! handle) as [t|]; [|done].
  destruct (due (Loop.time (loop w)) t); [|done].
  by apply timers_ok_fire.
Qed.

(** One turn of the loop of [async_stop]. *)
Lemma cancel_and_pop (w : World) (device_id : Z) (handle : nat) :
  Translator._auto_reset_handles (self w) !! device_id = Some handle ->
  (handle_cancel handle ;; pop_auto_reset_handle device_id) w =
    (Ok tt,
     {| self := Translator.with_auto_reset_handles
                  (delete device_id (Translator._auto_reset_handles (self w)))
                  (self w);
        baseunit := baseunit w;
        loop := {| Loop.time := Loop.time (loop w);
                   Loop.handles :=
                     alter TimerHandle.cancel handle (Loop.handles (loop w)) |};
        out := out w |}).
Proof. intros Hentry. unfold_timers. exec. by rewrite Hentry. Qed.

Lemma stop_loop (items : list (Z * nat)) (w : World) :
  timers_ok w ->
  NoDup items.*1 ->
  (forall k h, (k, h) ∈ items ->
               Translator._auto_reset_handles (self w) !! k = Some h) ->
  let r := for_ items (fun item =>
             handle_cancel (snd item) ;; pop_auto_reset_handle (fst item)) w in
  r.1 = Ok tt
  /\ timers_ok r.2
  /\ (forall k, Translator._auto_reset_handles (self r.2) !! k =
                if decide (k ∈ items.*1) then None
                else Translator._auto_reset_handles (self w) !! k)
  /\ out r.2 = out w
  /\ baseunit r.2 = baseunit w.
Proof.
  revert w. induction items as [|[k h] items IH]; intros w Hok Hnodup Hitems r;
    subst r.
  - cbn [for_]. unfold pass, mret, M_ret. cbn [fst snd].
    split; [done|]. split; [done|]. split; [|done].
    intros k. case_decide as Hin; [|done]. by apply elem_of_nil in Hin.
  - assert (Hhead : Translator._auto_reset_handles (self w) !! k = Some h).
    { apply Hitems, elem_of_cons. by left. }
    cbn [fmap list_fmap fst] in Hnodup. apply NoDup_cons in Hnodup as [Hk Hnodup].
    set (w' := ((handle_cancel h ;; pop_auto_reset_handle k) w).2).
    assert (Hstep : for_ ((k, h) :: items) (fun item =>
                      handle_cancel (snd item) ;; pop_auto_reset_handle (fst item)) w
                    = for_ items (fun item =>
                        handle_cancel (snd item) ;; pop_auto_reset_handle (fst item)) w').
    { subst w'. cbn [for_ fst snd]. unfold mbind at 1, M_bind at 1.
      by rewrite (cancel_and_pop w k h Hhead). }
    rewrite Hstep. clear Hstep.
    assert (Hw' : Translator._auto_reset_handles (self w')
                  = delete k (Translator._auto_reset_handles (self w))).
    { subst w'. by rewrite (cancel_and_pop w k h Hhead). }
    assert (Hok' : timers_ok w').
    { eapply (timers_ok_disarm w w' TimerHandle.cancel h k); try done;
        [apply live_cancel | subst w'; by rewrite (cancel_and_pop w k h Hhead)..]. }
    assert (Hitems' : forall k' h', (k', h') ∈ items ->
              Translator._auto_reset_handles (self w') !! k' = Some h').
    { intros k' h' Hin. rewrite Hw', lookup_delete_ne.
      - apply Hitems, elem_of_cons. by right.
      - intros ->. apply Hk. apply list_elem_of_fmap.
        exists (k', h'). split; [reflexivity | exact Hin]. }
    destruct (IH w' Hok' Hnodup Hitems') as (Hres & Hfin & Htable & Hout & Hbu).
    split; [done|]. split; [done|].
    assert (Hframe : out w' = out w /\ baseunit w' = baseunit w).
    { subst w'. by rewrite (cancel_and_pop w k h Hhead). }
    split; [|split; [rewrite Hout | rewrite Hbu]; apply Hframe].
    intros x. rewrite Htable, Hw'.
    change (((k, h) :: items).*1) with (k :: items.*1).
    destruct (decide (x = k)) as [->|Hx].
    + rewrite lookup_delete_eq.
      rewrite (decide_True (P := k ∈ k :: items.*1)) by (apply elem_of_cons; by left).
      by destruct (decide (k ∈ items.*1)).
    + rewrite lookup_delete_ne by done.
      destruct (decide (x ∈ items.*1)) as [Hin|Hin].
      * by rewrite decide_True by (apply elem_of_cons; by right).
      * rewrite decide_False; [done|].
        intros [?|?]%elem_of_cons; done.
Qed.

(** Shutdown: every entry of the table is cancelled and removed, so no
    handle stays live. *)
Lemma stop_cancels_all (w : World) :
  timers_ok w ->
  outcome async_stop w = Ok tt
  /\ Translator._auto_reset_handles (self (run async_stop w)) = ∅
  /\ (forall handle device_id,
        ~ live_at (loop (run async_stop w)) handle device_id)
  /\ timers_ok (run async_stop w)
  /\ out (run async_stop w) =
       out w ++ [BaseUnitStop; MqttLoopStop; MqttDisconnect].
Proof.
  intros Hok.
  set (w0 := with_out (out w ++ [BaseUnitStop]) w).
  assert (Hok0 : timers_ok w0).
  { eapply timers_ok_same_timers; [|done]. by repeat split. }
  pose proof (stop_loop (map_to_list (Translator._auto_reset_handles (self w)))
                w0 Hok0 (NoDup_fst_map_to_list _)) as Hloop.
  cbn zeta in Hloop.
  destruct Hloop as (Hres & Hfin & Htable & Hout & Hbu).
  { intros k h Hin. by apply elem_of_map_to_list in Hin. }
  assert (Hrun : async_stop w =
                 (Ok tt, with_out (out w ++ [BaseUnitStop; MqttLoopStop; MqttDisconnect])
                           (for_ (map_to_list (Translator._auto_reset_handles (self w)))
                              (fun item => handle_cancel (snd item) ;;
                                        pop_auto_reset_handle (fst item)) w0).2)).
  { unfold async_stop. unfold mbind at 1, M_bind at 1. unfold emit at 1.
    fold w0. cbn [fst snd]. unfold mbind at 1, M_bind at 1, get_self at 1.
    change (self w0) with (self w).
    unfold mbind at 1, M_bind at 1.
    destruct (for_ _ _ w0) as [[[]|e] w1] eqn:Hfor; cbn in Hres; [|done].
    cbn in Hout. exec. rewrite Hout. subst w0. cbn.
    by rewrite <- app_assoc. }
  unfold run, outcome. rewrite Hrun. cbn [fst snd].
  assert (Hempty : Translator._auto_reset_handles
                     (self (for_ (map_to_list (Translator._auto_reset_handles (self w)))
                              (fun item => handle_cancel (snd item) ;;
                                        pop_auto_reset_handle (fst item)) w0).2) = ∅).
  { apply map_empty. intros k. rewrite Htable.
    destruct (decide _) as [|Hnot]; [done|].
    destruct (Translator._auto_reset_handles (self w0) !! k) as [h|] eqn:Hk;
      [|done].
    exfalso. apply Hnot. apply list_elem_of_fmap. exists (k, h).
    split; [done|]. by apply elem_of_map_to_list. }
  assert (Hok1 : timers_ok
                   (with_out (out w ++ [BaseUnitStop; MqttLoopStop; MqttDisconnect])
                      (for_ (map_to_list (Translator._auto_reset_handles (self w)))
                         (fun item => handle_cancel (snd item) ;;
                                   pop_auto_reset_handle (fst item)) w0).2)).
  { eapply timers_ok_same_timers; [|exact Hfin]. by repeat split. }
  split; [done|]. split; [done|]. split; [|split; [done|done]].
  intros handle device_id Hlive.
  apply Hok1 in Hlive. cbn in Hlive. rewrite Hempty in Hlive. done.
Qed.

Lemma frame_mqtt_on_connect (result_code now : Z) :
  frame (_mqtt_on_connect result_code now).
Proof. unfold _mqtt_on_connect. frame_auto. Qed.

Lemma frame_mqtt_on_disconnect (result_code now : Z) :
  frame (_mqtt_on_disconnect result_code now).
Proof. unfold _mqtt_on_disconnect. frame_auto. Qed.

Lemma frame_mqtt_on_message (message : MQTTMessage.t) :
  frame (_mqtt_on_message message).
Proof. unfold _mqtt_on_message. frame_auto. Qed.

Lemma frame_baseunit_device_added (device : Device.t) :
  frame (_baseunit_device_added L device).
Proof.
  unfold _baseunit_device_added.
  repeat first [apply frame_publish_device_configs | frame_step].
Qed.

Lemma frame_baseunit_event (contact_id : ContactID.t) :
  frame (_baseunit_event contact_id).
Proof. unfold _baseunit_event. frame_auto. Qed.

Lemma frame_baseunit_properties_changed (changes : list PropertyChangedInfo.t) :
  frame (_baseunit_properties_changed L changes).
Proof.
  unfold _baseunit_properties_changed.
  repeat first [apply frame_baseunit_changes_loop | apply frame_publish_ha_config
               | frame_step].
Qed.

Lemma frame_device_on_properties_changed (device : Device.t)
    (changes : list PropertyChangedInfo.t) :
  frame (_device_on_properties_changed L device changes).
Proof.
  unfold _device_on_properties_changed.
  repeat first [apply frame_publish_device_property | frame_step].
Qed.

Lemma frame_async_start : frame async_start.
Proof. unfold async_start. frame_auto. Qed.

Lemma frame_signal_shutdown : frame signal_shutdown.
Proof. unfold signal_shutdown. frame_auto. Qed.

(** Establish: a new translator has no entry and no handle. *)
Lemma timers_ok_initial (config : Config.t) (bu : BaseUnit.t) :
  timers_ok (initial config bu).
Proof.
  split.
  - intros handle device_id. cbn. rewrite lookup_empty. split; [done|].
    by intros (h & Hlook & _).
  - intros device_id handle. cbn. by rewrite lookup_empty.
Qed.

(** Preserve: whatever happens next keeps the invariant. *)
Lemma timers_ok_step (w : World) (i : input) :
  timers_ok w -> timers_ok (step L w i).
Proof.
  intros Hok. unfold step. destruct i; cbn [react].
  - by apply timers_ok_frame; [apply frame_mqtt_on_connect|].
  - by apply timers_ok_frame; [apply frame_mqtt_on_disconnect|].
  - by apply timers_ok_frame; [apply frame_mqtt_on_message|].
  - by apply timers_ok_frame; [apply frame_deliver|].
  - by apply timers_ok_frame; [apply frame_set_baseunit|].
  - by apply timers_ok_frame; [apply frame_baseunit_device_added|].
  - by apply timers_ok_frame; [apply frame_baseunit_event|].
  - by apply timers_ok_frame; [apply frame_baseunit_properties_changed|].
  - by apply timers_ok_device_event.
  - by apply timers_ok_frame; [apply frame_device_on_properties_changed|].
  - by apply timers_ok_timer.
  - by apply timers_ok_frame; [apply frame_set_time|].
  - by apply timers_ok_frame; [apply frame_async_start|].
  - by apply stop_cancels_all.
  - by apply timers_ok_frame; [apply frame_signal_shutdown|].
Qed.

Lemma timers_ok_steps (w : World) (inputs : list input) :
  timers_ok w -> timers_ok (steps L w inputs).
Proof.
  revert w. induction inputs as [|i inputs IH]; intros w Hok; [done|].
  cbn. apply IH. by apply timers_ok_step.
Qed.

(** ** Running the loop *)

Lemma all_dead_cons (t : TimerHandle.t) (hs : list TimerHandle.t) :
  all_dead (t :: hs) -> TimerHandle.live t = false /\ all_dead hs.
Proof.
  intros Hdead. split.
  - by apply (Hdead O).
  - intros h t' Hlook. by apply (Hdead (S h)).
Qed.

Lemma next_due_from_dead (T : Z) (hs : list TimerHandle.t) (i : nat)
    (best : option (nat * Z)) :
  all_dead hs -> next_due_from T hs i best = best.
Proof.
  revert i. induction hs as [|t hs IH]; intros i Hdead; [done|].
  apply all_dead_cons in Hdead as [Ht Hdead].
  cbn [next_due_from]. unfold due. rewrite Ht. cbn. by apply IH.
Qed.

Lemma next_due_from_app (T : Z) (hs1 hs2 : list TimerHandle.t) (i : nat)
    (best : option (nat * Z)) :
  next_due_from T (hs1 ++ hs2) i best =
    next_due_from T hs2 (i + length hs1) (next_due_from T hs1 i best).
Proof.
  revert i best. induction hs1 as [|t hs1 IH]; intros i best.
  - cbn. by rewrite Nat.add_0_r.
  - cbn [app next_due_from length]. rewrite IH. f_equal. lia.
Qed.

(** With nothing due, letting time pass only moves the clock. *)
Lemma run_until_fuel_idle (fuel : nat) (T : Z) (w : World) :
  next_due T (loop w) = None -> run_until_fuel fuel T w = set_time T w.
Proof. intros Hnone. destruct fuel; [done|]. cbn. by rewrite Hnone. Qed.

Lemma run_until_idle (T : Z) (w : World) :
  next_due T (loop w) = None -> run_until T w = set_time T w.
Proof. apply run_until_fuel_idle. Qed.

Lemma all_dead_alter (f : TimerHandle.t -> TimerHandle.t) (n : nat)
    (hs : list TimerHandle.t) :
  (forall t, TimerHandle.live (f t) = false) ->
  (forall m t, m <> n -> hs !! m = Some t -> TimerHandle.live t = false) ->
  all_dead (alter f n hs).
Proof.
  intros Hf Hothers m t Hlook.
  destruct (decide (m = n)) as [->|Hne].
  - rewrite list_lookup_alter_eq in Hlook.
    destruct (hs !! n) as [t0|]; [|done].
    cbn in Hlook. injection Hlook as <-. apply Hf.
  - rewrite list_lookup_alter_ne in Hlook by done. by eapply Hothers.
Qed.

Lemma all_dead_app (hs1 hs2 : list TimerHandle.t) :
  all_dead (hs1 ++ hs2) -> all_dead hs1 /\ all_dead hs2.
Proof.
  intros Hdead. split.
  - intros m t Hlook. apply (Hdead m). by apply lookup_app_l_Some.
  - intros m t Hlook. apply (Hdead (length hs1 + m)%nat).
    by rewrite lookup_app_r, Nat.add_sub_swap, Nat.sub_diag by lia.
Qed.

(** The next handle to run when a single handle is live. *)
Lemma next_due_single (T : Z) (l : Loop.t) (n : nat) (t : TimerHandle.t) :
  Loop.handles l !! n = Some t ->
  TimerHandle.live t = true ->
  (forall m t', m <> n -> Loop.handles l !! m = Some t' -> TimerHandle.live t' = false) ->
  next_due T l = if TimerHandle.when t <=? T then Some (n, TimerHandle.when t) else None.
Proof.
  intros Hlook Hlive Hothers. unfold next_due.
  rewrite <- (take_drop_middle _ _ _ Hlook).
  assert (Hn : (n < length (Loop.handles l))%nat) by by eapply lookup_lt_Some.
  assert (Hpre : all_dead (take n (Loop.handles l))).
  { intros m t' Hm. apply lookup_take_Some in Hm as [Hm Hlt].
    apply (Hothers m); [lia | done]. }
  assert (Hpost : all_dead (drop (S n) (Loop.handles l))).
  { intros m t' Hm. rewrite lookup_drop in Hm.
    apply (Hothers (S n + m)%nat); [lia | done]. }
  rewrite next_due_from_app, (next_due_from_dead _ _ _ _ Hpre).
  cbn [next_due_from]. rewrite (next_due_from_dead _ _ _ _ Hpost).
  unfold due. rewrite Hlive. cbn.
  rewrite length_take, Nat.min_l by lia.
  by destruct (TimerHandle.when t <=? T).
Qed.

(** Letting time pass when a single handle is live: "Off" is published once
    the handle is due, and not before. *)
Lemma run_until_single (w : World) (n : nat) (t : TimerHandle.t)
    (dc : TranslatorDeviceConfig.t) (T : Z) :
  Loop.handles (loop w) !! n = Some t ->
  TimerHandle.live t = true ->
  (forall m t', m <> n -> Loop.handles (loop w) !! m = Some t' ->
                TimerHandle.live t' = false) ->
  Translator._auto_reset_handles (self w) !! TimerHandle.args t = Some n ->
  configured w (TimerHandle.args t) dc ->
  outcome (run_until T) w = Ok tt
  /\ out (run (run_until T) w) =
       out w ++
       (if T <? TimerHandle.when t then []
        else [Publish (TranslatorDeviceConfig.topic dc) (POnOff OnOff.Off)
                QOS_1 true])
  /\ (TimerHandle.when t <= T ->
      all_dead (Loop.handles (loop (run (run_until T) w)))
      /\ Translator._auto_reset_handles (self (run (run_until T) w)) =
           delete (TimerHandle.args t) (Translator._auto_reset_handles (self w))).
Proof.
  intros Hlook Hlive Hothers Hentry Hcfg.
  destruct (Z.leb_spec (TimerHandle.when t) T) as [Hdue|Hnot].
  - assert (Hrun : run_until T w =
        (Ok tt,
         {| self := Translator.with_auto_reset_handles
                      (delete (TimerHandle.args t)
                         (Translator._auto_reset_handles (self w))) (self w);
            baseunit := baseunit w;
            loop := {| Loop.time :=
                         Z.max (Z.max (Loop.time (loop w)) (TimerHandle.when t)) T;
                       Loop.handles :=
                         alter TimerHandle.unschedule n (Loop.handles (loop w)) |};
            out := out w ++
                   [Publish (TranslatorDeviceConfig.topic dc) (POnOff OnOff.Off)
                      QOS_1 true] |})).
    { unfold run_until.
      destruct (length (Loop.handles (loop w))) as [|fuel] eqn:Hlen.
      { apply lookup_lt_Some in Hlook. lia. }
      cbn [run_until_fuel].
      rewrite (next_due_single T (loop w) n t Hlook Hlive Hothers).
      rewrite (proj2 (Z.leb_le _ _)) by lia.
      unfold mbind, M_bind, try_except, set_time at 1. cbv beta iota.
      match goal with
      | |- context [fire n ?x] =>
          rewrite (fire_resets x n t dc Hlook Hlive Hentry Hcfg)
      end.
      rewrite run_until_fuel_idle.
      - reflexivity.
      - unfold next_due. rewrite next_due_from_dead; [done|].
        cbn. apply all_dead_alter; [apply live_unschedule | done]. }
    unfold run, outcome. rewrite Hrun. cbn [fst snd out loop self Loop.handles
      Translator._auto_reset_handles Translator.with_auto_reset_handles].
    rewrite (proj2 (Z.ltb_ge _ _)) by lia.
    split; [done|]. split; [done|]. intros _. split; [|done].
    apply all_dead_alter; [apply live_unschedule | done].
  - assert (Hrun : run_until T w = set_time T w).
    { apply run_until_idle.
      rewrite (next_due_single T (loop w) n t Hlook Hlive Hothers).
      by rewrite (proj2 (Z.leb_gt _ _)) by lia. }
    unfold run, outcome. rewrite Hrun. cbn.
    rewrite (proj2 (Z.ltb_lt _ _)) by lia.
    rewrite app_nil_r. split; [done|]. split; [done|]. lia.
Qed.

(** A Trigger event when every live handle belongs to the device: afterwards
    the new handle is the only live one. *)
Lemma trigger_single (w : World) (device : Device.t)
    (dc : TranslatorDeviceConfig.t) :
  timers_ok w ->
  configured w (Device.device_id device) dc ->
  (forall m t, Loop.handles (loop w) !! m = Some t -> TimerHandle.live t = true ->
               TimerHandle.args t = Device.device_id device) ->
  let w' := run (_device_on_event device DeviceEventCode.Trigger) w in
  let n := length (Loop.handles (loop w)) in
  let D := TranslatorDeviceConfig.topic dc in
  Loop.handles (loop w') !! n =
    Some {| TimerHandle.when :=
              Loop.time (loop w)
              + or_default (TranslatorDeviceConfig.auto_reset_interval dc)
                  AUTO_RESET_INTERVAL;
            TimerHandle.args := Device.device_id device;
            TimerHandle.cancelled := false; TimerHandle.scheduled := true |}
  /\ (forall m t', m <> n -> Loop.handles (loop w') !! m = Some t' ->
                   TimerHandle.live t' = false)
  /\ Translator._auto_reset_handles (self w') !! Device.device_id device = Some n
  /\ configured w' (Device.device_id device) dc
  /\ timers_ok w'
  /\ Loop.time (loop w') = Loop.time (loop w)
  /\ length (Loop.handles (loop w')) = S n
  /\ out w' =
       out w ++
       [Publish (D +:+ "/event_code") (PDeviceEventCode DeviceEventCode.Trigger)
          QOS_1 false;
        Publish D (POnOff OnOff.On) QOS_1 true].
Proof.
  intros Hok Hcfg Hmine w' n D.
  assert (Hok' : timers_ok w') by by apply timers_ok_device_event.
  subst w'. unfold run in *.
  rewrite (trigger_rearms w device dc Hcfg) in *. cbn [snd] in *.
  cbn [loop self out Loop.handles Loop.time Translator._auto_reset_handles
         Translator.with_auto_reset_handles].
  set (hs1 := match Translator._auto_reset_handles (self w)
                      !! Device.device_id device with
              | Some old => alter TimerHandle.cancel old (Loop.handles (loop w))
              | None => Loop.handles (loop w)
              end) in *.
  assert (Hlen : length hs1 = n).
  { subst hs1. by destruct (_ !! _); rewrite ?length_alter. }
  split; [by rewrite lookup_app_r, Hlen, Nat.sub_diag by lia|].
  split; [|split; [apply lookup_insert_eq|split; [exact Hcfg|split; [done|]]]].
  - intros m t' Hm Hlook.
    destruct (TimerHandle.live t') eqn:Hlive; [exfalso|done].
    assert (Hlt : (m < n)%nat).
    { apply lookup_lt_Some in Hlook. rewrite length_app, Hlen in Hlook.
      cbn in Hlook. lia. }
    rewrite lookup_app_l in Hlook by lia. subst hs1.
    destruct (Translator._auto_reset_handles (self w) !! Device.device_id device)
      as [old|] eqn:Hentry.
    + destruct (decide (m = old)) as [->|Hne].
      * rewrite list_lookup_alter_eq in Hlook.
        destruct (Loop.handles (loop w) !! old) as [t0|]; [|done].
        cbn in Hlook. injection Hlook as <-. by rewrite live_cancel in Hlive.
      * rewrite list_lookup_alter_ne in Hlook by done.
        assert (Translator._auto_reset_handles (self w)
                  !! Device.device_id device = Some m).
        { apply Hok. exists t'. eauto. }
        congruence.
    + assert (Translator._auto_reset_handles (self w)
                !! Device.device_id device = Some m).
      { apply Hok. exists t'. eauto. }
      congruence.
  - split; [done|]. split; [|done]. rewrite length_app, Hlen. cbn. lia.
Qed.

(** The scenario of the specification: a device is triggered, and triggered
    again before its interval has passed; whatever time [T] the loop then
    runs to, "Off" is published once [T] reaches the second trigger time plus
    the interval, and never twice. *)
Lemma double_trigger_one_off (w : World) (device : Device.t)
    (dc : TranslatorDeviceConfig.t) (t2 T : Z) :
  timers_ok w ->
  all_dead (Loop.handles (loop w)) ->
  configured w (Device.device_id device) dc ->
  let interval :=
    or_default (TranslatorDeviceConfig.auto_reset_interval dc) AUTO_RESET_INTERVAL in
  let D := TranslatorDeviceConfig.topic dc in
  Loop.time (loop w) <= t2 < Loop.time (loop w) + interval ->
  let w1 := run (_device_on_event device DeviceEventCode.Trigger) w in
  let w2 := run (run_until t2) w1 in
  let w3 := run (_device_on_event device DeviceEventCode.Trigger) w2 in
  let w4 := run (run_until T) w3 in
  let on := [Publish (D +:+ "/event_code")
               (PDeviceEventCode DeviceEventCode.Trigger) QOS_1 false;
             Publish D (POnOff OnOff.On) QOS_1 true] in
  out w3 = out w ++ on ++ on
  /\ out w4 =
       out w3 ++
       (if T <? t2 + interval then []
        else [Publish D (POnOff OnOff.Off) QOS_1 true]).
Proof.
  intros Hok Hdead Hcfg interval D Htime w1 w2 w3 w4 on.
  (* the first trigger *)
  destruct (trigger_single w device dc Hok Hcfg) as
    (Hh1 & Hothers1 & Hentry1 & Hcfg1 & Hok1 & Htime1 & Hlen1 & Hout1).
  { intros m t Hlook Hlive. by rewrite (Hdead m t Hlook) in Hlive. }
  fold w1 in Hh1, Hothers1, Hentry1, Hcfg1, Hok1, Htime1, Hlen1, Hout1.
  (* time passes to [t2]: nothing is due *)
  assert (Hw2 : run_until t2 w1 = set_time t2 w1).
  { apply run_until_idle.
    rewrite (next_due_single t2 (loop w1) _ _ Hh1 eq_refl Hothers1). cbn.
    fold interval. by rewrite (proj2 (Z.leb_gt _ _)) by lia. }
  assert (Hsame : same_timers w1 w2
                  /\ Loop.time (loop w2) = t2 /\ out w2 = out w1).
  { subst w2. unfold run. rewrite Hw2. cbn. rewrite Htime1.
    repeat split. lia. }
  destruct Hsame as ((Hhs2 & Htable2 & Hconfig2) & Htime2 & Hout2).
  (* the second trigger *)
  assert (Hok2 : timers_ok w2).
  { eapply timers_ok_same_timers; [|exact Hok1]. by repeat split. }
  assert (Hcfg2 : configured w2 (Device.device_id device) dc).
  { unfold configured, device_configs in *. by rewrite Hconfig2. }
  destruct (trigger_single w2 device dc Hok2 Hcfg2) as
    (Hh3 & Hothers3 & Hentry3 & Hcfg3 & Hok3 & Htime3 & Hlen3 & Hout3).
  { intros m t Hlook Hlive. rewrite Hhs2 in Hlook.
    destruct (decide (m = length (Loop.handles (loop w)))) as [->|Hne].
    - rewrite Hh1 in Hlook. by injection Hlook as <-.
    - by rewrite (Hothers1 m t Hne Hlook) in Hlive. }
  fold w3 in Hh3, Hothers3, Hentry3, Hcfg3, Hok3, Htime3, Hlen3, Hout3.
  split.
  { rewrite Hout3, Hout2, Hout1. by rewrite <- app_assoc. }
  (* the loop runs to [T] *)
  destruct (run_until_single w3 _ _ dc T Hh3 eq_refl Hothers3 Hentry3 Hcfg3)
    as (_ & Hout4 & _).
  fold w4 in Hout4. rewrite Hout4. cbn [TimerHandle.when].
  fold interval. by rewrite Htime2.
Qed.

(** ** The loop runs every handle that is due *)

Lemma count_due_unschedule (T : Z) (hs : list TimerHandle.t) (h : nat)
    (t : TimerHandle.t) :
  hs !! h = Some t -> due T t = true ->
  S (count_due T (alter TimerHandle.unschedule h hs)) = count_due T hs.
Proof.
  unfold count_due. revert h. induction hs as [|t0 hs IH]; intros h Hlook Hdue.
  - done.
  - destruct h as [|h]; cbn in Hlook.
    + injection Hlook as ->. cbn. by rewrite Hdue.
    + cbn. destruct (due T t0); cbn; by rewrite (IH h Hlook Hdue).
Qed.

Lemma count_due_zero (T : Z) (hs : list TimerHandle.t) :
  count_due T hs = O -> forall h t, hs !! h = Some t -> due T t = false.
Proof.
  unfold count_due. induction hs as [|t0 hs IH]; intros Hzero h t Hlook; [done|].
  cbn in Hzero. destruct (due T t0) eqn:Hdue; [done|].
  destruct h as [|h]; cbn in Hlook.
  - by injection Hlook as <-.
  - by apply (IH Hzero h).
Qed.

(** What [next_due_from] returns is due, and it returns something as soon as
    a handle is due. *)
Lemma next_due_from_spec (T : Z) (hs : list TimerHandle.t) (i : nat)
    (best : option (nat * Z)) :
  match next_due_from T hs i best with
  | Some (h, when) =>
      Some (h, when) = best
      \/ exists t, hs !! (h - i)%nat = Some t /\ (i <= h)%nat
                   /\ due T t = true /\ TimerHandle.when t = when
  | None => best = None /\ count_due T hs = O
  end.
Proof.
  revert i best. induction hs as [|t0 hs IH]; intros i best.
  - cbn. destruct best as [[h when]|]; auto.
  - cbn [next_due_from]. specialize (IH (S i)).
    destruct (due T t0) eqn:Hdue.
    + match goal with |- context [next_due_from T hs (S i) ?b] =>
        specialize (IH b); destruct (next_due_from T hs (S i) b) as [[h when]|]
      end.
      * destruct IH as [Hbest|(t & Hlook & Hle & Ht & Hwhen)].
        -- destruct best as [[h0 when0]|].
           ++ destruct (TimerHandle.when t0 <? when0).
              ** injection Hbest as -> ->. right. exists t0.
                 by rewrite Nat.sub_diag.
              ** by left.
           ++ injection Hbest as -> ->. right. exists t0.
              by rewrite Nat.sub_diag.
        -- right. exists t. replace (h - i)%nat with (S (h - S i)) by lia.
           repeat split; try done. lia.
      * destruct IH as [Hbest _]. destruct best as [[h0 when0]|].
        -- by destruct (TimerHandle.when t0 <? when0).
        -- done.
    + specialize (IH best).
      destruct (next_due_from T hs (S i) best) as [[h when]|].
      * destruct IH as [Hbest|(t & Hlook & Hle & Ht & Hwhen)]; [by left|].
        right. exists t. replace (h - i)%nat with (S (h - S i)) by lia.
        repeat split; try done. lia.
      * destruct IH as [-> Hzero]. split; [done|].
        unfold count_due in *. cbn. by rewrite Hdue.
Qed.

Lemma next_due_Some (T : Z) (l : Loop.t) (h : nat) (when : Z) :
  next_due T l = Some (h, when) ->
  exists t, Loop.handles l !! h = Some t /\ due T t = true
            /\ TimerHandle.when t = when.
Proof.
  unfold next_due. intros Hnext.
  pose proof (next_due_from_spec T (Loop.handles l) O None) as Hspec.
  rewrite Hnext in Hspec. destruct Hspec as [|(t & Hlook & _ & Hdue & Hwhen)];
    [done|].
  rewrite Nat.sub_0_r in Hlook. by exists t.
Qed.

Lemma next_due_None (T : Z) (l : Loop.t) :
  next_due T l = None -> count_due T (Loop.handles l) = O.
Proof.
  unfold next_due. intros Hnext.
  pose proof (next_due_from_spec T (Loop.handles l) O None) as Hspec.
  rewrite Hnext in Hspec. apply Hspec.
Qed.

(** [_auto_reset] makes and cancels no handle, whatever its outcome. *)
Lemma auto_reset_keeps_loop (device_id : Z) (w : World) :
  loop (run (_auto_reset device_id) w) = loop w.
Proof.
  unfold _auto_reset, pop_auto_reset_handle. exec.
  destruct (PyDict.get _ device_id) as [dc|];
    [destruct (str_truthy (TranslatorDeviceConfig.topic dc))|]; cbn;
    by destruct (Translator._auto_reset_handles (self w) !! device_id).
Qed.

Lemma fire_handles (handle : nat) (t : TimerHandle.t) (w : World) :
  Loop.handles (loop w) !! handle = Some t ->
  Loop.handles (loop (run (try_except (fire handle) (fun _ => pass)) w)) =
    alter TimerHandle.unschedule handle (Loop.handles (loop w)).
Proof.
  intros Hlook. unfold run, try_except, fire. rewrite Hlook.
  destruct (TimerHandle.live t).
  - match goal with |- context [_auto_reset ?d ?x] =>
      pose proof (auto_reset_keeps_loop d x) as Hloop;
      unfold run in Hloop; destruct (_auto_reset d x) as [[[]|e] w']
    end; cbn in *; by rewrite Hloop.
  - done.
Qed.

Lemma run_until_fuel_step (fuel : nat) (T : Z) (w : World) (handle : nat)
    (when : Z) :
  next_due T (loop w) = Some (handle, when) ->
  run_until_fuel (S fuel) T w =
    run_until_fuel fuel T
      (run (try_except (fire handle) (fun _ => pass)) (run (set_time when) w)).
Proof.
  intros Hnext. cbn [run_until_fuel]. rewrite Hnext.
  unfold mbind, M_bind, run, set_time at 1 2. cbv beta iota. cbn [snd].
  unfold try_except.
  by destruct (fire handle _) as [[[]|e] w'].
Qed.

(** The fuel of [run_until] is enough: when it returns, no handle is due. *)
Lemma run_until_fuel_complete (fuel : nat) (T : Z) (w : World) :
  (count_due T (Loop.handles (loop w)) <= fuel)%nat ->
  outcome (run_until_fuel fuel T) w = Ok tt
  /\ count_due T (Loop.handles (loop (run (run_until_fuel fuel T) w))) = O.
Proof.
  revert w. induction fuel as [|fuel IH]; intros w Hfuel.
  - unfold run, outcome. cbn [run_until_fuel]. unfold set_time.
    cbn [fst snd loop with_loop Loop.handles]. split; [done | lia].
  - destruct (next_due T (loop w)) as [[handle when]|] eqn:Hnext.
    + unfold run, outcome. rewrite (run_until_fuel_step fuel T w handle when Hnext).
      apply next_due_Some in Hnext as (t & Hlook & Hdue & Hwhen).
      apply IH.
      rewrite (fire_handles handle t (run (set_time when) w) Hlook). cbn.
      pose proof (count_due_unschedule T _ handle t Hlook Hdue). lia.
    + unfold run, outcome. cbn [run_until_fuel]. rewrite Hnext.
      apply next_due_None in Hnext. unfold set_time.
      cbn [fst snd loop with_loop Loop.handles]. by split.
Qed.

Lemma count_due_length (T : Z) (hs : list TimerHandle.t) :
  (count_due T hs <= length hs)%nat.
Proof. unfold count_due. apply List.filter_length_le. Qed.

Lemma run_until_complete (T : Z) (w : World) :
  outcome (run_until T) w = Ok tt
  /\ forall h t, Loop.handles (loop (run (run_until T) w)) !! h = Some t ->
                 due T t = false.
Proof.
  destruct (run_until_fuel_complete (length (Loop.handles (loop w))) T w
              (count_due_length _ _)) as [Hok Hzero].
  split; [done|]. by apply count_due_zero.
Qed.

(** A Trigger event of a configured device: the handle recorded for the
    device, if any, is no longer live afterwards; a new handle, due after the
    interval, is live and recorded. *)
Lemma trigger_cancels_then_arms (w : World) (device : Device.t)
    (dc : TranslatorDeviceConfig.t) :
  timers_ok w ->
  configured w (Device.device_id device) dc ->
  let w' := run (_device_on_event device DeviceEventCode.Trigger) w in
  let n := length (Loop.handles (loop w)) in
  (forall old d,
      Translator._auto_reset_handles (self w) !! Device.device_id device = Some old ->
      ~ live_at (loop w') old d)
  /\ Translator._auto_reset_handles (self w') !! Device.device_id device = Some n
  /\ live_at (loop w') n (Device.device_id device)
  /\ (exists t, Loop.handles (loop w') !! n = Some t
                /\ TimerHandle.when t =
                     Loop.time (loop w)
                     + or_default (TranslatorDeviceConfig.auto_reset_interval dc)
                         AUTO_RESET_INTERVAL)
  /\ timers_ok w'.
Proof.
  intros Hok Hcfg w' n.
  assert (Hok' : timers_ok w') by by apply timers_ok_device_event.
  assert (Hentry' : Translator._auto_reset_handles (self w')
                      !! Device.device_id device = Some n).
  { subst w'. unfold run. rewrite (trigger_rearms w device dc Hcfg).
    apply lookup_insert_eq. }
  assert (Hother : forall d, d <> Device.device_id device ->
            Translator._auto_reset_handles (self w') !! d
            = Translator._auto_reset_handles (self w) !! d).
  { intros d Hd. subst w'. unfold run. rewrite (trigger_rearms w device dc Hcfg).
    cbn. by rewrite lookup_insert_ne. }
  split; [|split; [done|split; [by apply (proj1 Hok')|split; [|done]]]].
  - intros old d Hold Hlive.
    pose proof Hold as Hold'.
    apply (proj1 Hok) in Hold' as (t & Hlook & _ & Hargs).
    apply (proj1 Hok') in Hlive.
    destruct (decide (d = Device.device_id device)) as [->|Hd].
    + rewrite Hentry' in Hlive. injection Hlive as <-.
      apply lookup_lt_Some in Hlook. subst n. lia.
    + rewrite (Hother d Hd) in Hlive.
      apply (proj1 Hok) in Hlive as (t' & Hlook' & _ & Hargs'). congruence.
  - apply (proj1 Hok') in Hentry' as (t & Hlook & _). exists t. split; [done|].
    subst w'. unfold run in Hlook.
    rewrite (trigger_rearms w device dc Hcfg) in Hlook. cbn in Hlook.
    match type of Hlook with (?hs1 ++ _) !! _ = _ =>
      assert (Hlen : length hs1 = n)
        by (subst n;
            destruct (Translator._auto_reset_handles (self w)
                        !! Device.device_id device);
            [apply length_alter | reflexivity])
    end.
    rewrite lookup_app_r, Hlen, Nat.sub_diag in Hlook by lia.
    by injection Hlook as <-.
Qed.

(** A live handle fires: "Off" is published retained on the topic of its
    device and the entry of the device is removed. *)
Lemma fire_publishes_off (w : World) (handle : nat) (device_id : Z) :
  timers_ok w ->
  live_at (loop w) handle device_id ->
  exists dc,
    configured w device_id dc
    /\ outcome (fire handle) w = Ok tt
    /\ out (run (fire handle) w) =
         out w ++
         [Publish (TranslatorDeviceConfig.topic dc) (POnOff OnOff.Off) QOS_1 true]
    /\ Translator._auto_reset_handles (self (run (fire handle) w)) !! device_id = None
    /\ ~ live_at (loop (run (fire handle) w)) handle device_id
    /\ timers_ok (run (fire handle) w).
Proof.
  intros Hok Hlive.
  assert (Hok' : timers_ok (run (fire handle) w)) by by apply timers_ok_fire.
  pose proof Hlive as (t & Hlook & Ht & <-).
  assert (Hentry : Translator._auto_reset_handles (self w)
                     !! TimerHandle.args t = Some handle) by by apply (proj1 Hok).
  destruct (proj2 Hok _ _ Hentry) as [dc Hdc]. exists dc.
  assert (Hnone : Translator._auto_reset_handles (self (run (fire handle) w))
                    !! TimerHandle.args t = None).
  { unfold run. rewrite (fire_resets w handle t dc) by done. cbn.
    apply lookup_delete_eq. }
  split; [done|]. unfold run, outcome in *.
  rewrite (fire_resets w handle t dc) in * by done. cbn [fst snd out] in *.
  split; [done|]. split; [done|]. split; [done|]. split; [|done].
  intros Hlive'. apply (proj1 Hok') in Hlive'. congruence.
Qed.

(** C4. The auto-reset table and the live timer handles determine each
    other, so at every instant a device has at most one live timer.  A
    Trigger event cancels the handle recorded for the device, if any, and
    installs and records a new one, due one interval later; triggering twice
    within the interval gives exactly one "Off" publish, once the loop
    reaches the second trigger time plus the interval and not before; a
    handle that fires publishes "Off" retained on the topic of its device and
    removes the entry of the device; shutdown cancels and removes every
    entry. *)
Theorem auto_reset_one_timer_per_device :
  (forall (config : Config.t) (bu : BaseUnit.t) (inputs : list input),
      let w := steps L (initial config bu) inputs in
      timers_ok w
      /\ forall h1 h2 device_id,
           live_at (loop w) h1 device_id -> live_at (loop w) h2 device_id ->
           h1 = h2)
  /\ (forall (w : World) (device : Device.t) (dc : TranslatorDeviceConfig.t),
        timers_ok w ->
        configured w (Device.device_id device) dc ->
        let w' := run (_device_on_event device DeviceEventCode.Trigger) w in
        let n := length (Loop.handles (loop w)) in
        (forall old d,
            Translator._auto_reset_handles (self w) !! Device.device_id device
              = Some old ->
            ~ live_at (loop w') old d)
        /\ Translator._auto_reset_handles (self w') !! Device.device_id device
             = Some n
        /\ live_at (loop w') n (Device.device_id device)
        /\ (exists t, Loop.handles (loop w') !! n = Some t
                      /\ TimerHandle.when t =
                           Loop.time (loop w)
                           + or_default
                               (TranslatorDeviceConfig.auto_reset_interval dc)
                               AUTO_RESET_INTERVAL)
        /\ timers_ok w')
  /\ (forall (w : World) (device : Device.t) (dc : TranslatorDeviceConfig.t)
             (t2 T : Z),
        timers_ok w ->
        all_dead (Loop.handles (loop w)) ->
        configured w (Device.device_id device) dc ->
        let interval :=
          or_default (TranslatorDeviceConfig.auto_reset_interval dc)
            AUTO_RESET_INTERVAL in
        let D := TranslatorDeviceConfig.topic dc in
        Loop.time (loop w) <= t2 < Loop.time (loop w) + interval ->
        let w1 := run (_device_on_event device DeviceEventCode.Trigger) w in
        let w2 := run (run_until t2) w1 in
        let w3 := run (_device_on_event device DeviceEventCode.Trigger) w2 in
        let w4 := run (run_until T) w3 in
        count_off D (out w3) = count_off D (out w)
        /\ exists delta,
             out w4 = out w3 ++ delta
             /\ delta = (if T <? t2 + interval then []
                         else [Publish D (POnOff OnOff.Off) QOS_1 true])
             /\ count_off D delta = if T <? t2 + interval then O else 1%nat)
  /\ (forall (w : World) (handle : nat) (device_id : Z),
        timers_ok w ->
        live_at (loop w) handle device_id ->
        exists dc,
          configured w device_id dc
          /\ outcome (fire handle) w = Ok tt
          /\ out (run (fire handle) w) =
               out w ++
               [Publish (TranslatorDeviceConfig.topic dc) (POnOff OnOff.Off)
                  QOS_1 true]
          /\ Translator._auto_reset_handles (self (run (fire handle) w))
               !! device_id = None
          /\ ~ live_at (loop (run (fire handle) w)) handle device_id
          /\ timers_ok (run (fire handle) w))
  /\ (forall w : World,
        timers_ok w ->
        outcome async_stop w = Ok tt
        /\ Translator._auto_reset_handles (self (run async_stop w)) = ∅
        /\ (forall handle device_id,
              ~ live_at (loop (run async_stop w)) handle device_id)
        /\ timers_ok (run async_stop w)
        /\ out (run async_stop w) =
             out w ++ [BaseUnitStop; MqttLoopStop; MqttDisconnect]).
Proof.
  split; [|split; [|split; [|split]]].
  - intros config bu inputs w.
    assert (Hok : timers_ok w) by apply timers_ok_steps, timers_ok_initial.
    split; [done|]. intros h1 h2 device_id. by apply live_unique, Hok.
  - apply trigger_cancels_then_arms.
  - intros w device dc t2 T Hok Hdead Hcfg interval D Htime w1 w2 w3 w4.
    destruct (double_trigger_one_off w device dc t2 T Hok Hdead Hcfg Htime)
      as [Hout3 Hout4].
    fold interval D w1 w2 w3 w4 in Hout3, Hout4.
    split.
    + rewrite Hout3. unfold count_off. rewrite !List.filter_app. cbn.
      by rewrite !length_app, !Nat.add_0_r.
    + eexists. split; [exact Hout4|]. split; [done|].
      destruct (T <? t2 + interval); [done|].
      unfold count_off. cbn. by rewrite String.eqb_refl.
  - apply fire_publishes_off.
  - apply stop_cancels_all.
Qed.

End properties.

(** * The properties on the sample instance *)



Lemma alarm_event_forces_triggered_witness :
  Translator._state (self Sample.triggered_world)
    = VBaseUnitState BaseUnitState.Disarm
  /\ Translator._ha_state (self Sample.triggered_world) = Some "triggered".
Proof.
  split; [reflexivity|].
  exact (proj1 (proj2 (alarm_event_forces_triggered
                         (step Sample.lifesospy Sample.world
                            (InBaseUnitPropertiesChanged
                               [Sample.state_change BaseUnitState.Disarm]))
                         Sample.alarm eq_refl eq_refl))).
Defined.

Lemma disarm_while_triggered_resets_ha_state_witness :
  out (run (_on_message_baseunit Sample.lifesospy Sample.operation_mode_set
              (Sample.message "home/alarm/operation_mode/set" "Disarm"))
         Sample.triggered_world) =
    out Sample.triggered_world ++
    [Log DEBUG msg_resetting_triggered;
     Publish "home/alarm/ha_state" (PStr "disarmed") 1 true;
     CreateTask (async_set_operation_mode OperationMode.Disarm)].
Proof.
  destruct (disarm_while_triggered_resets_ha_state Sample.lifesospy
              Sample.triggered_world Sample.operation_mode_set
              (Sample.message "home/alarm/operation_mode/set" "Disarm")
              (Some "Disarm") OperationMode.Disarm eq_refl eq_refl eq_refl)
    as (_ & Hreset & _).
  exact (proj2 (Hreset eq_refl eq_refl eq_refl)).
Defined.

Lemma auto_reset_one_timer_per_device_witness :
  let w1 := run (_device_on_event Sample.pir DeviceEventCode.Trigger) Sample.world in
  let w2 := run (run_until 100) w1 in
  let w3 := run (_device_on_event Sample.pir DeviceEventCode.Trigger) w2 in
  out (run (run_until 279) w3) = out w3 ++ []
  /\ out (run (run_until 280) w3) =
       out w3 ++ [Publish "home/lounge/motion" (POnOff OnOff.Off) 1 true].
Proof.
  destruct (auto_reset_one_timer_per_device Sample.lifesospy)
    as (_ & _ & Hscenario & _).
  assert (Hdead : all_dead (Loop.handles (loop Sample.world))).
  { intros h t Hlook. destruct h; discriminate Hlook. }
  assert (Hconfigured : configured Sample.world Sample.pir_id Sample.pir_config).
  { split; reflexivity. }
  assert (Htime : Loop.time (loop Sample.world) <= 100
                  < Loop.time (loop Sample.world)
                    + or_default
                        (TranslatorDeviceConfig.auto_reset_interval Sample.pir_config)
                        AUTO_RESET_INTERVAL).
  { cbn. lia. }
  pose proof (fun T =>
    Hscenario Sample.world Sample.pir Sample.pir_config 100 T
      (timers_ok_initial Sample.config Sample.adapter) Hdead Hconfigured Htime)
    as Hrun.
  destruct (Hrun 279) as (_ & d1 & Hout1 & -> & _).
  destruct (Hrun 280) as (_ & d2 & Hout2 & -> & _).
  split; [exact Hout1 | exact Hout2].
Defined.

Lemma flag_set_one_topic_per_flag_witness :
  let flags :=
    [Publish "home/lounge/motion/characteristics/Repeater" (PBool false) 1 true;
     Publish "home/lounge/motion/characteristics/BaseUnit" (PBool false) 1 true;
     Publish "home/lounge/motion/characteristics/TwoWay" (PBool true) 1 true;
     Publish "home/lounge/motion/characteristics/Supervisory" (PBool false) 1 true;
     Publish "home/lounge/motion/characteristics/RFVoice" (PBool true) 1 true;
     Publish "home/lounge/motion/characteristics/Reserved_b2" (PBool false) 1 true;
     Publish "home/lounge/motion/characteristics/Reserved_b1" (PBool false) 1 true;
     Publish "home/lounge/motion/characteristics/Reserved_b0" (PBool false) 1 true] in
  let rssi_db := {| PropertyChangedInfo.name := "rssi_db";
                    PropertyChangedInfo.new_value := VInt (-60) |} in
  let characteristics := {| PropertyChangedInfo.name := "characteristics";
                            PropertyChangedInfo.new_value := VInt 40 |} in
  out (run (_publish_device_property Sample.lifesospy "home/lounge/motion"
              Sample.pir "characteristics" (VInt 40))
         Sample.world) = flags
  /\ out (run (_device_on_properties_changed Sample.lifesospy Sample.pir
                 [rssi_db; characteristics])
            Sample.world)
     = Publish "home/lounge/motion/rssi_db" (PValue (VInt (-60))) 1 true :: flags.
Proof.
  intros flags rssi_db characteristics.
  pose proof (flag_set_one_topic_per_flag Sample.lifesospy "characteristics"
                (Lifesospy.DCFlags Sample.lifesospy) Sample.world
                "home/lounge/motion" Sample.pir (VInt 40) 40
                (or_introl eq_refl) eq_refl) as (_ & _ & Hhelper & Hcallback).
  split; [exact Hhelper|].
  destruct (Hcallback Sample.pir_config (conj eq_refl eq_refl) eq_refl)
    as (_ & _ & _ & Hreport).
  destruct (Hreport [rssi_db] [] eq_refl) as [_ Hlast].
  refine (eq_trans (f_equal (fun r => out (snd r)) Hlast) _). reflexivity.
Defined.

Lemma unconfigured_device_is_ignored_witness :
  PyDict.get (device_configs Sample.world) (Device.device_id Sample.stranger) = None
  /\ _device_on_event Sample.stranger DeviceEventCode.Trigger Sample.world
     = (Ok tt, Sample.world).
Proof.
  split; [reflexivity|].
  exact (proj1 (unconfigured_device_is_ignored Sample.lifesospy Sample.world
                  Sample.stranger eq_refl) DeviceEventCode.Trigger).
Defined.

Lemma baseunit_property_topics_witness :
  out (run (_publish_baseunit_property Sample.lifesospy "rom_version" (VStr "1.2"))
         Sample.world) =
    [Publish "home/alarm/rom_version" (PValue (VStr "1.2")) 1 true].
Proof.
  pose proof (proj1 (baseunit_property_topics Sample.lifesospy Sample.world
                       "rom_version" (VStr "1.2"))
                (or_intror (or_introl eq_refl))) as Hpublish.
  unfold run. rewrite Hpublish. reflexivity.
Defined.

Lemma connect_resynchronises_witness :
  In (Log WARNING (msg_reconnected_outage 15))
    (out (run (_mqtt_on_connect CONNACK_ACCEPTED 25) Sample.disconnected_world))
  /\ In (Publish "home/alarm/is_connected" (PBool true) 1 true)
       (out (run (_mqtt_on_connect CONNACK_ACCEPTED 25) Sample.disconnected_world)).
Proof.
  destruct (connect_resynchronises Sample.disconnected_world 25)
    as (_ & _ & _ & _ & Houtage).
  rewrite (Houtage 10 eq_refl eq_refl).
  split; apply in_or_app; right; [left | right; left]; reflexivity.
Defined.

Lemma unparseable_operation_mode_is_ignored_witness :
  _on_message_baseunit Sample.lifesospy Sample.operation_mode_set
    (Sample.message "home/alarm/operation_mode/set" "bogus") Sample.world =
    (Ok tt,
     with_out [Log WARNING (msg_cannot_set_operation_mode (Some "bogus"))]
       Sample.world).
Proof.
  exact (proj1 (unparseable_operation_mode_is_ignored Sample.lifesospy Sample.world
                  Sample.operation_mode_set
                  (Sample.message "home/alarm/operation_mode/set" "bogus") eq_refl)
           (Some "bogus") eq_refl eq_refl).
Defined.

Lemma birth_needs_nonempty_matching_payload_witness :
  TranslatorConfig.birth_payload
    (Config.translator (Translator._config (self Sample.world_empty_birth)))
    = Some ""
  /\ _on_message Sample.lifesospy Sample.birth
       (Sample.message "homeassistant/status" "") Sample.world_empty_birth
     = (Ok tt, Sample.world_empty_birth).
Proof.
  split; [reflexivity|].
  exact (proj1 (birth_needs_nonempty_matching_payload Sample.lifesospy
                  Sample.world_empty_birth Sample.birth
                  (Sample.message "homeassistant/status" "")) eq_refl).
Defined.

(** The property [state] is published on the base topic itself: nothing is
    published on [B/state]. *)
Lemma state_is_not_published_under_its_name :
  out (run (_publish_baseunit_property Sample.lifesospy "state"
              (VBaseUnitState BaseUnitState.Disarm))
         Sample.world) =
    [Publish "home/alarm" (PValue (VBaseUnitState BaseUnitState.Disarm)) 1 true;
     Publish "home/alarm/ha_state" (PStr "disarmed") 1 true]
  /\ publishes_to "home/alarm/state"
       (out (run (_publish_baseunit_property Sample.lifesospy "state"
                    (VBaseUnitState BaseUnitState.Disarm))
               Sample.world)) = [].
Proof. split; reflexivity. Qed.

(** A payload that is not UTF-8 parses to no operation mode, and the handler
    raises: no warning is logged, nothing returns normally. *)
Lemma non_utf8_operation_mode_raises :
  decode (MQTTMessage.payload Sample.garbled) = None
  /\ _on_message_baseunit Sample.lifesospy Sample.operation_mode_set
       Sample.garbled Sample.world
     = (Raise UnicodeDecodeError, Sample.world).
Proof. split; reflexivity. Qed.

(** * Further properties of the translator *)

Section coverage.

Variable L : Lifesospy.lib.

(** ** Methods that only make calls *)

Lemma with_out_same (w : World) : with_out (out w ++ []) w = w.
Proof. destruct w. unfold with_out. cbn. by rewrite app_nil_r. Qed.

Lemma emits_only_ret {A} (P : effect -> Prop) (a : A) :
  emits_only P (mret a : M A).
Proof. intros w. exists []. by rewrite with_out_same. Qed.

Lemma emits_only_raise {A} (P : effect -> Prop) (e : exn) :
  emits_only P (raise e : M A).
Proof. intros w. exists []. by rewrite with_out_same. Qed.

Lemma emits_only_emit (P : effect -> Prop) (e : effect) :
  P e -> emits_only P (emit e).
Proof. intros He w. exists [e]. split; [done | by constructor]. Qed.

Lemma emits_only_bind {A B} (P : effect -> Prop) (m : M A) (f : A -> M B) :
  emits_only P m -> (forall a, emits_only P (f a)) -> emits_only P (m ≫= f).
Proof.
  intros Hm Hf w. unfold mbind, M_bind. destruct (Hm w) as (d1 & H1 & HP1).
  destruct (m w) as [[a|e] w1]; cbn in H1; subst w1.
  - destruct (Hf a (with_out (out w ++ d1) w)) as (d2 & H2 & HP2).
    exists (d1 ++ d2). rewrite H2. unfold with_out. cbn.
    split; [by rewrite app_assoc | by apply Forall_app].
  - by exists d1.
Qed.

Lemma emits_only_try {A} (P : effect -> Prop) (m : M A) (handler : exn -> M A) :
  emits_only P m -> (forall e, emits_only P (handler e)) ->
  emits_only P (try_except m handler).
Proof.
  intros Hm Hh w. unfold try_except. destruct (Hm w) as (d1 & H1 & HP1).
  destruct (m w) as [[a|e] w1]; cbn in H1; subst w1.
  - by exists d1.
  - destruct (Hh e (with_out (out w ++ d1) w)) as (d2 & H2 & HP2).
    exists (d1 ++ d2). rewrite H2. unfold with_out. cbn.
    split; [by rewrite app_assoc | by apply Forall_app].
Qed.

Lemma emits_only_for {A} (P : effect -> Prop) (l : list A) (body : A -> M unit) :
  (forall x, emits_only P (body x)) -> emits_only P (for_ l body).
Proof.
  intros Hbody. induction l as [|x l IH]; cbn [for_].
  - apply emits_only_ret.
  - apply emits_only_bind; [apply Hbody | by intros _].
Qed.

Lemma emits_only_read {A} (P : effect -> Prop) (f : World -> result A) :
  emits_only P (fun w => (f w, w)).
Proof. intros w. exists []. by rewrite with_out_same. Qed.

Lemma emits_only_weaken {A} (P Q : effect -> Prop) (m : M A) :
  (forall e, P e -> Q e) -> emits_only P m -> emits_only Q m.
Proof.
  intros HPQ Hm w. destruct (Hm w) as (delta & Hrun & HP).
  exists delta. split; [done|]. eapply Forall_impl; eauto.
Qed.

Lemma only_emits_emit (e : effect) : only_emits (emit e).
Proof. by apply emits_only_emit. Qed.

(** Take a method apart; [leaf] settles what is asked of each call. *)
Ltac emits_step_with leaf :=
  lazymatch goal with
  | |- only_emits _ => unfold only_emits
  | |- emits_only _ (mbind _ _) => apply emits_only_bind; [|intros ?]
  | |- emits_only _ (mret _) => apply emits_only_ret
  | |- emits_only _ pass => apply emits_only_ret
  | |- emits_only _ (raise _) => apply emits_only_raise
  | |- emits_only _ (emit _) => apply emits_only_emit; leaf
  | |- emits_only _ (log _ _) => apply emits_only_emit; leaf
  | |- emits_only _ (create_task _) => apply emits_only_emit; leaf
  | |- emits_only _ (_publish _ _ _) => apply emits_only_emit; leaf
  | |- emits_only _ get_self =>
      apply (emits_only_read _ (fun w => Ok (self w)))
  | |- emits_only _ get_baseunit =>
      apply (emits_only_read _ (fun w => Ok (baseunit w)))
  | |- emits_only _ translator_config => unfold translator_config
  | |- emits_only _ (payload_text ?m) =>
      apply (emits_only_read _
               (fun _ => decode_payload (MQTTMessage.payload m)))
  | |- emits_only _ (for_ _ _) => apply emits_only_for; intros ?
  | |- emits_only _ (try_except _ _) => apply emits_only_try; [|intros ?]
  | |- emits_only _ (match ?x with _ => _ end) => destruct x
  | |- emits_only _ (let _ := _ in _) => cbv zeta
  end.

Ltac emits_step := emits_step_with ltac:(exact I).

Lemma only_emits_publish_device_property (D : string) (device : Device.t)
    (name : string) (value : pyval) :
  only_emits (_publish_device_property L D device name value).
Proof. unfold _publish_device_property, publish_flags. repeat emits_step. Qed.

Lemma only_emits_publish_device_configs (device : Device.t)
    (dc : TranslatorDeviceConfig.t) :
  only_emits (publish_device_configs L device dc).
Proof.
  unfold publish_device_configs, _publish_device_config,
    _publish_device_rssi_config, _publish_device_battery_config,
    _add_device_identifiers.
  repeat emits_step.
Qed.

Lemma only_emits_publish_ha_config_loop (keys : list Z) :
  only_emits (publish_ha_config_loop L keys).
Proof.
  induction keys as [|k keys IH]; cbn [publish_ha_config_loop].
  - apply emits_only_ret.
  - repeat first [apply IH | apply only_emits_publish_device_configs | emits_step].
Qed.

Lemma only_emits_publish_ha_config : only_emits (_publish_ha_config L).
Proof.
  unfold _publish_ha_config, _publish_baseunit_config.
  repeat first [apply only_emits_publish_ha_config_loop | emits_step].
Qed.

Lemma only_emits_device_on_properties_changed (device : Device.t)
    (changes : list PropertyChangedInfo.t) :
  only_emits (_device_on_properties_changed L device changes).
Proof.
  unfold _device_on_properties_changed.
  repeat first [apply only_emits_publish_device_property | emits_step].
Qed.

Lemma only_emits_baseunit_device_added (device : Device.t) :
  only_emits (_baseunit_device_added L device).
Proof.
  unfold _baseunit_device_added.
  repeat first [apply only_emits_publish_device_configs | emits_step].
Qed.

Lemma only_emits_on_message (st : SubscribeTopic.t) (m : MQTTMessage.t) :
  only_emits (_on_message L st m).
Proof.
  unfold _on_message.
  repeat first [apply only_emits_publish_ha_config | emits_step].
Qed.

Lemma only_emits_on_message_clear_status (st : SubscribeTopic.t)
    (m : MQTTMessage.t) :
  only_emits (_on_message_clear_status st m).
Proof. unfold _on_message_clear_status. repeat emits_step. Qed.

Lemma only_emits_on_message_set_datetime (st : SubscribeTopic.t)
    (m : MQTTMessage.t) :
  only_emits (_on_message_set_datetime L st m).
Proof. unfold _on_message_set_datetime. repeat emits_step. Qed.

(** X1. The callbacks that report on devices and the handlers of the
    discovery, clear-status and set-datetime messages assign no attribute of
    the translator and touch no timer: whether they return or raise, the world
    they leave differs from the one they found only by calls added at the
    end of the trace. *)
Theorem publishing_handlers_only_emit :
  (forall device, only_emits (_baseunit_device_added L device))
  /\ (forall device changes,
        only_emits (_device_on_properties_changed L device changes))
  /\ (forall D device name value,
        only_emits (_publish_device_property L D device name value))
  /\ only_emits (_publish_ha_config L)
  /\ (forall st m, only_emits (_on_message L st m))
  /\ (forall st m, only_emits (_on_message_clear_status st m))
  /\ (forall st m, only_emits (_on_message_set_datetime L st m)).
Proof.
  split; [exact only_emits_baseunit_device_added|].
  split; [exact only_emits_device_on_properties_changed|].
  split; [exact only_emits_publish_device_property|].
  split; [exact only_emits_publish_ha_config|].
  split; [exact only_emits_on_message|].
  split; [exact only_emits_on_message_clear_status|].
  exact only_emits_on_message_set_datetime.
Qed.

(** ** Observations that methods keep *)

Lemma keeps_ret {X A} (proj : World -> X) (a : A) : keeps proj (mret a : M A).
Proof. by intros w. Qed.

Lemma keeps_bind {X A B} (proj : World -> X) (m : M A) (f : A -> M B) :
  keeps proj m -> (forall a, keeps proj (f a)) -> keeps proj (m ≫= f).
Proof.
  intros Hm Hf w. unfold mbind, M_bind. specialize (Hm w).
  destruct (m w) as [[a|e] w1]; cbn in *; [|done].
  by rewrite Hf.
Qed.

Lemma keeps_try {X A} (proj : World -> X) (m : M A) (handler : exn -> M A) :
  keeps proj m -> (forall e, keeps proj (handler e)) ->
  keeps proj (try_except m handler).
Proof.
  intros Hm Hh w. unfold try_except. specialize (Hm w).
  destruct (m w) as [[a|e] w1]; cbn in *; [done|].
  by rewrite Hh.
Qed.

Lemma keeps_for {X A} (proj : World -> X) (l : list A) (body : A -> M unit) :
  (forall x, keeps proj (body x)) -> keeps proj (for_ l body).
Proof.
  intros Hbody. induction l as [|x l IH]; cbn [for_].
  - apply keeps_ret.
  - apply keeps_bind; [apply Hbody | by intros _].
Qed.

(** An observation that does not read the trace is kept by every method
    that only makes calls. *)
Lemma keeps_only_emits {X A} (proj : World -> X) (m : M A) :
  (forall o w, proj (with_out o w) = proj w) -> only_emits m -> keeps proj m.
Proof. intros Hproj Hm w. destruct (Hm w) as (delta & -> & _). apply Hproj. Qed.

(** Take a method apart; the primitives are settled by computation. *)
Ltac keeps_step :=
  lazymatch goal with
  | |- keeps _ (mbind _ _) => apply keeps_bind; [|intros ?]
  | |- keeps _ (for_ _ _) => apply keeps_for; intros ?
  | |- keeps _ (try_except _ _) => apply keeps_try; [|intros ?]
  | |- keeps _ translator_config => unfold translator_config
  | |- keeps _ (set_ha_state _) => unfold set_ha_state
  | |- keeps _ (get_auto_reset_handle _) => unfold get_auto_reset_handle
  | |- keeps _ (set_auto_reset_handle _ _) => unfold set_auto_reset_handle
  | |- keeps _ (pop_auto_reset_handle _) => unfold pop_auto_reset_handle
  | |- keeps _ (match ?x with _ => _ end) => destruct x
  | |- keeps _ (let _ := _ in _) => cbv zeta
  | |- keeps _ _ => by intros ?
  end.

Lemma keeps_fire {X} (proj : World -> X) (handle : nat) :
  (forall l w, proj (with_loop l w) = proj w) ->
  (forall device_id, keeps proj (_auto_reset device_id)) ->
  keeps proj (fire handle).
Proof.
  intros Hloop Hreset w. unfold fire.
  destruct (Loop.handles (loop w) !! handle) as [h|]; [|done].
  destruct (TimerHandle.live h); [|apply Hloop].
  rewrite Hreset. apply Hloop.
Qed.

Lemma keeps_timer {X} (proj : World -> X) (handle : nat) :
  keeps proj (fire handle) -> keeps proj (timer handle).
Proof.
  intros Hfire w. unfold timer.
  destruct (Loop.handles (loop w) !! handle) as [h|]; [|done].
  destruct (due (Loop.time (loop w)) h); [apply Hfire | done].
Qed.

(** *** The configuration and the registry *)

Lemma fixed_part_out (o : list effect) (w : World) :
  fixed_part (with_out o w) = fixed_part w.
Proof. reflexivity. Qed.

Lemma keeps_fixed_part_react (i : input) : keeps fixed_part (react L i).
Proof.
  destruct i; cbn [react].
  - unfold _mqtt_on_connect. repeat keeps_step.
  - unfold _mqtt_on_disconnect. repeat keeps_step.
  - unfold _mqtt_on_message. repeat keeps_step.
  - unfold deliver, async_loop_dispatch, call_handler.
    repeat first
      [ apply (keeps_only_emits _ _ fixed_part_out), only_emits_on_message
      | apply (keeps_only_emits _ _ fixed_part_out),
          only_emits_on_message_clear_status
      | apply (keeps_only_emits _ _ fixed_part_out),
          only_emits_on_message_set_datetime
      | progress unfold _on_message_baseunit
      | keeps_step ].
  - by intros w.
  - apply (keeps_only_emits _ _ fixed_part_out), only_emits_baseunit_device_added.
  - unfold _baseunit_event. repeat keeps_step.
  - unfold _baseunit_properties_changed.
    apply keeps_bind.
    + generalize false.
      induction changes as [|change changes IH]; intros has_connected;
        cbn [baseunit_changes_loop]; [apply keeps_ret|].
      apply keeps_bind; [|intros _; apply IH].
      unfold _publish_baseunit_property. repeat keeps_step.
    + intros [|]; [|apply keeps_ret].
      apply (keeps_only_emits _ _ fixed_part_out), only_emits_publish_ha_config.
  - unfold _device_on_event. repeat keeps_step.
  - apply (keeps_only_emits _ _ fixed_part_out),
      only_emits_device_on_properties_changed.
  - apply keeps_timer, keeps_fire; [done|]. intros device_id.
    unfold _auto_reset. repeat keeps_step.
  - by intros w.
  - unfold async_start. repeat keeps_step.
  - unfold async_stop. repeat keeps_step.
  - unfold signal_shutdown. repeat keeps_step.
Qed.

Lemma steps_cons (w : World) (i : input) (inputs : list input) :
  steps L w (i :: inputs) = steps L (step L w i) inputs.
Proof. reflexivity. Qed.

Lemma steps_app (w : World) (inputs1 inputs2 : list input) :
  steps L w (inputs1 ++ inputs2) = steps L (steps L w inputs1) inputs2.
Proof. apply fold_left_app. Qed.

(** An observation that follows the inputs one by one follows any sequence
    of them. *)
Lemma steps_history {X} (proj : World -> X) (event : X -> input -> X) :
  (forall w i, proj (step L w i) = event (proj w) i) ->
  forall w inputs, proj (steps L w inputs) = fold_left event inputs (proj w).
Proof.
  intros Hstep w inputs. revert w.
  induction inputs as [|i inputs IH]; intros w; [done|].
  rewrite steps_cons, IH, Hstep. reflexivity.
Qed.

Lemma fixed_part_steps (w : World) (inputs : list input) :
  fixed_part (steps L w inputs) = fixed_part w.
Proof.
  rewrite (steps_history fixed_part (fun x _ => x)).
  - by induction inputs.
  - intros w' i. apply keeps_fixed_part_react.
Qed.

(** X2. Nothing that happens to a running translator changes its
    configuration or its registry of subscribe topics: after any inputs they
    are what they were, so from the initial world they are the configuration
    given to [__init__] and the registry [__init__] made from it. *)
Theorem configuration_and_registry_are_fixed (w : World) (inputs : list input) :
  Translator._config (self (steps L w inputs)) = Translator._config (self w)
  /\ Translator._subscribetopics (self (steps L w inputs)) =
       Translator._subscribetopics (self w).
Proof.
  pose proof (fixed_part_steps w inputs) as H.
  unfold fixed_part in H. by injection H.
Qed.

(** *** The connection bookkeeping *)

Lemma keeps_baseunit_changes_loop {X} (proj : World -> X)
    (changes : list PropertyChangedInfo.t) (has_connected : bool) :
  (forall name value, keeps proj (_publish_baseunit_property L name value)) ->
  keeps proj (baseunit_changes_loop L changes has_connected).
Proof.
  intros Hpublish. revert has_connected.
  induction changes as [|change changes IH]; intros has_connected;
    cbn [baseunit_changes_loop]; [apply keeps_ret|].
  apply keeps_bind; [apply Hpublish | intros _; apply IH].
Qed.

(** The handlers of the router, for an observation that does not read the
    trace and that [_on_message_baseunit] keeps. *)
Lemma keeps_deliver {X} (proj : World -> X) :
  (forall o w, proj (with_out o w) = proj w) ->
  (forall st m, keeps proj (_on_message_baseunit L st m)) ->
  forall message, keeps proj (async_loop_dispatch L message).
Proof.
  intros Hout Hbaseunit message.
  unfold async_loop_dispatch, call_handler.
  repeat first
    [ apply (keeps_only_emits _ _ Hout), only_emits_on_message
    | apply (keeps_only_emits _ _ Hout), only_emits_on_message_clear_status
    | apply (keeps_only_emits _ _ Hout), only_emits_on_message_set_datetime
    | apply Hbaseunit
    | apply (keeps_only_emits _ _ Hout), only_emits_emit
    | keeps_step ].
Qed.

Lemma connection_log_out (o : list effect) (w : World) :
  connection_log (with_out o w) = connection_log w.
Proof. reflexivity. Qed.

Lemma connection_log_step (w : World) (i : input) :
  connection_log (step L w i) = connection_event (connection_log w) i.
Proof.
  assert (Hkeep : forall m : M unit,
             keeps connection_log m ->
             forall log, log = connection_log w -> connection_log (run m w) = log).
  { intros m Hm log ->. apply Hm. }
  unfold step. destruct i; cbn [react].
  - (* connect *)
    clear Hkeep. destruct w as [s bu l o], s.
    unfold connection_event, connection_log at 2.
    unfold _mqtt_on_connect.
    destruct (result_code =? CONNACK_ACCEPTED); cbn [negb]; [|done].
    repeat (progress unfold_M). cbn -[for_].
    destruct _mqtt_was_connected; cbn -[for_].
    + destruct _mqtt_last_disconnection; cbn -[for_]; by rewrite for_emit.
    + by rewrite for_emit.
  - (* disconnect *)
    unfold connection_event, connection_log at 2, _mqtt_on_disconnect.
    by destruct (result_code =? MQTT_ERR_SUCCESS).
  - apply Hkeep; [|by destruct (connection_log w) as [[??]?]].
    unfold _mqtt_on_message. repeat keeps_step.
  - apply Hkeep; [|by destruct (connection_log w) as [[??]?]].
    unfold deliver. apply keeps_bind; [by intros ?|]. intros s.
    destruct (Translator._pending_messages s); [by intros ?|].
    apply keeps_bind; [by intros ?|]. intros _.
    apply (keeps_deliver _ connection_log_out). intros st m.
    unfold _on_message_baseunit. repeat keeps_step.
  - by destruct (connection_log w) as [[??]?] eqn:E.
  - apply Hkeep; [|by destruct (connection_log w) as [[??]?]].
    apply (keeps_only_emits _ _ connection_log_out),
      only_emits_baseunit_device_added.
  - apply Hkeep; [|by destruct (connection_log w) as [[??]?]].
    unfold _baseunit_event. repeat keeps_step.
  - apply Hkeep; [|by destruct (connection_log w) as [[??]?]].
    unfold _baseunit_properties_changed.
    apply keeps_bind.
    + apply keeps_baseunit_changes_loop. intros name value.
      unfold _publish_baseunit_property. repeat keeps_step.
    + intros [|]; [|apply keeps_ret].
      apply (keeps_only_emits _ _ connection_log_out),
        only_emits_publish_ha_config.
  - apply Hkeep; [|by destruct (connection_log w) as [[??]?]].
    unfold _device_on_event. repeat keeps_step.
  - apply Hkeep; [|by destruct (connection_log w) as [[??]?]].
    apply (keeps_only_emits _ _ connection_log_out),
      only_emits_device_on_properties_changed.
  - apply Hkeep; [|by destruct (connection_log w) as [[??]?]].
    apply keeps_timer, keeps_fire; [done|]. intros device_id.
    unfold _auto_reset. repeat keeps_step.
  - by destruct (connection_log w) as [[??]?] eqn:E.
  - by destruct w as [[] ? ? ?].
  - apply Hkeep; [|by destruct (connection_log w) as [[??]?]].
    unfold async_stop. repeat keeps_step.
  - apply Hkeep; [|by destruct (connection_log w) as [[??]?]].
    unfold signal_shutdown. repeat keeps_step.
Qed.

(** X3. The connection bookkeeping of a running translator is a function of
    the connects, disconnects and starts it has seen, and of nothing else:
    an accepted connect sets the flag and the connection time, a rejected one
    changes nothing; a disconnect with a non-zero code sets the disconnection
    time, a clean one keeps the earlier time; a start clears the flag and
    keeps both times; every other input leaves the three fields alone. *)
Theorem connection_log_follows_history (w : World) (inputs : list input) :
  connection_log (steps L w inputs) =
    fold_left connection_event inputs (connection_log w).
Proof. apply steps_history, connection_log_step. Qed.

(** *** The queue of pending messages *)

Lemma pending_out (o : list effect) (w : World) : pending (with_out o w) = pending w.
Proof. reflexivity. Qed.

Lemma keeps_pending_dispatch (message : option MQTTMessage.t) :
  keeps pending (async_loop_dispatch L message).
Proof.
  apply (keeps_deliver _ pending_out).
  intros st m. unfold _on_message_baseunit. repeat keeps_step.
Qed.

Lemma pending_step (w : World) (i : input) :
  pending (step L w i) = queue_event (pending w) i.
Proof.
  unfold step. destruct i; cbn [react queue_event].
  - revert w. change (keeps pending (_mqtt_on_connect result_code now)).
    unfold _mqtt_on_connect. repeat keeps_step.
  - revert w. change (keeps pending (_mqtt_on_disconnect result_code now)).
    unfold _mqtt_on_disconnect. repeat keeps_step.
  - reflexivity.
  - unfold deliver, run, mbind, M_bind, get_self, pending.
    destruct (Translator._pending_messages (self w)) as [|first rest] eqn:Hq;
      [exact Hq|].
    cbn [modify_self tail].
    apply (keeps_pending_dispatch first
             (with_self (Translator.with_pending_messages rest (self w)) w)).
  - reflexivity.
  - revert w. change (keeps pending (_baseunit_device_added L device)).
    apply (keeps_only_emits _ _ pending_out), only_emits_baseunit_device_added.
  - revert w. change (keeps pending (_baseunit_event contact_id)).
    unfold _baseunit_event. repeat keeps_step.
  - revert w. change (keeps pending (_baseunit_properties_changed L changes)).
    unfold _baseunit_properties_changed.
    apply keeps_bind.
    + apply keeps_baseunit_changes_loop. intros name value.
      unfold _publish_baseunit_property. repeat keeps_step.
    + intros [|]; [|apply keeps_ret].
      apply (keeps_only_emits _ _ pending_out), only_emits_publish_ha_config.
  - revert w. change (keeps pending (_device_on_event device event_code)).
    unfold _device_on_event. repeat keeps_step.
  - revert w.
    change (keeps pending (_device_on_properties_changed L device changes)).
    apply (keeps_only_emits _ _ pending_out),
      only_emits_device_on_properties_changed.
  - revert w. change (keeps pending (timer handle)).
    apply keeps_timer, keeps_fire; [done|]. intros device_id.
    unfold _auto_reset. repeat keeps_step.
  - reflexivity.
  - revert w. change (keeps pending async_start).
    unfold async_start. repeat keeps_step.
  - revert w. change (keeps pending async_stop).
    unfold async_stop. repeat keeps_step.
  - reflexivity.
Qed.

(** X4. The queue between the broker thread and the router is first in,
    first out, and only three things touch it: a message from the broker and
    the shutdown sentinel are put at the back, a delivery takes the head and
    no handler it runs puts or takes anything.  So a message put behind [n]
    pending ones is the head of the queue after exactly [n] deliveries. *)
Theorem queue_is_first_in_first_out (w : World) (inputs : list input) :
  pending (steps L w inputs) = fold_left queue_event inputs (pending w)
  /\ forall message : MQTTMessage.t,
       pending
         (steps L w
            (InMessage message :: repeat InDeliver (length (pending w))))
       = [Some message].
Proof.
  split; [apply steps_history, pending_step|].
  intros message. rewrite (steps_history pending queue_event pending_step).
  cbn [fold_left queue_event].
  generalize (pending w). intros q.
  induction q as [|first q IH]; [done|].
  cbn [length repeat fold_left app queue_event tail]. apply IH.
Qed.

(** *** The base-unit state and the derived hub state *)

Lemma raw_state_out (o : list effect) (w : World) :
  raw_state (with_out o w) = raw_state w.
Proof. reflexivity. Qed.

Lemma ha_state_out (o : list effect) (w : World) :
  ha_state (with_out o w) = ha_state w.
Proof. reflexivity. Qed.

(** The inputs that touch neither of the two. *)
Lemma keeps_hub_state_react {X} (proj : World -> X) (i : input) :
  (forall o w, proj (with_out o w) = proj w) ->
  (forall l w, proj (with_loop l w) = proj w) ->
  (forall bu w, proj (snd (set_baseunit bu w)) = proj w) ->
  (forall f, (forall s, Translator._state (f s) = Translator._state s) ->
             (forall s, Translator._ha_state (f s) = Translator._ha_state s) ->
             keeps proj (modify_self f)) ->
  is_properties_changed i = false ->
  is_baseunit_event i = false ->
  is_deliver i = false ->
  keeps proj (react L i).
Proof.
  intros Hout Hloop Hbu Hself H1 H2 H3.
  assert (Hemit : forall e, keeps proj (emit e)).
  { intros e. apply (keeps_only_emits _ _ Hout), only_emits_emit. }
  assert (Hread : forall A (f : World -> result A), keeps proj (fun w => (f w, w))).
  { by intros A f w. }
  assert (Hcancel : forall h, keeps proj (handle_cancel h)).
  { intros h w. apply Hloop. }
  assert (Hlater : forall delay arg, keeps proj (call_later delay arg)).
  { intros delay arg w. apply Hloop. }
  assert (Hraise : forall A e, keeps proj (raise e : M A)).
  { by intros A e w. }
  assert (Hpass : keeps proj pass) by apply keeps_ret.
  destruct i; try discriminate; cbn [react].
  - unfold _mqtt_on_connect.
    repeat first
      [ apply Hemit | apply Hraise | apply keeps_ret | apply Hpass
      | apply (Hread _ (fun w => Ok (self w)))
      | apply (Hread _ (fun w => Ok (baseunit w)))
      | apply Hself; by intros ?
      | keeps_step ].
  - unfold _mqtt_on_disconnect.
    repeat first
      [ apply Hemit | apply Hpass | apply Hself; by intros ? | keeps_step ].
  - unfold _mqtt_on_message. apply Hself; by intros ?.
  - intros w. apply Hbu.
  - apply (keeps_only_emits _ _ Hout), only_emits_baseunit_device_added.
  - unfold _device_on_event.
    repeat first
      [ apply Hemit | apply Hraise | apply keeps_ret | apply Hpass
      | apply Hcancel | apply Hlater
      | apply (Hread _ (fun w => Ok (self w)))
      | apply Hself; by intros ?
      | keeps_step ].
  - apply (keeps_only_emits _ _ Hout), only_emits_device_on_properties_changed.
  - apply keeps_timer, keeps_fire; [done|]. intros device_id.
    unfold _auto_reset.
    repeat first
      [ apply Hemit | apply Hraise | apply keeps_ret | apply Hpass
      | apply (Hread _ (fun w => Ok (self w)))
      | apply Hself; by intros ?
      | keeps_step ].
  - intros w. apply Hloop.
  - unfold async_start.
    repeat first [ apply Hemit | apply Hself; by intros ? | keeps_step ].
  - unfold async_stop.
    repeat first
      [ apply Hemit | apply Hraise | apply Hcancel
      | apply (Hread _ (fun w => Ok (self w)))
      | apply Hself; by intros ?
      | keeps_step ].
  - unfold signal_shutdown.
    repeat first [ apply Hself; by intros ? | keeps_step ].
Qed.

Lemma keeps_raw_state_baseunit_event (contact_id : ContactID.t) :
  keeps raw_state (_baseunit_event contact_id).
Proof. unfold _baseunit_event. repeat keeps_step. Qed.

Lemma keeps_raw_state_dispatch (message : option MQTTMessage.t) :
  keeps raw_state (async_loop_dispatch L message).
Proof.
  apply (keeps_deliver _ raw_state_out). intros st m.
  unfold _on_message_baseunit. repeat keeps_step.
Qed.

Lemma keeps_raw_state_deliver : keeps raw_state (deliver L).
Proof.
  unfold deliver. apply keeps_bind; [by intros ?|]. intros s.
  destruct (Translator._pending_messages s); [by intros ?|].
  apply keeps_bind; [by intros ?|]. intros _.
  apply keeps_raw_state_dispatch.
Qed.

(** An alarm event sets the hub state to triggered, any other event leaves
    it. *)
Lemma ha_state_baseunit_event (contact_id : ContactID.t) (w : World) :
  ha_state (run (_baseunit_event contact_id) w) = ha_state w
  \/ ha_state (run (_baseunit_event contact_id) w) = Some STATE_TRIGGERED.
Proof.
  unfold _baseunit_event. exec.
  destruct (ContactID.event_code contact_id) as [code|];
    [destruct (code =? 0)|];
    destruct (ContactID.event_qualifier contact_id),
      (ContactID.event_category contact_id); cbn; auto.
Qed.

(** The operation-mode handler changes the hub state only from triggered to
    disarmed. *)
Lemma ha_state_on_message_baseunit (st : SubscribeTopic.t) (m : MQTTMessage.t)
    (w : World) :
  ha_state (snd (_on_message_baseunit L st m w)) = ha_state w
  \/ (ha_state w = Some STATE_TRIGGERED
      /\ ha_state (snd (_on_message_baseunit L st m w)) = Some STATE_DISARMED).
Proof.
  unfold _on_message_baseunit.
  destruct (SubscribeTopic.args st) as [args|]; [|by left].
  destruct (String.eqb args BaseUnit.PROP_OPERATION_MODE); [|by left].
  exec. destruct (decode_payload (MQTTMessage.payload m)) as [name|e]; [|by left].
  cbn. destruct (Lifesospy.OperationMode_parse_name L name) as [mode|]; [|by left].
  cbn. unfold ha_state.
  destruct (Translator._ha_state (self w)) as [h|] eqn:Hh;
    [|rewrite andb_false_r; cbn; rewrite Hh; by left].
  destruct (String.eqb h STATE_TRIGGERED) eqn:Heq;
    [|rewrite andb_false_r; cbn; rewrite Hh; by left].
  apply String.eqb_eq in Heq. subst h.
  destruct (OperationMode.eqb mode OperationMode.Disarm
            && eq_state L (Translator._state (self w)) BaseUnitState.Disarm);
    cbn; [by right | rewrite Hh; by left].
Qed.

Lemma ha_state_dispatch (message : option MQTTMessage.t) (w : World) :
  ha_state (snd (async_loop_dispatch L message w)) = ha_state w
  \/ (ha_state w = Some STATE_TRIGGERED
      /\ ha_state (snd (async_loop_dispatch L message w)) = Some STATE_DISARMED).
Proof.
  destruct message as [m|]; [|by left].
  unfold async_loop_dispatch, try_except, mbind, M_bind, get_self.
  destruct (_subscribetopics_lookup (self w) (MQTTMessage.topic m)) as [st|];
    [|by left].
  assert (Hhandler :
            ha_state (snd (call_handler L st m w)) = ha_state w
            \/ (ha_state w = Some STATE_TRIGGERED
                /\ ha_state (snd (call_handler L st m w)) = Some STATE_DISARMED)).
  { unfold call_handler. destruct (SubscribeTopic.on_message st).
    - left. apply (keeps_only_emits _ _ ha_state_out),
        only_emits_on_message_clear_status.
    - left. apply (keeps_only_emits _ _ ha_state_out),
        only_emits_on_message_set_datetime.
    - apply ha_state_on_message_baseunit.
    - left. apply (keeps_only_emits _ _ ha_state_out), only_emits_on_message. }
  destruct (call_handler L st m w) as [[[]|e] w1]; exact Hhandler.
Qed.

(** X5. The raw base-unit state kept by the translator changes only when the
    base unit reports changed properties.  The derived hub state changes only
    then, on a base-unit event, where it stays or becomes triggered, and on
    the delivery of a message, where it stays or goes from triggered to
    disarmed: connects, disconnects, device reports, timers, start, stop and
    the shutdown signal never touch either. *)
Theorem hub_state_changes_only_on_reports (w : World) (i : input) :
  (is_properties_changed i = false -> raw_state (step L w i) = raw_state w)
  /\ (is_properties_changed i = false ->
      is_baseunit_event i = false ->
      is_deliver i = false ->
      ha_state (step L w i) = ha_state w)
  /\ (is_baseunit_event i = true ->
      ha_state (step L w i) = ha_state w
      \/ ha_state (step L w i) = Some STATE_TRIGGERED)
  /\ (is_deliver i = true ->
      ha_state (step L w i) = ha_state w
      \/ (ha_state w = Some STATE_TRIGGERED
          /\ ha_state (step L w i) = Some STATE_DISARMED)).
Proof.
  split; [|split; [|split]].
  - intros Hp. unfold step, run.
    destruct (is_baseunit_event i) eqn:He.
    { destruct i; try discriminate. apply keeps_raw_state_baseunit_event. }
    destruct (is_deliver i) eqn:Hd.
    { destruct i; try discriminate. apply keeps_raw_state_deliver. }
    apply (keeps_hub_state_react raw_state); try done.
    intros f Hstate _ w'. apply Hstate.
  - intros Hp He Hd. unfold step, run.
    apply (keeps_hub_state_react ha_state); try done.
    intros f _ Hha w'. apply Hha.
  - intros He. destruct i; try discriminate. apply ha_state_baseunit_event.
  - intros Hd. destruct i; try discriminate.
    unfold step, run. cbn [react]. unfold deliver, mbind, M_bind, get_self.
    destruct (Translator._pending_messages (self w)) as [|first rest];
      [by left|].
    cbn [modify_self].
    apply (ha_state_dispatch first
             (with_self (Translator.with_pending_messages rest (self w)) w)).
Qed.

(** ** The registry and the router *)

Lemma lookup_sound (s : Translator.t) (topic : string) (st : SubscribeTopic.t) :
  _subscribetopics_lookup s topic = Some st ->
  In st (Translator._subscribetopics s) /\ SubscribeTopic.topic st = topic.
Proof.
  unfold _subscribetopics_lookup. intros H.
  apply last_Some_elem_of, list_elem_of_In, filter_In in H as [Hin Heq].
  split; [done|]. by apply String.eqb_eq.
Qed.

Lemma lookup_None (s : Translator.t) (topic : string) :
  _subscribetopics_lookup s topic = None <->
  ~ In topic (map SubscribeTopic.topic (Translator._subscribetopics s)).
Proof.
  unfold _subscribetopics_lookup. rewrite last_None.
  generalize (Translator._subscribetopics s). intros l.
  induction l as [|st l IH]; cbn; [tauto|].
  destruct (String.eqb (SubscribeTopic.topic st) topic) eqn:Heq.
  - apply String.eqb_eq in Heq. split; [done|]. intros H. exfalso. auto.
  - apply String.eqb_neq in Heq. rewrite IH. tauto.
Qed.

(** The entry made last for a topic is the one the lookup gives. *)
Lemma lookup_last (s : Translator.t) (before after : list SubscribeTopic.t)
    (st : SubscribeTopic.t) :
  Translator._subscribetopics s = before ++ st :: after ->
  ~ In (SubscribeTopic.topic st) (map SubscribeTopic.topic after) ->
  _subscribetopics_lookup s (SubscribeTopic.topic st) = Some st.
Proof.
  intros Hl Hnot. unfold _subscribetopics_lookup. rewrite Hl.
  rewrite List.filter_app. cbn [List.filter]. rewrite String.eqb_refl.
  assert (Hafter : List.filter
                     (fun st' => String.eqb (SubscribeTopic.topic st')
                                   (SubscribeTopic.topic st)) after = []).
  { clear Hl. induction after as [|st' after IH]; [done|]. cbn in *.
    destruct (String.eqb (SubscribeTopic.topic st') (SubscribeTopic.topic st))
      eqn:Heq.
    - apply String.eqb_eq in Heq. exfalso. auto.
    - apply IH. tauto. }
  rewrite Hafter. apply last_snoc.
Qed.

Lemma command_topics_distinct (B : string) :
  NoDup (map SubscribeTopic.topic (command_routes B)).
Proof.
  unfold command_routes, fmt2, fmt3. cbn [map SubscribeTopic.topic SubscribeTopic.make].
  repeat constructor; rewrite ?elem_of_cons, ?elem_of_nil; intros H;
    repeat destruct H as [H|H]; try done;
    apply String.app_inj in H; discriminate.
Qed.

Lemma registry_init (config : Config.t) :
  let tc := Config.translator config in
  Translator._subscribetopics (__init__ config) =
    command_routes (TranslatorBaseUnitConfig.topic (TranslatorConfig.baseunit tc))
    ++ (if opt_str_truthy (TranslatorConfig.birth_topic tc)
        then [SubscribeTopic.make (str_of_opt (TranslatorConfig.birth_topic tc))
                SubscribeTopic._on_message None]
        else []).
Proof. reflexivity. Qed.

Lemma lookup_command (config : Config.t) (st : SubscribeTopic.t) :
  let tc := Config.translator config in
  In st (command_routes
           (TranslatorBaseUnitConfig.topic (TranslatorConfig.baseunit tc))) ->
  TranslatorConfig.birth_topic tc <> Some (SubscribeTopic.topic st) ->
  _subscribetopics_lookup (__init__ config) (SubscribeTopic.topic st) = Some st.
Proof.
  intros tc Hin Hbirth.
  set (B := TranslatorBaseUnitConfig.topic (TranslatorConfig.baseunit tc)) in *.
  pose proof (command_topics_distinct B) as Hnodup.
  apply list_elem_of_In, list_elem_of_split in Hin as (before & after & Hsplit).
  apply (lookup_last _ before
           (after ++ if opt_str_truthy (TranslatorConfig.birth_topic tc)
                     then [SubscribeTopic.make
                             (str_of_opt (TranslatorConfig.birth_topic tc))
                             SubscribeTopic._on_message None]
                     else [])).
  - rewrite registry_init. fold tc B. rewrite Hsplit.
    by rewrite <- app_assoc.
  - rewrite Hsplit, map_app in Hnodup. cbn [map] in Hnodup.
    apply NoDup_app in Hnodup as (_ & _ & Hnodup).
    apply NoDup_cons in Hnodup as [Hnot _].
    rewrite map_app, in_app_iff. intros [Hafter|Hb].
    + apply Hnot. by apply list_elem_of_In.
    + destruct (TranslatorConfig.birth_topic tc) as [b|]; [|done].
      cbn in Hb. destruct (str_truthy b); [|done].
      cbn in Hb. destruct Hb as [->|[]]. by apply Hbirth.
Qed.

Lemma lookup_birth (config : Config.t) (b : string) :
  let tc := Config.translator config in
  TranslatorConfig.birth_topic tc = Some b ->
  str_truthy b = true ->
  _subscribetopics_lookup (__init__ config) b =
    Some (SubscribeTopic.make b SubscribeTopic._on_message None).
Proof.
  intros tc Hb Htruthy.
  apply (lookup_last _
           (command_routes
              (TranslatorBaseUnitConfig.topic (TranslatorConfig.baseunit tc)))
           [] (SubscribeTopic.make b SubscribeTopic._on_message None)).
  - rewrite registry_init. fold tc. rewrite Hb. cbn. by rewrite Htruthy.
  - by intros [].
Qed.

(** X6. The lookup table [__init__] builds from the registry: a topic that is
    found gives an entry of the registry made for that topic, and a topic is
    missing exactly when no entry was made for it; the three command topics
    differ from one another for every base topic, and each leads to its own
    handler unless the birth topic is the same string, since the entry made
    last wins: a birth topic set to a command topic takes that topic over. *)
Theorem registry_routes_topics (config : Config.t) :
  let s := __init__ config in
  let tc := Config.translator config in
  let B := TranslatorBaseUnitConfig.topic (TranslatorConfig.baseunit tc) in
  (forall topic st,
      _subscribetopics_lookup s topic = Some st ->
      In st (Translator._subscribetopics s) /\ SubscribeTopic.topic st = topic)
  /\ (forall topic,
        _subscribetopics_lookup s topic = None <->
        ~ In topic (map SubscribeTopic.topic (Translator._subscribetopics s)))
  /\ NoDup (map SubscribeTopic.topic (command_routes B))
  /\ (forall st,
        In st (command_routes B) ->
        TranslatorConfig.birth_topic tc <> Some (SubscribeTopic.topic st) ->
        _subscribetopics_lookup s (SubscribeTopic.topic st) = Some st)
  /\ (forall b,
        TranslatorConfig.birth_topic tc = Some b ->
        str_truthy b = true ->
        _subscribetopics_lookup s b =
          Some (SubscribeTopic.make b SubscribeTopic._on_message None)).
Proof.
  intros s tc B.
  split; [apply lookup_sound|].
  split; [apply lookup_None|].
  split; [apply command_topics_distinct|].
  split; [apply lookup_command | apply lookup_birth].
Qed.

(** The router catches what the handler raises. *)
Lemma dispatch_found (w : World) (m : MQTTMessage.t) (st : SubscribeTopic.t) :
  _subscribetopics_lookup (self w) (MQTTMessage.topic m) = Some st ->
  async_loop_dispatch L (Some m) w =
    match call_handler L st m w with
    | (Ok a, w') => (Ok a, w')
    | (Raise e, w') =>
        (Ok tt, with_out (out w' ++ [log_exception (MQTTMessage.topic m) e]) w')
    end.
Proof.
  intros Hlook.
  unfold async_loop_dispatch, try_except, mbind, M_bind, get_self.
  rewrite Hlook. by destruct (call_handler L st m w) as [[[]|e] w1].
Qed.

(** X7. One turn of the router never raises on a message, whatever the
    handler does: a topic with no entry is logged as a [KeyError] and
    nothing else happens; an exception of the handler is logged after what
    the handler did before raising; a handler that returns is all there is.
    The sentinel put on the queue at shutdown is not a message: dispatching
    it raises [AttributeError] out of the loop and leaves the world alone. *)
Theorem router_survives_handlers (w : World) (m : MQTTMessage.t) :
  outcome (async_loop_dispatch L (Some m)) w = Ok tt
  /\ (_subscribetopics_lookup (self w) (MQTTMessage.topic m) = None ->
      run (async_loop_dispatch L (Some m)) w =
        with_out (out w ++ [log_exception (MQTTMessage.topic m) KeyError]) w)
  /\ (forall st,
        _subscribetopics_lookup (self w) (MQTTMessage.topic m) = Some st ->
        outcome (call_handler L st m) w = Ok tt ->
        run (async_loop_dispatch L (Some m)) w = run (call_handler L st m) w)
  /\ (forall st e,
        _subscribetopics_lookup (self w) (MQTTMessage.topic m) = Some st ->
        outcome (call_handler L st m) w = Raise e ->
        run (async_loop_dispatch L (Some m)) w =
          with_out
            (out (run (call_handler L st m) w)
             ++ [log_exception (MQTTMessage.topic m) e])
            (run (call_handler L st m) w))
  /\ async_loop_dispatch L None w = (Raise AttributeError, w).
Proof.
  split; [|split; [|split; [|split]]].
  - destruct (_subscribetopics_lookup (self w) (MQTTMessage.topic m)) as [st|]
      eqn:Hlook.
    + unfold outcome. rewrite (dispatch_found w m st Hlook).
      by destruct (call_handler L st m w) as [[[]|e] w1].
    + unfold outcome, async_loop_dispatch, try_except, mbind, M_bind, get_self.
      by rewrite Hlook.
  - intros Hlook.
    unfold run, async_loop_dispatch, try_except, mbind, M_bind, get_self.
    by rewrite Hlook.
  - intros st Hlook. unfold run, outcome. rewrite (dispatch_found w m st Hlook).
    destruct (call_handler L st m w) as [[[]|e] w1]; [done|discriminate].
  - intros st e Hlook. unfold run, outcome. rewrite (dispatch_found w m st Hlook).
    destruct (call_handler L st m w) as [[[]|e'] w1]; [discriminate|].
    by intros [= ->].
  - reflexivity.
Qed.

(** ** Exceptions a method cannot raise *)

Lemma never_raises_ret {A} (e : exn) (a : A) : never_raises e (mret a : M A).
Proof. by intros w. Qed.

Lemma never_raises_raise {A} (e e' : exn) :
  e' <> e -> never_raises e (raise e' : M A).
Proof. intros Hne w. unfold outcome, raise. cbn. congruence. Qed.

Lemma never_raises_bind {A B} (e : exn) (m : M A) (f : A -> M B) :
  never_raises e m -> (forall a, never_raises e (f a)) -> never_raises e (m ≫= f).
Proof.
  intros Hm Hf w. specialize (Hm w). unfold outcome, mbind, M_bind in *.
  destruct (m w) as [[a|e'] w1]; cbn in *; [apply Hf | congruence].
Qed.

Lemma never_raises_for {A} (e : exn) (l : list A) (body : A -> M unit) :
  (forall x, never_raises e (body x)) -> never_raises e (for_ l body).
Proof.
  intros Hbody. induction l as [|x l IH]; cbn [for_].
  - apply never_raises_ret.
  - apply never_raises_bind; [apply Hbody | by intros _].
Qed.

Lemma never_raises_payload_text (e : exn) (m : MQTTMessage.t) :
  e <> UnicodeDecodeError -> never_raises e (payload_text m).
Proof.
  intros Hne w. unfold outcome, payload_text, decode_payload. cbn.
  destruct (MQTTMessage.payload m); [done|].
  destruct (decode _); [done | congruence].
Qed.

Ltac never_step :=
  lazymatch goal with
  | |- never_raises _ (mbind _ _) => apply never_raises_bind; [|intros ?]
  | |- never_raises _ (for_ _ _) => apply never_raises_for; intros ?
  | |- never_raises _ (raise _) => apply never_raises_raise; discriminate
  | |- never_raises _ (payload_text _) =>
      apply never_raises_payload_text; discriminate
  | |- never_raises _ translator_config => unfold translator_config
  | |- never_raises _ (set_ha_state _) => unfold set_ha_state
  | |- never_raises _ (match ?x with _ => _ end) => destruct x
  | |- never_raises _ (let _ := _ in _) => cbv zeta
  | |- never_raises _ _ => by intros ?
  end.

Lemma never_not_implemented_publish_ha_config :
  never_raises NotImplementedError (_publish_ha_config L).
Proof.
  unfold _publish_ha_config, _publish_baseunit_config.
  apply never_raises_bind; [repeat never_step|]. intros cfg.
  destruct (negb _); [repeat never_step|].
  apply never_raises_bind; [repeat never_step|]. intros _.
  generalize (PyDict.keys (TranslatorConfig.devices cfg)). intros keys.
  induction keys as [|k keys IH]; cbn [publish_ha_config_loop];
    [repeat never_step|].
  unfold publish_device_configs, _publish_device_config,
    _publish_device_rssi_config, _publish_device_battery_config,
    _add_device_identifiers.
  repeat first [apply IH | never_step].
Qed.

(** The handlers of the registry [__init__] makes never raise
    [NotImplementedError]. *)
Lemma never_not_implemented_handler (config : Config.t) (st : SubscribeTopic.t)
    (m : MQTTMessage.t) :
  In st (Translator._subscribetopics (__init__ config)) ->
  never_raises NotImplementedError (call_handler L st m).
Proof.
  rewrite registry_init. cbv zeta. rewrite in_app_iff. intros [Hin|Hin].
  - unfold command_routes in Hin. cbn [In] in Hin.
    destruct Hin as [<-|[<-|[<-|[]]]]; unfold call_handler; cbn.
    + unfold _on_message_clear_status. repeat never_step.
    + unfold _on_message_set_datetime. repeat never_step.
    + unfold _on_message_baseunit. cbn. repeat never_step.
  - destruct (opt_str_truthy _); [|done]. destruct Hin as [<-|[]].
    unfold call_handler, _on_message. cbn.
    repeat first [apply never_not_implemented_publish_ha_config | never_step].
Qed.

(** X8. The branch of the base-unit message handler that raises
    [NotImplementedError] is never reached in a running translator: whatever
    happened since [__init__], the entry the router finds for a message has a
    handler that does not raise it, because the only entry bound to that
    handler carries the argument [operation_mode]. *)
Theorem not_implemented_is_unreachable (config : Config.t) (bu : BaseUnit.t)
    (inputs : list input) (m : MQTTMessage.t) (st : SubscribeTopic.t) :
  let w := steps L (initial config bu) inputs in
  _subscribetopics_lookup (self w) (MQTTMessage.topic m) = Some st ->
  outcome (call_handler L st m) w <> Raise NotImplementedError.
Proof.
  intros w Hlook. apply lookup_sound in Hlook as [Hin _].
  pose proof (fixed_part_steps (initial config bu) inputs) as Hfixed.
  fold w in Hfixed. unfold fixed_part in Hfixed. injection Hfixed as _ Hreg.
  rewrite Hreg in Hin. by apply (never_not_implemented_handler config).
Qed.


(** X10. From the broker to the adapter: in a running translator with an
    empty queue, a message on one of the three command topics, once
    delivered, runs the handler of that topic under the router's catch-all
    and nothing else, provided the birth topic is not that topic.  On the
    clear-status topic this schedules the clear-status command whatever the
    payload. *)
Theorem command_message_reaches_its_handler (config : Config.t)
    (bu : BaseUnit.t) (inputs : list input) (st : SubscribeTopic.t)
    (payload : bytes) :
  let tc := Config.translator config in
  let B := TranslatorBaseUnitConfig.topic (TranslatorConfig.baseunit tc) in
  let w := steps L (initial config bu) inputs in
  let m := {| MQTTMessage.topic := SubscribeTopic.topic st;
              MQTTMessage.payload := payload |} in
  In st (command_routes B) ->
  TranslatorConfig.birth_topic tc <> Some (SubscribeTopic.topic st) ->
  pending w = [] ->
  steps L w [InMessage m; InDeliver] =
    run (try_except (call_handler L st m)
           (fun e => emit (log_exception (SubscribeTopic.topic st) e))) w
  /\ (SubscribeTopic.on_message st = SubscribeTopic._on_message_clear_status ->
      steps L w [InMessage m; InDeliver] =
        with_out (out w ++ [CreateTask async_clear_status]) w).
Proof.
  intros tc B w m Hin Hbirth Hq.
  assert (Hlook : _subscribetopics_lookup (self w) (MQTTMessage.topic m) = Some st).
  { pose proof (fixed_part_steps (initial config bu) inputs) as Hfixed.
    fold w in Hfixed. unfold fixed_part in Hfixed. injection Hfixed as _ Hreg.
    unfold _subscribetopics_lookup. rewrite Hreg.
    by apply (lookup_command config). }
  assert (Hsteps : steps L w [InMessage m; InDeliver] =
                     run (async_loop_dispatch L (Some m)) w).
  { unfold steps, fold_left, step, run. cbn [react].
    unfold _mqtt_on_message, modify_self. cbn [snd].
    unfold deliver, mbind, M_bind, get_self. cbn [self with_self].
    unfold pending in Hq.
    replace (Translator._pending_messages
               (Translator.with_pending_messages
                  (Translator._pending_messages (self w) ++ [Some m]) (self w)))
      with [Some m] by (cbn; by rewrite Hq).
    cbn [modify_self self with_self].
    replace (with_self _ (with_self _ w)) with w; [done|].
    clear Hlook. clearbody w. destruct w as [[] ? ? ?].
    cbn in Hq. subst. reflexivity. }
  rewrite Hsteps. unfold run. rewrite (dispatch_found w m st Hlook).
  split.
  - unfold try_except, emit, log_exception.
    by destruct (call_handler L st m w) as [[[]|e] w1].
  - intros Hhandler. unfold call_handler. by rewrite Hhandler.
Qed.

(** X11. Subscriptions are made on an accepted connect only.  The first
    accepted connect of a new translator logs the connection, republishes the
    adapter's connectivity retained, and subscribes at QoS 1 to the three
    command topics and then, when a non-empty birth topic is configured, to
    the birth topic.  A connect the broker rejected logs the reason and does
    nothing else: no publish, no subscription, no bookkeeping. *)
Theorem connect_subscribes_when_accepted (config : Config.t) (bu : BaseUnit.t)
    (w : World) (result_code now : Z) :
  let tc := Config.translator config in
  let B := TranslatorBaseUnitConfig.topic (TranslatorConfig.baseunit tc) in
  out (step L (initial config bu) (InConnect CONNACK_ACCEPTED now)) =
    [Log DEBUG msg_connected;
     Publish (fmt2 B "is_connected") (PBool (BaseUnit.is_connected bu)) QOS_1 true;
     Subscribe (fmt2 B "clear_status") QOS_1;
     Subscribe (fmt3 B "datetime" "set") QOS_1;
     Subscribe (fmt3 B "operation_mode" "set") QOS_1]
    ++ (if opt_str_truthy (TranslatorConfig.birth_topic tc)
        then [Subscribe (str_of_opt (TranslatorConfig.birth_topic tc)) QOS_1]
        else [])
  /\ (result_code <> CONNACK_ACCEPTED ->
      _mqtt_on_connect result_code now w =
        (Ok tt, with_out (out w ++ [Log WARNING (msg_connack result_code)]) w)).
Proof.
  intros tc B. split.
  - unfold step, run, initial. cbn [react]. unfold _mqtt_on_connect.
    cbn [CONNACK_ACCEPTED Z.eqb negb].
    repeat (progress unfold_M). cbn -[for_ opt_str_truthy str_of_opt].
    rewrite for_emit. cbn -[opt_str_truthy str_of_opt].
    fold tc. fold B.
    by destruct (opt_str_truthy (TranslatorConfig.birth_topic tc)).
  - intros Hne. unfold _mqtt_on_connect.
    apply Z.eqb_neq in Hne. by rewrite Hne.
Qed.

(** ** Events of the base unit and of devices *)


(** X13. A device event other than Trigger, from a device configured with a
    topic [D]: the code is published, not retained, on [D/event_code]; a
    BatteryLow or PowerOnReset code also goes retained to [D/battery] and a
    Tamper gives a not retained true on [D/tamper].  The state topic [D] is
    not written, no timer is made or cancelled and the translator is left as
    it was.  A device configured with an empty topic is silent for every
    code, Trigger included: nothing is published and no timer is made. *)
Theorem device_event_without_trigger (w : World) (device : Device.t)
    (dc : TranslatorDeviceConfig.t) (event_code : DeviceEventCode.t) :
  let D := TranslatorDeviceConfig.topic dc in
  PyDict.get (device_configs w) (Device.device_id device) = Some dc ->
  (str_truthy D = true ->
   event_code <> DeviceEventCode.Trigger ->
   _device_on_event device event_code w =
     (Ok tt,
      with_out
        (out w ++
         Publish (D +:+ "/event_code") (PDeviceEventCode event_code) QOS_1 false
         :: match event_code with
            | DeviceEventCode.BatteryLow | DeviceEventCode.PowerOnReset =>
                [Publish (D +:+ "/battery") (PDeviceEventCode event_code)
                   QOS_1 true]
            | DeviceEventCode.Tamper =>
                [Publish (D +:+ "/tamper") (PBool true) QOS_1 false]
            | _ => []
            end) w)
     /\ publishes_to D (out (run (_device_on_event device event_code) w)) =
          publishes_to D (out w))
  /\ (str_truthy D = false -> _device_on_event device event_code w = (Ok tt, w)).
Proof.
  intros D Hget. unfold device_configs in Hget. split.
  - intros Htopic Hne.
    assert (Hrun : _device_on_event device event_code w =
      (Ok tt,
       with_out
         (out w ++
          Publish (D +:+ "/event_code") (PDeviceEventCode event_code) QOS_1 false
          :: match event_code with
             | DeviceEventCode.BatteryLow | DeviceEventCode.PowerOnReset =>
                 [Publish (D +:+ "/battery") (PDeviceEventCode event_code)
                    QOS_1 true]
             | DeviceEventCode.Tamper =>
                 [Publish (D +:+ "/tamper") (PBool true) QOS_1 false]
             | _ => []
             end) w)).
    { unfold _device_on_event. unfold mbind at 1, M_bind at 1.
      unfold translator_config, mbind at 1, M_bind at 1, get_self, mret, M_ret.
      rewrite Hget. fold D. rewrite Htopic.
      destruct event_code; try done; exec; reflexivity. }
    split; [exact Hrun|].
    unfold run. rewrite Hrun. cbn [snd with_out out].
    unfold publishes_to. rewrite List.filter_app.
    assert (Hneq : forall x y p q r, x = String "/" y ->
               is_publish_to D (Publish (D +:+ x) p q r) = false).
    { intros x y p q r ->. cbn. rewrite String.eqb_sym. apply subtopic_neq. }
    destruct event_code; try done; cbn [List.filter];
      rewrite ?(Hneq _ _ _ _ _ eq_refl); by rewrite app_nil_r.
  - intros Htopic. unfold _device_on_event. unfold mbind at 1, M_bind at 1.
    unfold translator_config, mbind at 1, M_bind at 1, get_self, mret, M_ret.
    rewrite Hget. fold D. by rewrite Htopic.
Qed.

(** X14. The auto-reset callback for a device with no entry in the table
    raises [KeyError] from the [pop], after the "Off" it publishes for a
    device configured with a topic.  In a running translator this does not
    happen: after any inputs a timer callback returns, and letting time pass
    returns. *)
Theorem auto_reset_needs_its_entry :
  (forall (w : World) (device_id : Z),
      Translator._auto_reset_handles (self w) !! device_id = None ->
      _auto_reset device_id w =
        (Raise KeyError,
         with_out
           (out w ++
            match PyDict.get (device_configs w) device_id with
            | Some dc =>
                if str_truthy (TranslatorDeviceConfig.topic dc)
                then [Publish (TranslatorDeviceConfig.topic dc)
                        (POnOff OnOff.Off) QOS_1 true]
                else []
            | None => []
            end) w))
  /\ (forall (config : Config.t) (bu : BaseUnit.t) (inputs : list input)
             (handle : nat) (T : Z),
        let w := steps L (initial config bu) inputs in
        outcome (timer handle) w = Ok tt
        /\ outcome (fire handle) w = Ok tt
        /\ outcome (run_until T) w = Ok tt).
Proof.
  split.
  - intros w device_id Hnone. unfold _auto_reset, device_configs.
    unfold pop_auto_reset_handle. exec.
    destruct (PyDict.get _ device_id) as [dc|]; cbn.
    + destruct (str_truthy (TranslatorDeviceConfig.topic dc)); cbn;
        rewrite Hnone; [done|].
      rewrite app_nil_r. by destruct w.
    + rewrite Hnone, app_nil_r. by destruct w.
  - intros config bu inputs handle T w.
    assert (Hok : timers_ok w) by apply timers_ok_steps, timers_ok_initial.
    assert (Hfire : outcome (fire handle) w = Ok tt).
    { destruct (Loop.handles (loop w) !! handle) as [t|] eqn:Hlook.
      - destruct (TimerHandle.live t) eqn:Hlive.
        + destruct (fire_publishes_off w handle (TimerHandle.args t) Hok)
            as (dc & _ & Hout & _); [by exists t | done].
        + unfold outcome, fire. by rewrite Hlook, Hlive.
      - unfold outcome, fire. by rewrite Hlook. }
    split; [|split; [done|apply run_until_complete]].
    unfold outcome, timer.
    destruct (Loop.handles (loop w) !! handle) as [t|]; [|done].
    destruct (due (Loop.time (loop w)) t); [exact Hfire | done].
Qed.

(** ** Device properties *)

Lemma filter_none {A} (f : A -> bool) (l : list A) :
  Forall (fun x => f x = false) l -> List.filter f l = [].
Proof.
  induction 1 as [|x l Hx _ IH]; [done|]. cbn. by rewrite Hx.
Qed.

Lemma subtopic3_neq (D name x : string) : String.eqb (fmt3 D name x) D = false.
Proof.
  rewrite String.eqb_sym. apply (subtopic_neq D (name +:+ "/" +:+ x)).
Qed.

Lemma subtopic2_neq (D name : string) : String.eqb (fmt2 D name) D = false.
Proof. rewrite String.eqb_sym. apply subtopic_neq. Qed.

(** X15. Whatever the property and its value, [_publish_device_property]
    makes retained publishes only, each on the device topic [D], on
    [D/<name>] or below [D/<name>/], and changes nothing else.  The device
    topic [D] itself is written in two cases only: for [is_closed] of a
    regular device, where a door magnet gets the parsed Open/Closed value and
    every other type gets "Off" whatever the value, and for
    [current_reading] of a special device, which gets the value.  The
    [is_closed] of a special device and the [current_reading] of a regular
    one are dropped. *)
Theorem device_topic_writers (w : World) (D : string) (device : Device.t)
    (name : string) (value : pyval) :
  let m := _publish_device_property L D device name value in
  emits_only (device_publish D name) m
  /\ (Device.is_special device = false ->
      name = Device.PROP_IS_CLOSED ->
      m w =
        (Ok tt,
         with_out
           (out w ++
            [Publish D
               match Device.type device with
               | DeviceType.DoorMagnet =>
                   POpenClosed (Lifesospy.OpenClosed_parse_value L value)
               | _ => POnOff OnOff.Off
               end QOS_1 true]) w))
  /\ (Device.is_special device = true ->
      name = SpecialDevice.PROP_CURRENT_READING ->
      m w = (Ok tt, with_out (out w ++ [Publish D (PValue value) QOS_1 true]) w))
  /\ (Device.is_special device = true -> name = Device.PROP_IS_CLOSED ->
      m w = (Ok tt, w))
  /\ (Device.is_special device = false ->
      name = SpecialDevice.PROP_CURRENT_READING ->
      m w = (Ok tt, w))
  /\ (name <> Device.PROP_IS_CLOSED ->
      name <> SpecialDevice.PROP_CURRENT_READING ->
      publishes_to D (out (run m w)) = publishes_to D (out w)).
Proof.
  intros m. subst m.
  split; [|split; [|split; [|split; [|split]]]].
  - unfold _publish_device_property, publish_flags.
    repeat emits_step_with
      ltac:(unfold device_publish; eexists _, _; split; [reflexivity|]; eauto).
  - intros Hs ->. unfold _publish_device_property. rewrite Hs. cbn.
    by destruct (Device.type device).
  - intros Hs ->. unfold _publish_device_property. rewrite Hs. by cbn.
  - intros Hs ->. unfold _publish_device_property. rewrite Hs. by cbn.
  - intros Hs ->. unfold _publish_device_property. rewrite Hs. by cbn.
  - intros Hclosed Hreading.
    assert (Hquiet : emits_only (fun e => is_publish_to D e = false)
                       (_publish_device_property L D device name value)).
    { unfold _publish_device_property, publish_flags.
      apply String.eqb_neq in Hclosed, Hreading.
      rewrite Hclosed, Hreading, !andb_false_r.
      repeat emits_step_with
        ltac:(first [apply subtopic2_neq | apply subtopic3_neq]). }
    destruct (Hquiet w) as (delta & Hrun & Hdelta).
    unfold run. rewrite Hrun. cbn [out with_out].
    unfold publishes_to. rewrite List.filter_app, (filter_none _ _ Hdelta).
    apply app_nil_r.
Qed.

(** X16. The category of a device: of the items of the category's
    dictionary only [code] and [description] are published, each retained on
    [D/category/<key>], in the order of the dictionary, and the other items
    are dropped.  A value that is no category object has no [as_dict]: the
    handler raises [AttributeError] and nothing is published. *)
Theorem category_publishes_code_and_description (w : World) (D : string)
    (device : Device.t) (value : pyval) :
  (forall as_dict,
      value = VCategory as_dict ->
      _publish_device_property L D device Device.PROP_CATEGORY value w =
        (Ok tt,
         with_out
           (out w ++
            map (fun prop =>
                   Publish (fmt3 D "category" (fst prop)) (PStr (snd prop))
                     QOS_1 true)
              (List.filter
                 (fun prop => existsb (String.eqb (fst prop))
                                ["code"; "description"])
                 as_dict)) w))
  /\ ((forall as_dict, value <> VCategory as_dict) ->
      _publish_device_property L D device Device.PROP_CATEGORY value w =
        (Raise AttributeError, w)).
Proof.
  unfold _publish_device_property.
  change (String.eqb Device.PROP_CATEGORY Device.PROP_IS_CLOSED) with false.
  change (String.eqb Device.PROP_CATEGORY SpecialDevice.PROP_CURRENT_READING)
    with false.
  rewrite !andb_false_r.
  change (String.eqb Device.PROP_CATEGORY Device.PROP_CATEGORY) with true.
  cbv iota. split.
  - intros as_dict ->. revert w.
    induction as_dict as [|prop as_dict IH]; intros w.
    + cbn. by rewrite with_out_same.
    + cbn [for_ List.filter]. unfold mbind, M_bind.
      destruct (existsb (String.eqb (fst prop)) ["code"; "description"]).
      * unfold _publish, emit. rewrite IH. cbn [map].
        unfold with_out. cbn. by rewrite <- app_assoc.
      * unfold pass, mret, M_ret. apply IH.
  - intros Hvalue. destruct value; try done. by destruct (Hvalue as_dict).
Qed.

(** X17. Flag sets and the device id need an integer.  For a value that is
    no integer, a flag-set property raises [TypeError] at its first flag
    (and does nothing when its enumeration is empty) and [device_id] raises
    [ValueError] for a string and [TypeError] otherwise; nothing is published
    in either case.  An integer device id is published retained on
    [D/device_id] as six lower-case hexadecimal digits. *)
Theorem flags_and_device_id_need_integers (w : World) (D : string)
    (device : Device.t) (value : pyval) :
  (py_int L value = None ->
   (forall name flags,
       In (name, flags) (spec_flag_sets L) ->
       _publish_device_property L D device name value w =
         (match flags with
          | [] => Ok tt
          | _ :: _ => Raise TypeError
          end, w))
   /\ _publish_device_property L D device Device.PROP_DEVICE_ID value w =
        (Raise match value with
               | VStr _ => ValueError
               | _ => TypeError
               end, w))
  /\ (forall z,
        py_int L value = Some z ->
        _publish_device_property L D device Device.PROP_DEVICE_ID value w =
          (Ok tt,
           with_out
             (out w ++
              [Publish (fmt2 D "device_id") (PStr (format_06x z)) QOS_1 true])
             w)).
Proof.
  split.
  - intros Hv. split.
    + intros name flags Hin. unfold spec_flag_sets in Hin. cbn [In] in Hin.
      unfold _publish_device_property, publish_flags. rewrite Hv.
      destruct Hin as [[= <- <-]|[[= <- <-]|[[= <- <-]|[[= <- <-]|[]]]]];
        cbn [String.eqb Ascii.eqb Bool.eqb andb negb
               Device.PROP_IS_CLOSED SpecialDevice.PROP_CURRENT_READING
               Device.PROP_CATEGORY Device.PROP_CHARACTERISTICS
               Device.PROP_ENABLE_STATUS Device.PROP_SWITCHES
               SpecialDevice.PROP_SPECIAL_STATUS];
        rewrite !andb_false_r;
        match goal with
        | |- for_ ?l _ _ = _ => by destruct l
        end.
    + unfold _publish_device_property. rewrite Hv.
      cbn [String.eqb Ascii.eqb Bool.eqb andb negb
             Device.PROP_IS_CLOSED SpecialDevice.PROP_CURRENT_READING
             Device.PROP_CATEGORY Device.PROP_CHARACTERISTICS
             Device.PROP_ENABLE_STATUS Device.PROP_SWITCHES
             SpecialDevice.PROP_SPECIAL_STATUS Device.PROP_DEVICE_ID].
      rewrite !andb_false_r. by destruct value.
  - intros z Hv. unfold _publish_device_property. rewrite Hv.
    cbn [String.eqb Ascii.eqb Bool.eqb andb negb
           Device.PROP_IS_CLOSED SpecialDevice.PROP_CURRENT_READING
           Device.PROP_CATEGORY Device.PROP_CHARACTERISTICS
           Device.PROP_ENABLE_STATUS Device.PROP_SWITCHES
           SpecialDevice.PROP_SPECIAL_STATUS Device.PROP_DEVICE_ID].
    by rewrite !andb_false_r.
Qed.

(** ** Device ids in hexadecimal *)

Lemma length_append (s1 s2 : string) :
  String.length (s1 +:+ s2) = (String.length s1 + String.length s2)%nat.
Proof.
  induction s1 as [|c s1 IH]; [done|].
  change (S (String.length (s1 +:+ s2)) = S (String.length s1 + String.length s2)).
  by rewrite IH.
Qed.

Lemma length_zeros (n : nat) : String.length (zeros n) = n.
Proof. induction n as [|n IH]; [done|]. cbn. by rewrite IH. Qed.

Lemma length_zfill (width : nat) (s : string) :
  String.length (zfill width s) = Nat.max width (String.length s).
Proof. unfold zfill. rewrite length_append, length_zeros. lia. Qed.

Lemma to_N_zeros (n : nat) (s : string) :
  HexString.Raw.to_N (zeros n +:+ s) 0 = HexString.Raw.to_N s 0.
Proof.
  induction n as [|n IH]; [done|].
  change (HexString.Raw.to_N (zeros n +:+ s) 0 = HexString.Raw.to_N s 0).
  exact IH.
Qed.

(** Reading the digits back gives the number. *)
Lemma to_N_hex_of_N (n : N) : HexString.Raw.to_N (hex_of_N n) 0 = n.
Proof.
  destruct n as [|p]; [done|]. unfold hex_of_N.
  by rewrite HexString.Raw.to_N_of_pos.
Qed.

Lemma to_N_format_06x (z : Z) :
  0 <= z -> HexString.Raw.to_N (format_06x z) 0 = Z.to_N z.
Proof.
  intros Hz. unfold format_06x.
  destruct (z <? 0) eqn:Hneg; [lia|].
  unfold zfill. rewrite to_N_zeros, to_N_hex_of_N. lia.
Qed.

(** A number below [16^n] has at most [n] digits. *)
Lemma length_of_pos (n : nat) :
  forall (p : positive) (rest : string),
    (N.pos p < 16 ^ N.of_nat n)%N ->
    (String.length (HexString.Raw.of_pos p rest) <= n + String.length rest)%nat.
Proof.
  induction n as [|n IH]; intros p rest Hp.
  - cbn in Hp. lia.
  - rewrite Nat2N.inj_succ, N.pow_succ_r' in Hp.
    do 4 (try match goal with
              | q : positive |- _ => destruct q
              end);
      cbn [HexString.Raw.of_pos String.length]; try lia;
      (etrans; [apply IH; lia | cbn [String.length]; lia]).
Qed.

Lemma length_hex_of_N (n : N) :
  (n < 16 ^ 6)%N -> (String.length (hex_of_N n) <= 6)%nat.
Proof.
  destruct n as [|p]; [cbn; lia|]. intros Hp. unfold hex_of_N.
  pose proof (length_of_pos 6 p "" Hp) as H. cbn [String.length] in H. lia.
Qed.

(** X18. The hexadecimal form of a device id, as used in the [device_id]
    topic and in the ids and topics of the discovery documents: it has at
    least six characters, exactly six for an id of up to 24 bits, and two
    ids that are not negative and differ have different forms, so the
    discovery ids [lifesos_<hex>] of two devices never collide. *)
Theorem device_id_hex_is_unique :
  (forall z, (6 <= String.length (format_06x z))%nat)
  /\ (forall z, 0 <= z < 16 ^ 6 -> String.length (format_06x z) = 6%nat)
  /\ (forall z1 z2,
        0 <= z1 -> 0 <= z2 -> format_06x z1 = format_06x z2 -> z1 = z2)
  /\ (forall z1 z2,
        0 <= z1 -> 0 <= z2 ->
        "lifesos_" +:+ format_06x z1 = "lifesos_" +:+ format_06x z2 ->
        z1 = z2).
Proof.
  assert (Hinj : forall z1 z2,
             0 <= z1 -> 0 <= z2 -> format_06x z1 = format_06x z2 -> z1 = z2).
  { intros z1 z2 H1 H2 Heq.
    pose proof (to_N_format_06x z1 H1) as E1.
    pose proof (to_N_format_06x z2 H2) as E2.
    rewrite Heq in E1. lia. }
  split; [|split; [|split]].
  - intros z. unfold format_06x. destruct (z <? 0).
    + rewrite length_append, length_zfill. cbn [String.length]. lia.
    + rewrite length_zfill. lia.
  - intros z Hz. unfold format_06x.
    destruct (z <? 0) eqn:Hneg; [lia|].
    rewrite length_zfill.
    assert (String.length (hex_of_N (Z.abs_N z)) <= 6)%nat; [|lia].
    apply length_hex_of_N. change (16 ^ 6)%N with 16777216%N.
    change (16 ^ 6) with 16777216 in Hz. lia.
  - exact Hinj.
  - intros z1 z2 H1 H2 Heq. apply String.app_inj in Heq. by apply Hinj.
Qed.

(** ** Discovery *)

(** X19. The discovery documents of a device with device info: three
    documents, none retained, under the discovery prefix: the entity of the
    device on [binary_sensor/lifesos_<hex>], its signal strength on
    [sensor/lifesos_<hex>_rssi] and its battery on
    [binary_sensor/lifesos_<hex>_battery].  Each names the topic the
    translator really writes: the device topic [D] with the payloads of the
    device's kind, [D/rssi_db], and [D/battery] with the BatteryLow and
    PowerOnReset codes as on and off; each is tied to the device by the
    identifier [LifeSOS_<hex>] and to the availability of the base unit.  A
    device type with no representation gets a warning in place of the first
    document and still gets the other two. *)
Theorem device_discovery_documents (w : World) (device : Device.t)
    (dc : TranslatorDeviceConfig.t) (info : PyDict.t string string) :
  let P := str_of_opt
             (TranslatorConfig.discovery_prefix
                (Config.translator (Translator._config (self w)))) in
  let D := TranslatorDeviceConfig.topic dc in
  let hex := format_06x (Device.device_id device) in
  let ids := JDict (PyDict.merge info [(IDENTIFIERS, "LifeSOS_" +:+ hex)]) in
  let available := JStr (fmt2 (base_topic w) "is_connected") in
  TranslatorDeviceConfig.device_info dc = Some info ->
  exists main rssi battery,
    publish_device_configs L device dc w =
      (Ok tt,
       with_out
         (out w ++ main ++
          [Publish (fmt_config P "sensor" ("lifesos_" +:+ hex +:+ "_rssi"))
             (PJson rssi) QOS_1 false;
           Publish (fmt_config P "binary_sensor" ("lifesos_" +:+ hex +:+ "_battery"))
             (PJson battery) QOS_1 false]) w)
    /\ match Device.type device with
       | DeviceType.Other _ =>
           main = [Log WARNING
                     (msg_device_type_skipped
                        (Lifesospy.str_DeviceType L (Device.type device)))]
       | type =>
           exists doc,
             main = [Publish (fmt_config P "binary_sensor" ("lifesos_" +:+ hex))
                       (PJson doc) QOS_1 false]
             /\ describes doc ("lifesos_" +:+ hex) D ids available
             /\ (PyDict.sget doc DEVICE_CLASS,
                 PyDict.sget doc PAYLOAD_ON,
                 PyDict.sget doc PAYLOAD_OFF) =
                match type with
                | DeviceType.SmokeDetector =>
                    (Some (JStr "smoke"), Some (JStr "On"), Some (JStr "Off"))
                | DeviceType.DoorMagnet =>
                    (Some (JStr "door"), Some (JStr "Open"), Some (JStr "Closed"))
                | _ =>
                    (Some (JStr "motion"), Some (JStr "On"), Some (JStr "Off"))
                end
       end
    /\ describes rssi ("lifesos_" +:+ hex +:+ "_rssi") (fmt2 D "rssi_db")
         ids available
    /\ describes battery ("lifesos_" +:+ hex +:+ "_battery") (D +:+ "/battery")
         ids available
    /\ PyDict.sget battery PAYLOAD_ON =
         Some (JStr (Lifesospy.str_DeviceEventCode L DeviceEventCode.BatteryLow))
    /\ PyDict.sget battery PAYLOAD_OFF =
         Some (JStr (Lifesospy.str_DeviceEventCode L DeviceEventCode.PowerOnReset)).
Proof.
  intros P D hex ids available Hinfo. subst P D hex ids available.
  unfold publish_device_configs, _publish_device_config,
    _publish_device_rssi_config, _publish_device_battery_config,
    _add_device_identifiers, base_topic.
  rewrite Hinfo.
  generalize (format_06x (Device.device_id device)). intros hex.
  generalize (TranslatorDeviceConfig.topic dc). intros D.
  generalize (PyDict.merge info [(IDENTIFIERS, "LifeSOS_" +:+ hex)]). intros ids.
  exec.
  destruct (Device.type device) eqn:Htype; cbn; rewrite <- ?app_assoc;
    cbn [app];
    eexists [_], _, _; (split; [reflexivity|]);
    unfold describes;
    (split; [first [reflexivity
                   | eexists; split; [reflexivity|];
                     split; [|reflexivity];
                     split; [reflexivity|]; split; [reflexivity|];
                     split; [reflexivity|]; split; [reflexivity|];
                     split; [reflexivity|]; split; reflexivity]|]);
    (split; [split; [reflexivity|]; split; [reflexivity|];
             split; [reflexivity|]; split; [reflexivity|];
             split; [reflexivity|]; split; reflexivity|]);
    (split; [split; [reflexivity|]; split; [reflexivity|];
             split; [reflexivity|]; split; [reflexivity|];
             split; [reflexivity|]; split; reflexivity|]);
    split; reflexivity.
Qed.

(** X20. Discovery needs the device info of the configuration.  Where the
    [device_info] setting is absent, building the document raises
    [TypeError] before anything is published: a device gets none of its three
    documents, whatever its type, also when it is added; and with the base
    unit's device info absent the whole discovery stops there, so no device
    document is published either. *)
Theorem discovery_needs_device_info (w : World) :
  let cfg := Config.translator (Translator._config (self w)) in
  (forall device dc,
      TranslatorDeviceConfig.device_info dc = None ->
      publish_device_configs L device dc w = (Raise TypeError, w))
  /\ (forall device dc,
        PyDict.get (TranslatorConfig.devices cfg) (Device.device_id device)
          = Some dc ->
        opt_str_truthy (TranslatorConfig.discovery_prefix cfg) = true ->
        str_truthy (TranslatorDeviceConfig.topic dc) = true ->
        TranslatorDeviceConfig.device_info dc = None ->
        _baseunit_device_added L device w = (Raise TypeError, w))
  /\ (opt_str_truthy (TranslatorConfig.discovery_prefix cfg) = true ->
      str_truthy (TranslatorBaseUnitConfig.topic (TranslatorConfig.baseunit cfg))
        = true ->
      TranslatorBaseUnitConfig.device_info (TranslatorConfig.baseunit cfg) = None ->
      _publish_ha_config L w = (Raise TypeError, w)).
Proof.
  intros cfg.
  assert (Hdevice : forall device dc,
             TranslatorDeviceConfig.device_info dc = None ->
             publish_device_configs L device dc w = (Raise TypeError, w)).
  { intros device dc Hinfo.
    unfold publish_device_configs, _publish_device_config,
      _add_device_identifiers.
    rewrite Hinfo. by exec. }
  split; [exact Hdevice|]. split.
  - intros device dc Hget Hprefix Htopic Hinfo.
    unfold _baseunit_device_added, mbind at 1, M_bind at 1.
    unfold translator_config, mbind at 1, M_bind at 1, get_self, mret, M_ret.
    fold cfg. rewrite Hget, Hprefix, Htopic. by apply Hdevice.
  - intros Hprefix Htopic Hinfo.
    unfold _publish_ha_config, mbind at 1, M_bind at 1.
    unfold translator_config, mbind at 1, M_bind at 1, get_self, mret, M_ret.
    fold cfg. rewrite Hprefix, Htopic. cbn [negb].
    unfold _publish_baseunit_config. rewrite Hinfo. by exec.
Qed.

Lemma get_keys {V} (d : PyDict.t Z V) (k : Z) :
  In k (PyDict.keys d) -> exists v, PyDict.get d k = Some v.
Proof.
  induction d as [|[k' v'] d IH]; [done|]. cbn.
  destruct (Z.eqb k' k) eqn:Heq; [eauto|].
  intros [->|Hin]; [by rewrite Z.eqb_refl in Heq | by apply IH].
Qed.

Lemma publish_ha_config_loop_spec (w : World) (keys : list Z) :
  Translator._shutdown (self w) = false ->
  (forall k, In k keys -> In k (PyDict.keys (device_configs w))) ->
  publish_ha_config_loop L keys w =
    for_
      (omap
         (fun device_id =>
            match PyDict.get (device_configs w) device_id,
                  PyDict.get (BaseUnit.devices (baseunit w)) device_id with
            | Some dc, Some device =>
                if str_truthy (TranslatorDeviceConfig.topic dc)
                then Some (device, dc) else None
            | _, _ => None
            end) keys)
      (fun item => publish_device_configs L (fst item) (snd item)) w.
Proof.
  intros Hshutdown Hkeys.
  assert (Hgen : forall delta,
    publish_ha_config_loop L keys (with_out (out w ++ delta) w) =
    for_
      (omap
         (fun device_id =>
            match PyDict.get (device_configs w) device_id,
                  PyDict.get (BaseUnit.devices (baseunit w)) device_id with
            | Some dc, Some device =>
                if str_truthy (TranslatorDeviceConfig.topic dc)
                then Some (device, dc) else None
            | _, _ => None
            end) keys)
      (fun item => publish_device_configs L (fst item) (snd item))
      (with_out (out w ++ delta) w)).
  { induction keys as [|k keys IH]; intros delta; [done|].
    cbn [publish_ha_config_loop omap list_omap].
    unfold mbind at 1, M_bind at 1, get_self. cbn [self with_out].
    rewrite Hshutdown.
    unfold mbind at 1, M_bind at 1, translator_config, mbind at 1, M_bind at 1,
      get_self, mret, M_ret.
    cbn [self with_out]. fold (device_configs w).
    destruct (get_keys (device_configs w) k) as [dc Hdc];
      [apply Hkeys; by left|].
    rewrite Hdc.
    unfold mbind at 1, M_bind at 1, get_baseunit. cbn [baseunit with_out].
    destruct (PyDict.get (BaseUnit.devices (baseunit w)) k) as [device|];
      [destruct (str_truthy (TranslatorDeviceConfig.topic dc))|].
    - cbn [for_ fst snd]. unfold mbind, M_bind.
      destruct (only_emits_publish_device_configs device dc
                  (with_out (out w ++ delta) w)) as (d1 & Hrun & _).
      destruct (publish_device_configs L device dc (with_out (out w ++ delta) w))
        as [[[]|e] w1]; cbn in Hrun; subst w1; [|done].
      unfold with_out. cbn. rewrite <- app_assoc.
      apply (IH (fun k' Hk' => Hkeys k' (or_intror Hk')) (delta ++ d1)).
    - unfold mbind, M_bind, pass, mret, M_ret.
      apply (IH (fun k' Hk' => Hkeys k' (or_intror Hk')) delta).
    - unfold mbind, M_bind, pass, mret, M_ret.
      apply (IH (fun k' Hk' => Hkeys k' (or_intror Hk')) delta). }
  specialize (Hgen []). by rewrite with_out_same in Hgen.
Qed.

(** X21. Which devices are discovered: with discovery enabled and no
    shutdown flagged, [_publish_ha_config] publishes the document of the base
    unit, if it has a topic, and then the documents of exactly the devices of
    the configuration that are enrolled on the base unit and have a topic, in
    the order of the configuration; a configured device the base unit does
    not know, or one with an empty topic, is passed over, and the lookup of
    a key of the table never fails.  With discovery disabled nothing
    happens; once shutdown is flagged no device document is published. *)
Theorem discovery_covers_enrolled_devices (w : World) :
  let cfg := Config.translator (Translator._config (self w)) in
  let baseunit_document :=
    if str_truthy (TranslatorBaseUnitConfig.topic (TranslatorConfig.baseunit cfg))
    then _publish_baseunit_config L (TranslatorConfig.baseunit cfg)
    else pass in
  (opt_str_truthy (TranslatorConfig.discovery_prefix cfg) = false ->
   _publish_ha_config L w = (Ok tt, w))
  /\ (opt_str_truthy (TranslatorConfig.discovery_prefix cfg) = true ->
      Translator._shutdown (self w) = false ->
      _publish_ha_config L w =
        (baseunit_document ;;
         for_ (discovered w)
           (fun item => publish_device_configs L (fst item) (snd item))) w)
  /\ (opt_str_truthy (TranslatorConfig.discovery_prefix cfg) = true ->
      Translator._shutdown (self w) = true ->
      _publish_ha_config L w = baseunit_document w).
Proof.
  intros cfg baseunit_document.
  assert (Hstart : forall (P : bool),
    opt_str_truthy (TranslatorConfig.discovery_prefix cfg) = P ->
    _publish_ha_config L w =
      if P then
        (baseunit_document ;;
         publish_ha_config_loop L (PyDict.keys (TranslatorConfig.devices cfg))) w
      else (Ok tt, w)).
  { intros P HP. unfold _publish_ha_config, mbind at 1, M_bind at 1.
    unfold translator_config, mbind at 1, M_bind at 1, get_self, mret, M_ret.
    fold cfg. rewrite HP. by destruct P. }
  assert (Hdocument : exists delta r,
             baseunit_document w = (r, with_out (out w ++ delta) w)).
  { assert (Hemits : only_emits baseunit_document).
    { subst baseunit_document. unfold _publish_baseunit_config.
      repeat emits_step. }
    destruct (Hemits w) as (delta & Hrun & _).
    exists delta, (fst (baseunit_document w)).
    rewrite <- Hrun. by destruct (baseunit_document w). }
  destruct Hdocument as (delta & r & Hdocument).
  split; [|split].
  - intros HP. by rewrite (Hstart false HP).
  - intros HP Hshutdown. rewrite (Hstart true HP).
    unfold mbind, M_bind. rewrite Hdocument.
    destruct r as [[]|e]; [|done].
    rewrite (publish_ha_config_loop_spec (with_out (out w ++ delta) w));
      [done | done | by intros k].
  - intros HP Hshutdown. rewrite (Hstart true HP).
    unfold mbind, M_bind. rewrite Hdocument.
    destruct r as [[]|e]; [|done].
    destruct (PyDict.keys (TranslatorConfig.devices cfg)) as [|k keys]; [done|].
    cbn [publish_ha_config_loop]. unfold mbind, M_bind, get_self.
    cbn [self with_out]. by rewrite Hshutdown.
Qed.

(** X22. A report of changed base-unit properties publishes every change,
    in order, and then runs discovery once exactly when one of the changes
    reports [is_connected] with a true value: a report with no such change
    publishes no discovery document, and several such changes in one report
    give one discovery, after the last property. *)
Theorem discovery_follows_connection_report (w : World)
    (changes : list PropertyChangedInfo.t) :
  _baseunit_properties_changed L changes w =
    (for_ changes
       (fun change =>
          _publish_baseunit_property L (PropertyChangedInfo.name change)
            (PropertyChangedInfo.new_value change)) ;;
     if existsb (reports_connected L) changes then _publish_ha_config L
     else pass) w.
Proof.
  unfold _baseunit_properties_changed.
  assert (Hloop : forall has_connected w,
    baseunit_changes_loop L changes has_connected w =
      (for_ changes
         (fun change =>
            _publish_baseunit_property L (PropertyChangedInfo.name change)
              (PropertyChangedInfo.new_value change)) ;;
       mret (has_connected || existsb (reports_connected L) changes)) w).
  { induction changes as [|change changes IH]; intros has_connected w'.
    - cbn. by rewrite orb_false_r.
    - cbn [baseunit_changes_loop for_ existsb].
      unfold mbind, M_bind.
      destruct (_publish_baseunit_property L _ _ w') as [[[]|e] w1]; [|done].
      rewrite IH. unfold mbind, M_bind. fold (reports_connected L change).
      destruct (for_ changes _ w1) as [[[]|e] w2]; [|done].
      by destruct (reports_connected L change), has_connected. }
  unfold mbind, M_bind. rewrite Hloop. unfold mbind, M_bind.
  destruct (for_ changes _ w) as [[[]|e] w1]; [|done].
  reflexivity.
Qed.

(** ** Timer handles over time *)

Lemma continues_refl (l : Loop.t) : continues l l.
Proof. split; [lia|]. intros h t Hlook. by exists t. Qed.

Lemma continues_trans (l1 l2 l3 : Loop.t) :
  continues l1 l2 -> continues l2 l3 -> continues l1 l3.
Proof.
  intros [Ht1 H1] [Ht2 H2]. split; [lia|].
  intros h t Hlook.
  destruct (H1 h t Hlook) as (t' & Hlook' & Hwhen' & Hargs' & Hlive').
  destruct (H2 h t' Hlook') as (t'' & Hlook'' & Hwhen'' & Hargs'' & Hlive'').
  exists t''. repeat split; try congruence. auto.
Qed.

(** Changing one handle into one that is not live. *)
Lemma continues_alter (l : Loop.t) (f : TimerHandle.t -> TimerHandle.t)
    (handle : nat) :
  (forall t, TimerHandle.when (f t) = TimerHandle.when t
             /\ TimerHandle.args (f t) = TimerHandle.args t
             /\ TimerHandle.live (f t) = false) ->
  continues l {| Loop.time := Loop.time l;
                 Loop.handles := alter f handle (Loop.handles l) |}.
Proof.
  intros Hf. split; [cbn; lia|]. intros h t Hlook. cbn.
  destruct (decide (h = handle)) as [->|Hne].
  - exists (f t). rewrite list_lookup_alter_eq, Hlook.
    destruct (Hf t) as (Hwhen & Hargs & Hlive).
    repeat split; try done. by rewrite Hlive.
  - exists t. by rewrite list_lookup_alter_ne.
Qed.

Lemma ages_ret {A} (a : A) : ages (mret a : M A).
Proof. intros w. apply continues_refl. Qed.

Lemma ages_bind {A B} (m : M A) (f : A -> M B) :
  ages m -> (forall a, ages (f a)) -> ages (m ≫= f).
Proof.
  intros Hm Hf w. unfold mbind, M_bind. specialize (Hm w).
  destruct (m w) as [[a|e] w1]; cbn in *; [|done].
  eapply continues_trans; [done | apply Hf].
Qed.

Lemma ages_try {A} (m : M A) (handler : exn -> M A) :
  ages m -> (forall e, ages (handler e)) -> ages (try_except m handler).
Proof.
  intros Hm Hh w. unfold try_except. specialize (Hm w).
  destruct (m w) as [[a|e] w1]; cbn in *; [done|].
  eapply continues_trans; [done | apply Hh].
Qed.

Lemma ages_for {A} (l : list A) (body : A -> M unit) :
  (forall x, ages (body x)) -> ages (for_ l body).
Proof.
  intros Hbody. induction l as [|x l IH]; cbn [for_].
  - apply ages_ret.
  - apply ages_bind; [apply Hbody | by intros _].
Qed.

Lemma ages_only_emits {A} (m : M A) : only_emits m -> ages m.
Proof. intros Hm w. destruct (Hm w) as (delta & -> & _). apply continues_refl. Qed.

Lemma ages_handle_cancel (handle : nat) : ages (handle_cancel handle).
Proof.
  intros w. unfold handle_cancel. cbn.
  apply continues_alter. intros t. repeat split. apply live_cancel.
Qed.

Lemma ages_call_later (delay arg : Z) : ages (call_later delay arg).
Proof.
  intros w. unfold call_later. cbn. split; [cbn; lia|].
  intros h t Hlook. exists t. cbn. split; [|done].
  by apply lookup_app_l_Some.
Qed.

Lemma ages_set_time (T : Z) : ages (set_time T).
Proof.
  intros w. unfold set_time. cbn. split; [cbn; lia|].
  intros h t Hlook. by exists t.
Qed.

Ltac ages_step :=
  lazymatch goal with
  | |- ages (mbind _ _) => apply ages_bind; [|intros ?]
  | |- ages (for_ _ _) => apply ages_for; intros ?
  | |- ages (try_except _ _) => apply ages_try; [|intros ?]
  | |- ages (handle_cancel _) => apply ages_handle_cancel
  | |- ages (call_later _ _) => apply ages_call_later
  | |- ages (set_time _) => apply ages_set_time
  | |- ages translator_config => unfold translator_config
  | |- ages (set_ha_state _) => unfold set_ha_state
  | |- ages (get_auto_reset_handle _) => unfold get_auto_reset_handle
  | |- ages (set_auto_reset_handle _ _) => unfold set_auto_reset_handle
  | |- ages (pop_auto_reset_handle _) => unfold pop_auto_reset_handle
  | |- ages (match ?x with _ => _ end) => destruct x
  | |- ages (let _ := _ in _) => cbv zeta
  | |- ages _ => intros ?; apply continues_refl
  end.

Lemma ages_auto_reset (device_id : Z) : ages (_auto_reset device_id).
Proof. unfold _auto_reset. repeat ages_step. Qed.

Lemma ages_fire (handle : nat) : ages (fire handle).
Proof.
  intros w. unfold fire.
  destruct (Loop.handles (loop w) !! handle) as [t|]; [|apply continues_refl].
  assert (Hfired : continues (loop w)
            {| Loop.time := Loop.time (loop w);
               Loop.handles :=
                 alter TimerHandle.unschedule handle (Loop.handles (loop w)) |}).
  { apply continues_alter. intros t'. by repeat split. }
  destruct (TimerHandle.live t); [|exact Hfired].
  eapply continues_trans; [exact Hfired|].
  apply (ages_auto_reset (TimerHandle.args t)
           (with_loop
              {| Loop.time := Loop.time (loop w);
                 Loop.handles :=
                   alter TimerHandle.unschedule handle (Loop.handles (loop w)) |}
              w)).
Qed.

Lemma ages_timer (handle : nat) : ages (timer handle).
Proof.
  intros w. unfold timer.
  destruct (Loop.handles (loop w) !! handle) as [t|]; [|apply continues_refl].
  destruct (due _ t); [apply ages_fire | apply continues_refl].
Qed.

Lemma ages_publish_baseunit_property (name : string) (value : pyval) :
  ages (_publish_baseunit_property L name value).
Proof. unfold _publish_baseunit_property. repeat ages_step. Qed.

Lemma ages_baseunit_changes_loop (changes : list PropertyChangedInfo.t)
    (has_connected : bool) :
  ages (baseunit_changes_loop L changes has_connected).
Proof.
  revert has_connected.
  induction changes as [|change changes IH]; intros has_connected;
    cbn [baseunit_changes_loop]; [apply ages_ret|].
  apply ages_bind; [apply ages_publish_baseunit_property | intros _; apply IH].
Qed.

Lemma ages_dispatch (message : option MQTTMessage.t) :
  ages (async_loop_dispatch L message).
Proof.
  unfold async_loop_dispatch, call_handler.
  repeat first
    [ apply ages_only_emits, only_emits_on_message
    | apply ages_only_emits, only_emits_on_message_clear_status
    | apply ages_only_emits, only_emits_on_message_set_datetime
    | progress unfold _on_message_baseunit
    | ages_step ].
Qed.

Lemma ages_react (i : input) : ages (react L i).
Proof.
  destruct i; cbn [react].
  - unfold _mqtt_on_connect. repeat ages_step.
  - unfold _mqtt_on_disconnect. repeat ages_step.
  - unfold _mqtt_on_message. repeat ages_step.
  - unfold deliver. repeat first [apply ages_dispatch | ages_step].
  - intros w. apply continues_refl.
  - apply ages_only_emits, only_emits_baseunit_device_added.
  - unfold _baseunit_event. repeat ages_step.
  - unfold _baseunit_properties_changed.
    apply ages_bind; [apply ages_baseunit_changes_loop|].
    intros [|]; [|apply ages_ret].
    apply ages_only_emits, only_emits_publish_ha_config.
  - unfold _device_on_event. repeat ages_step.
  - apply ages_only_emits, only_emits_device_on_properties_changed.
  - apply ages_timer.
  - apply ages_set_time.
  - unfold async_start. repeat ages_step.
  - unfold async_stop. repeat ages_step.
  - unfold signal_shutdown. repeat ages_step.
Qed.

(** X23. Timer handles are never taken away or brought back.  Whatever
    happens to a running translator, the clock of the loop does not go back,
    every handle made so far keeps its number, its due time and the device
    it resets, and a handle that was cancelled or has fired is never live
    again: a later reset of the same device is always a new handle. *)
Theorem timer_handles_are_never_revived (w : World) (inputs : list input) :
  continues (loop w) (loop (steps L w inputs)).
Proof.
  revert w. induction inputs as [|i inputs IH]; intros w.
  - apply continues_refl.
  - rewrite steps_cons. eapply continues_trans; [|apply IH].
    apply ages_react.
Qed.

(** *** After shutdown *)

Lemma handle_count_out (o : list effect) (w : World) :
  handle_count (with_out o w) = handle_count w.
Proof. reflexivity. Qed.

Lemma keeps_handle_count_cancel (handle : nat) :
  keeps handle_count (handle_cancel handle).
Proof. intros w. unfold handle_count, handle_cancel. cbn. apply length_alter. Qed.

Lemma keeps_handle_count_fire (handle : nat) : keeps handle_count (fire handle).
Proof.
  intros w. unfold fire, handle_count.
  destruct (Loop.handles (loop w) !! handle) as [t|]; [|done].
  destruct (TimerHandle.live t); cbn.
  - pose proof (auto_reset_keeps_loop (TimerHandle.args t)
                  (with_loop
                     {| Loop.time := Loop.time (loop w);
                        Loop.handles :=
                          alter TimerHandle.unschedule handle
                            (Loop.handles (loop w)) |} w)) as Hloop.
    unfold run in Hloop. rewrite Hloop. cbn. apply length_alter.
  - apply length_alter.
Qed.

Lemma keeps_handle_count_react (i : input) :
  is_trigger i = false -> keeps handle_count (react L i).
Proof.
  intros Hi. destruct i; cbn [react].
  - unfold _mqtt_on_connect. repeat keeps_step.
  - unfold _mqtt_on_disconnect. repeat keeps_step.
  - unfold _mqtt_on_message. repeat keeps_step.
  - unfold deliver. apply keeps_bind; [by intros ?|]. intros s.
    destruct (Translator._pending_messages s); [by intros ?|].
    apply keeps_bind; [by intros ?|]. intros _.
    apply (keeps_deliver _ handle_count_out). intros st m.
    unfold _on_message_baseunit. repeat keeps_step.
  - by intros w.
  - apply (keeps_only_emits _ _ handle_count_out),
      only_emits_baseunit_device_added.
  - unfold _baseunit_event. repeat keeps_step.
  - unfold _baseunit_properties_changed.
    apply keeps_bind.
    + apply keeps_baseunit_changes_loop. intros name value.
      unfold _publish_baseunit_property. repeat keeps_step.
    + intros [|]; [|apply keeps_ret].
      apply (keeps_only_emits _ _ handle_count_out),
        only_emits_publish_ha_config.
  - unfold _device_on_event.
    destruct event_code; try discriminate; repeat keeps_step.
  - apply (keeps_only_emits _ _ handle_count_out),
      only_emits_device_on_properties_changed.
  - apply keeps_timer, keeps_handle_count_fire.
  - by intros w.
  - unfold async_start. repeat keeps_step.
  - unfold async_stop.
    repeat first [apply keeps_handle_count_cancel | keeps_step].
  - unfold signal_shutdown. repeat keeps_step.
Qed.

Lemma all_dead_step (w : World) (i : input) :
  is_trigger i = false ->
  all_dead (Loop.handles (loop w)) ->
  all_dead (Loop.handles (loop (step L w i))).
Proof.
  intros Hi Hdead h t' Hlook'.
  pose proof (keeps_handle_count_react i Hi w) as Hcount.
  unfold handle_count in Hcount. fold (run (react L i) w) in Hcount.
  fold (step L w i) in Hcount.
  assert (Hlt : (h < length (Loop.handles (loop w)))%nat).
  { rewrite <- Hcount. by eapply lookup_lt_Some. }
  apply lookup_lt_is_Some_2 in Hlt as [t Hlook].
  destruct (ages_react i w) as [_ Hcont].
  destruct (Hcont h t Hlook) as (t'' & Hlook'' & _ & _ & Hlive).
  fold (run (react L i) w) in Hlook''. fold (step L w i) in Hlook''.
  assert (t'' = t') by congruence. subst t''.
  destruct (TimerHandle.live t') eqn:Hl; [|done].
  rewrite <- (Hdead h t Hlook). symmetry. by apply Hlive.
Qed.

Lemma all_dead_steps (w : World) (inputs : list input) :
  Forall (fun i => is_trigger i = false) inputs ->
  all_dead (Loop.handles (loop w)) ->
  all_dead (Loop.handles (loop (steps L w inputs))).
Proof.
  intros Hinputs. revert w.
  induction Hinputs as [|i inputs Hi _ IH]; intros w Hdead; [done|].
  rewrite steps_cons. by apply IH, all_dead_step.
Qed.

(** X24. After shutdown no reset is published any more.  [async_stop] leaves
    no live handle, and as long as no device reports a Trigger none
    becomes live: however long one waits and whichever timer callback the
    loop still runs, nothing is added to the trace. *)
Theorem stopped_timers_never_fire (w : World) (inputs : list input)
    (T : Z) (handle : nat) :
  timers_ok w ->
  Forall (fun i => is_trigger i = false) inputs ->
  let w' := steps L (run async_stop w) inputs in
  all_dead (Loop.handles (loop w'))
  /\ out (run (run_until T) w') = out w'
  /\ step L w' (InTimer handle) = w'.
Proof.
  intros Hok Hinputs w'.
  assert (Hdead : all_dead (Loop.handles (loop w'))).
  { apply all_dead_steps; [done|].
    destruct (stop_cancels_all w Hok) as (_ & _ & Hnone & _).
    intros h t Hlook. destruct (TimerHandle.live t) eqn:Hlive; [|done].
    destruct (Hnone h (TimerHandle.args t)). by exists t. }
  split; [done|]. split.
  - unfold run. rewrite run_until_idle; [done|].
    unfold next_due. by apply next_due_from_dead.
  - unfold step, run. cbn [react]. unfold timer.
    destruct (Loop.handles (loop w') !! handle) as [t|] eqn:Hlook; [|done].
    unfold due. by rewrite (Hdead handle t Hlook).
Qed.

(** ** [lifesospy_mqtt/config.py] *)

Lemma get_set {V} (d : PyDict.t Z V) (k k' : Z) (v : V) :
  PyDict.get (PyDict.set d k v) k' =
    if Z.eqb k k' then Some v else PyDict.get d k'.
Proof.
  induction d as [|[k0 v0] d IH]; [done|]. cbn.
  destruct (Z.eqb_spec k0 k) as [->|Hne]; cbn.
  - by destruct (Z.eqb_spec k k').
  - rewrite IH.
    destruct (Z.eqb_spec k0 k') as [->|Hne']; [|done].
    by destruct (Z.eqb_spec k k').
Qed.

Lemma keys_set_In {V} (d : PyDict.t Z V) (k k' : Z) (v : V) :
  In k' (PyDict.keys (PyDict.set d k v)) <-> k' = k \/ In k' (PyDict.keys d).
Proof.
  unfold PyDict.keys. induction d as [|[k0 v0] d IH]; cbn.
  - split; [intros [<-|[]]; by left | intros [->|[]]; by left].
  - destruct (Z.eqb_spec k0 k) as [->|Hne]; cbn.
    + split; [intros [<-|Hin]; auto | intros [->|[<-|Hin]]; auto].
    + rewrite IH. tauto.
Qed.

Lemma keys_set_NoDup {V} (d : PyDict.t Z V) (k : Z) (v : V) :
  NoDup (PyDict.keys d) -> NoDup (PyDict.keys (PyDict.set d k v)).
Proof.
  induction d as [|[k0 v0] d IH]; cbn.
  - intros _. apply NoDup_singleton.
  - rewrite NoDup_cons. intros [Hnot Hd].
    destruct (Z.eqb_spec k0 k) as [->|Hne]; cbn.
    + by apply NoDup_cons.
    + apply NoDup_cons. split; [|by apply IH].
      intros Hin. apply list_elem_of_In in Hin.
      apply (keys_set_In d k k0 v) in Hin.
      destruct Hin as [?|Hin]; [congruence|].
      apply Hnot. by apply list_elem_of_In.
Qed.

Lemma make_devices_snoc (devices_settings : list (Z * TranslatorDeviceConfig.t))
    (s : Z * TranslatorDeviceConfig.t) :
  TranslatorConfig.make_devices (devices_settings ++ [s]) =
    PyDict.set (TranslatorConfig.make_devices devices_settings) (fst s) (snd s).
Proof. unfold TranslatorConfig.make_devices. by rewrite fold_left_app. Qed.

(** X25. The table of device configurations built from the list of device
    settings: looking an id up gives the last settings listed under that id
    and nothing when none is, whatever was listed before; every listed id is
    a key and no key occurs twice, so discovery visits each device once. *)
Theorem devices_table_by_id
    (devices_settings : list (Z * TranslatorDeviceConfig.t)) :
  let devices := TranslatorConfig.make_devices devices_settings in
  (forall device_id,
      PyDict.get devices device_id =
        snd <$> last (List.filter (fun s => Z.eqb (fst s) device_id)
                        devices_settings))
  /\ NoDup (PyDict.keys devices)
  /\ (forall device_id,
        In device_id (PyDict.keys devices)
        <-> In device_id (map fst devices_settings)).
Proof.
  cbv zeta.
  induction devices_settings as [|s devices_settings (IHget & IHnodup & IHin)]
    using rev_ind.
  - split; [done|]. split; [apply NoDup_nil_2 | done].
  - rewrite make_devices_snoc. split; [|split].
    + intros device_id. rewrite get_set, List.filter_app. cbn [List.filter].
      destruct (Z.eqb (fst s) device_id).
      * by rewrite last_snoc.
      * rewrite app_nil_r. apply IHget.
    + by apply keys_set_NoDup.
    + intros device_id. rewrite keys_set_In, IHin, map_app, in_app_iff. cbn.
      split; [intros [->|Hin]; auto | intros [Hin|[<-|[]]]; auto].
Qed.

Lemma append_assoc (s1 s2 s3 : string) : (s1 +:+ s2) +:+ s3 = s1 +:+ (s2 +:+ s3).
Proof.
  induction s1 as [|c s1 IH]; [done|].
  change (String c ((s1 +:+ s2) +:+ s3) = String c (s1 +:+ (s2 +:+ s3))).
  by rewrite IH.
Qed.

Lemma ljust_empty (n : nat) (fill : ascii) : ljust "" n fill = repeat_char fill n.
Proof.
  unfold ljust. change (py_len "") with O. by rewrite Nat.sub_0_r.
Qed.

(** X26. The text form of the LifeSOS settings never shows the password: an
    absent or empty password is shown as [None] and any other as one star
    per character, so two settings that differ only in passwords of the same
    length have the same text. *)
Theorem lifesos_repr_masks_password (host : option string) (port : Z) :
  let repr password :=
    LifeSOSConfig.__repr__
      {| LifeSOSConfig.host := host; LifeSOSConfig.port := port;
         LifeSOSConfig.password := password |} in
  (forall p,
      str_truthy p = true ->
      repr (Some p) =
        "<LifeSOSConfig: host=" +:+ str_of_opt host
        +:+ ", port=" +:+ str_int port
        +:+ ", password=" +:+ repeat_char "*" (py_len p) +:+ ">")
  /\ (forall p1 p2,
        str_truthy p1 = true -> str_truthy p2 = true ->
        py_len p1 = py_len p2 ->
        repr (Some p1) = repr (Some p2))
  /\ repr (Some "") = repr None.
Proof.
  cbv zeta.
  assert (Hshown : forall p,
             str_truthy p = true ->
             LifeSOSConfig.__repr__
               {| LifeSOSConfig.host := host; LifeSOSConfig.port := port;
                  LifeSOSConfig.password := Some p |} =
             "<LifeSOSConfig: host=" +:+ str_of_opt host
             +:+ ", port=" +:+ str_int port
             +:+ ", password=" +:+ repeat_char "*" (py_len p) +:+ ">").
  { intros p Hp. unfold LifeSOSConfig.__repr__.
    cbn [LifeSOSConfig.host LifeSOSConfig.port LifeSOSConfig.password].
    rewrite Hp. cbn [negb]. by rewrite ljust_empty. }
  split; [exact Hshown|]. split; [|done].
  intros p1 p2 H1 H2 Hlen. by rewrite (Hshown p1 H1), (Hshown p2 H2), Hlen.
Qed.

(** ** The base unit in discovery *)

Lemma sget_sset {V} (d : PyDict.t string V) (k k' : string) (v : V) :
  PyDict.sget (PyDict.sset d k v) k' =
    if String.eqb k k' then Some v else PyDict.sget d k'.
Proof.
  induction d as [|[k0 v0] d IH]; [done|]. cbn.
  destruct (String.eqb_spec k0 k) as [->|Hne]; cbn.
  - by destruct (String.eqb_spec k k').
  - rewrite IH.
    destruct (String.eqb_spec k0 k') as [->|Hne']; [|done].
    by destruct (String.eqb_spec k k').
Qed.

(** In [{**a, **b}] the last item of [b] under a key wins over [a]. *)
Lemma sget_merge {V} (a b : PyDict.t string V) (k : string) :
  PyDict.sget (PyDict.merge a b) k =
    match last (List.filter (fun kv => String.eqb (fst kv) k) b) with
    | Some kv => Some (snd kv)
    | None => PyDict.sget a k
    end.
Proof.
  unfold PyDict.merge.
  induction b as [|kv b IH] using rev_ind; [done|].
  rewrite fold_left_app. cbn [fold_left].
  rewrite sget_sset, List.filter_app. cbn [List.filter].
  destruct (String.eqb (fst kv) k).
  - by rewrite last_snoc.
  - rewrite app_nil_r. apply IH.
Qed.

(** X27. The discovery document of the base unit and the handler of its
    commands agree.  With device info configured, one document is published,
    not retained, on [alarm_control_panel/lifesos_baseunit] under the
    prefix; its state topic is [B/ha_state], its availability topic
    [B/is_connected], its command topic [B/operation_mode/set], and its
    disarm, arm-home and arm-away payloads are the texts of the three
    operation modes.  Provided the library parses the text of a mode back to
    that mode, a message carrying such a payload makes the operation-mode
    handler schedule the command for exactly that mode as its last call. *)
Theorem baseunit_discovery_commands_are_accepted (w : World)
    (info : PyDict.t string string) :
  let cfg := Config.translator (Translator._config (self w)) in
  let B := base_topic w in
  let P := str_of_opt (TranslatorConfig.discovery_prefix cfg) in
  TranslatorBaseUnitConfig.device_info (TranslatorConfig.baseunit cfg) = Some info ->
  (exists doc,
      _publish_baseunit_config L (TranslatorConfig.baseunit cfg) w =
        (Ok tt,
         with_out
           (out w ++
            [Publish (fmt_config P "alarm_control_panel" "lifesos_baseunit")
               (PJson doc) QOS_1 false]) w)
      /\ describes doc "lifesos_baseunit" (fmt2 B "ha_state")
           (JDict (PyDict.merge [(IDENTIFIERS, "lifesos_baseunit")] info))
           (JStr (fmt2 B "is_connected"))
      /\ PyDict.sget doc COMMAND_TOPIC =
           Some (JStr (fmt3 B "operation_mode" "set"))
      /\ PyDict.sget doc PAYLOAD_DISARM =
           Some (JStr (Lifesospy.str_OperationMode L OperationMode.Disarm))
      /\ PyDict.sget doc PAYLOAD_ARM_HOME =
           Some (JStr (Lifesospy.str_OperationMode L OperationMode.Home))
      /\ PyDict.sget doc PAYLOAD_ARM_AWAY =
           Some (JStr (Lifesospy.str_OperationMode L OperationMode.Away)))
  /\ (forall (mode : OperationMode.t) (st : SubscribeTopic.t)
             (m : MQTTMessage.t),
        SubscribeTopic.args st = Some BaseUnit.PROP_OPERATION_MODE ->
        MQTTMessage.payload m <> [] ->
        decode (MQTTMessage.payload m) =
          Some (Lifesospy.str_OperationMode L mode) ->
        Lifesospy.OperationMode_parse_name L
          (Some (Lifesospy.str_OperationMode L mode)) = Some mode ->
        outcome (_on_message_baseunit L st m) w = Ok tt
        /\ exists before,
             out (run (_on_message_baseunit L st m) w) =
               out w ++ before ++ [CreateTask (async_set_operation_mode mode)]).
Proof.
  intros cfg B P Hinfo. split.
  - subst cfg B P. unfold _publish_baseunit_config, base_topic.
    rewrite Hinfo. exec.
    eexists. split; [reflexivity|]. unfold describes.
    split; [|split; [|split; [|split]]]; try reflexivity.
    split; [reflexivity|]. split; [reflexivity|]. split; [reflexivity|].
    split; [reflexivity|]. split; [reflexivity|]. split; reflexivity.
  - intros mode st m Hargs Hne Hdec Hparse.
    assert (Hrun : exists before w',
               _on_message_baseunit L st m w = (Ok tt, w')
               /\ out w' =
                    out w ++ before
                    ++ [CreateTask (async_set_operation_mode mode)]).
    { unfold _on_message_baseunit. rewrite Hargs.
      cbn [String.eqb Ascii.eqb Bool.eqb BaseUnit.PROP_OPERATION_MODE].
      unfold mbind at 1, M_bind at 1, payload_text, decode_payload.
      destruct (MQTTMessage.payload m) as [|b p] eqn:Hp; [done|].
      rewrite Hdec, Hparse. exec.
      destruct (OperationMode.eqb mode OperationMode.Disarm
                && eq_state L (Translator._state (self w)) BaseUnitState.Disarm
                && match Translator._ha_state (self w) with
                   | Some h => String.eqb h STATE_TRIGGERED
                   | None => false
                   end); cbn.
      - eexists [_; _], _. split; [reflexivity|]. cbn.
        by rewrite <- !app_assoc.
      - eexists [], _. split; reflexivity. }
    destruct Hrun as (before & w' & Hrun & Hout).
    unfold outcome, run. rewrite Hrun. split; [done | by exists before].
Qed.

(** X28. Who owns the identifier of a discovered device.  For a device the
    translator's identifier [LifeSOS_<hex>] always wins over an
    [identifiers] item of the configured device info, and every other item
    of the device info is passed on.  For the base unit it is the other way
    round: an [identifiers] item of the configured device info replaces
    [lifesos_baseunit]. *)
Theorem discovery_identifier_precedence (w : World)
    (info : PyDict.t string string) :
  (forall device_id,
      exists d,
        _add_device_identifiers device_id (Some info) w = (Ok (JDict d), w)
        /\ PyDict.sget d IDENTIFIERS = Some ("LifeSOS_" +:+ format_06x device_id)
        /\ forall k, k <> IDENTIFIERS -> PyDict.sget d k = PyDict.sget info k)
  /\ (forall bc,
        TranslatorBaseUnitConfig.device_info bc = Some info ->
        exists topic doc d,
          _publish_baseunit_config L bc w =
            (Ok tt, with_out (out w ++ [Publish topic (PJson doc) QOS_1 false]) w)
          /\ PyDict.sget doc DEVICE = Some (JDict d)
          /\ PyDict.sget d IDENTIFIERS =
               match last (List.filter
                             (fun kv => String.eqb (fst kv) IDENTIFIERS) info)
               with
               | Some kv => Some (snd kv)
               | None => Some "lifesos_baseunit"
               end).
Proof.
  split.
  - intros device_id. eexists. split; [reflexivity|].
    unfold PyDict.merge. cbn [fold_left fst snd]. split.
    + by rewrite sget_sset, String.eqb_refl.
    + intros k Hk. rewrite sget_sset.
      apply not_eq_sym, String.eqb_neq in Hk. by rewrite Hk.
  - intros bc Hinfo. unfold _publish_baseunit_config. rewrite Hinfo. exec.
    eexists _, _, _. split; [reflexivity|]. split; [reflexivity|].
    by rewrite sget_merge.
Qed.

End coverage.

(** * The further properties on the sample instance *)

Lemma hub_state_changes_only_on_reports_witness :
  raw_state
    (step Sample.lifesospy Sample.triggered_world
       (InDeviceEvent Sample.pir DeviceEventCode.Trigger))
  = raw_state Sample.triggered_world
  /\ ha_state
       (step Sample.lifesospy Sample.triggered_world
          (InDeviceEvent Sample.pir DeviceEventCode.Trigger))
     = ha_state Sample.triggered_world.
Proof.
  destruct (hub_state_changes_only_on_reports Sample.lifesospy
              Sample.triggered_world
              (InDeviceEvent Sample.pir DeviceEventCode.Trigger))
    as (Hraw & Hha & _).
  split; [apply Hraw | apply Hha]; reflexivity.
Defined.

Lemma registry_routes_topics_witness :
  _subscribetopics_lookup (__init__ Sample.config) "home/alarm/clear_status"
  = Some (SubscribeTopic.make "home/alarm/clear_status"
            SubscribeTopic._on_message_clear_status None)
  /\ _subscribetopics_lookup (__init__ Sample.config) "homeassistant/status"
     = Some Sample.birth.
Proof.
  destruct (registry_routes_topics Sample.config) as (_ & _ & _ & Hcmd & Hbirth).
  split.
  - apply (Hcmd (SubscribeTopic.make "home/alarm/clear_status"
                   SubscribeTopic._on_message_clear_status None)).
    + left. reflexivity.
    + discriminate.
  - apply Hbirth; reflexivity.
Defined.

Lemma router_survives_handlers_witness :
  out (run (async_loop_dispatch Sample.lifesospy
              (Some (Sample.message "home/unknown" "x"))) Sample.world)
  = [log_exception "home/unknown" KeyError].
Proof.
  destruct (router_survives_handlers Sample.lifesospy Sample.world
              (Sample.message "home/unknown" "x")) as (_ & Hnone & _).
  rewrite Hnone; reflexivity.
Defined.

Lemma not_implemented_is_unreachable_witness :
  outcome (call_handler Sample.lifesospy Sample.operation_mode_set Sample.garbled)
    Sample.world
  <> Raise NotImplementedError.
Proof.
  apply (not_implemented_is_unreachable Sample.lifesospy Sample.config
           Sample.adapter [] Sample.garbled Sample.operation_mode_set).
  reflexivity.
Defined.


Lemma command_message_reaches_its_handler_witness :
  steps Sample.lifesospy Sample.world
    [InMessage (Sample.message "home/alarm/clear_status" "now"); InDeliver]
  = with_out [CreateTask async_clear_status] Sample.world.
Proof.
  apply (command_message_reaches_its_handler Sample.lifesospy Sample.config
           Sample.adapter []
           (SubscribeTopic.make "home/alarm/clear_status"
              SubscribeTopic._on_message_clear_status None)
           (encode "now")).
  - left. reflexivity.
  - discriminate.
  - reflexivity.
  - reflexivity.
Defined.

Lemma connect_subscribes_when_accepted_witness :
  _mqtt_on_connect 5 100 Sample.world
  = (Ok tt,
     with_out (out Sample.world ++ [Log WARNING (msg_connack 5)]) Sample.world).
Proof.
  apply (connect_subscribes_when_accepted Sample.lifesospy Sample.config
           Sample.adapter Sample.world 5 100).
  discriminate.
Defined.


Lemma device_event_without_trigger_witness :
  _device_on_event Sample.pir DeviceEventCode.Tamper Sample.world
  = (Ok tt,
     with_out
       [Publish "home/lounge/motion/event_code"
          (PDeviceEventCode DeviceEventCode.Tamper) QOS_1 false;
        Publish "home/lounge/motion/tamper" (PBool true) QOS_1 false]
       Sample.world).
Proof.
  destruct (device_event_without_trigger Sample.world Sample.pir
              Sample.pir_config DeviceEventCode.Tamper eq_refl) as [Hevent _].
  apply Hevent; [reflexivity | discriminate].
Defined.

Lemma auto_reset_needs_its_entry_witness :
  _auto_reset Sample.pir_id Sample.world
  = (Raise KeyError,
     with_out [Publish "home/lounge/motion" (POnOff OnOff.Off) QOS_1 true]
       Sample.world).
Proof.
  apply (proj1 (auto_reset_needs_its_entry Sample.lifesospy)).
  reflexivity.
Defined.

Lemma device_topic_writers_witness :
  _publish_device_property Sample.lifesospy "home/lounge/motion" Sample.pir
    "is_closed" (VBool true) Sample.world
  = (Ok tt,
     with_out [Publish "home/lounge/motion" (POnOff OnOff.Off) QOS_1 true]
       Sample.world).
Proof.
  destruct (device_topic_writers Sample.lifesospy Sample.world
              "home/lounge/motion" Sample.pir "is_closed" (VBool true))
    as (_ & Hclosed & _).
  apply Hclosed; reflexivity.
Defined.

Lemma category_publishes_code_and_description_witness :
  _publish_device_property Sample.lifesospy "home/lounge/motion" Sample.pir
    "category"
    (VCategory [("code", "b"); ("name", "Burglar"); ("description", "Burglar")])
    Sample.world
  = (Ok tt,
     with_out
       [Publish "home/lounge/motion/category/code" (PStr "b") QOS_1 true;
        Publish "home/lounge/motion/category/description" (PStr "Burglar")
          QOS_1 true]
       Sample.world).
Proof.
  apply (proj1 (category_publishes_code_and_description Sample.lifesospy
                  Sample.world "home/lounge/motion" Sample.pir _)
           [("code", "b"); ("name", "Burglar"); ("description", "Burglar")]).
  reflexivity.
Defined.

Lemma flags_and_device_id_need_integers_witness :
  _publish_device_property Sample.lifesospy "home/lounge/motion" Sample.pir
    "switches" VNone Sample.world
  = (Raise TypeError, Sample.world).
Proof.
  destruct (flags_and_device_id_need_integers Sample.lifesospy Sample.world
              "home/lounge/motion" Sample.pir VNone) as [Hnone _].
  destruct (Hnone eq_refl) as [Hflags _].
  apply (Hflags "switches" (Lifesospy.SwitchFlags Sample.lifesospy)).
  right. right. left. reflexivity.
Defined.

Lemma device_id_hex_is_unique_witness :
  String.length (format_06x Sample.pir_id) = 6%nat.
Proof.
  apply (proj1 (proj2 device_id_hex_is_unique)).
  unfold Sample.pir_id. change (16 ^ 6) with 16777216. lia.
Defined.

Lemma device_discovery_documents_witness :
  exists main rssi battery,
    publish_device_configs Sample.lifesospy Sample.pir Sample.pir_config
      Sample.world
    = (Ok tt,
       with_out
         (main ++
          [Publish "homeassistant/sensor/lifesos_012cba_rssi/config"
             (PJson rssi) QOS_1 false;
           Publish "homeassistant/binary_sensor/lifesos_012cba_battery/config"
             (PJson battery) QOS_1 false])
         Sample.world).
Proof.
  destruct (device_discovery_documents Sample.lifesospy Sample.world Sample.pir
              Sample.pir_config [("manufacturer", "LifeSOS")] eq_refl)
    as (main & rssi & battery & Hrun & _).
  exists main, rssi, battery. exact Hrun.
Defined.

Lemma discovery_needs_device_info_witness :
  publish_device_configs Sample.lifesospy Sample.pir
    {| TranslatorDeviceConfig.topic := "home/lounge/motion";
       TranslatorDeviceConfig.auto_reset_interval := None;
       TranslatorDeviceConfig.device_info := None |}
    Sample.world
  = (Raise TypeError, Sample.world).
Proof.
  apply (proj1 (discovery_needs_device_info Sample.lifesospy Sample.world)).
  reflexivity.
Defined.

Lemma discovery_covers_enrolled_devices_witness :
  map fst (discovered Sample.world) = [Sample.pir]
  /\ _publish_ha_config Sample.lifesospy Sample.world
     = ((_publish_baseunit_config Sample.lifesospy
           (TranslatorConfig.baseunit (Config.translator Sample.config)) ;;
         for_ (discovered Sample.world)
           (fun item =>
              publish_device_configs Sample.lifesospy (fst item) (snd item)))
          Sample.world).
Proof.
  split; [reflexivity|].
  apply (proj1 (proj2 (discovery_covers_enrolled_devices Sample.lifesospy
                         Sample.world)));
    reflexivity.
Defined.

Lemma stopped_timers_never_fire_witness :
  let w := step Sample.lifesospy Sample.world
             (InDeviceEvent Sample.pir DeviceEventCode.Trigger) in
  let w' := steps Sample.lifesospy (run async_stop w)
              [InTime 100; InDeviceEvent Sample.pir DeviceEventCode.Tamper] in
  out (run (run_until 1000) w') = out w'.
Proof.
  intros w w'.
  apply (stopped_timers_never_fire Sample.lifesospy w
           [InTime 100; InDeviceEvent Sample.pir DeviceEventCode.Tamper]
           1000 0).
  - apply (timers_ok_steps Sample.lifesospy Sample.world
             [InDeviceEvent Sample.pir DeviceEventCode.Trigger]).
    apply timers_ok_initial.
  - repeat constructor.
Defined.

Lemma lifesos_repr_masks_password_witness :
  LifeSOSConfig.__repr__
    {| LifeSOSConfig.host := Some "192.168.1.100"; LifeSOSConfig.port := 1680;
       LifeSOSConfig.password := Some "secret" |}
  = LifeSOSConfig.__repr__
      {| LifeSOSConfig.host := Some "192.168.1.100"; LifeSOSConfig.port := 1680;
         LifeSOSConfig.password := Some "hunter" |}.
Proof.
  apply (proj1 (proj2 (lifesos_repr_masks_password (Some "192.168.1.100") 1680)));
    reflexivity.
Defined.

Lemma baseunit_discovery_commands_are_accepted_witness :
  out (run (_on_message_baseunit Sample.lifesospy Sample.operation_mode_set
              (Sample.message "home/alarm/operation_mode/set" "Home"))
         Sample.world)
  = [CreateTask (async_set_operation_mode OperationMode.Home)].
Proof.
  destruct (baseunit_discovery_commands_are_accepted Sample.lifesospy
              Sample.world [] eq_refl) as [_ Hcommand].
  destruct (Hcommand OperationMode.Home Sample.operation_mode_set
              (Sample.message "home/alarm/operation_mode/set" "Home"))
    as [_ [before Hout]]; [reflexivity | discriminate | reflexivity
                          | reflexivity |].
  reflexivity.
Defined.

Lemma discovery_identifier_precedence_witness :
  exists topic doc d,
    _publish_baseunit_config Sample.lifesospy
      {| TranslatorBaseUnitConfig.topic := "home/alarm";
         TranslatorBaseUnitConfig.device_info := Some [("identifiers", "mine")] |}
      Sample.world
    = (Ok tt, with_out [Publish topic (PJson doc) QOS_1 false] Sample.world)
    /\ PyDict.sget doc DEVICE = Some (JDict d)
    /\ PyDict.sget d IDENTIFIERS = Some "mine".
Proof.
  apply (proj2 (discovery_identifier_precedence Sample.lifesospy Sample.world
                  [("identifiers", "mine")])).
  reflexivity.
Defined.
